(** * Tuning curves from the Allen Brain Observatory notebook

    A shallow embedding of the analysis cells of
    [notebooks/Zambia25/07-to-10-Mon-toThu-AllenTutorial/Session_2_Tuning_Curves.ipynb]:
    the trial-by-trial mean response, the hand-computed average for one
    direction, the direction values, the one- and two-dimensional tuning
    curves and the z-scored tuning array.

    Python names live in a namespace (a finite map from names to heap
    locations), numpy arrays and the stimulus table are heap objects, and
    every cell is a program in a state-and-exception monad.  A log of
    array reads and loop iterations is kept next to the heap.

    Stimulus parameters (direction, temporal frequency) are IEEE-754
    binary64 values ([spec_float]); the numbers that are averaged are kept
    abstract behind the [Numpy] interface, which names the numpy
    reductions the notebook calls. *)

From Stdlib Require Import ZArith Lia SpecFloat Sorted.
From stdpp Require Import gmap strings list.

(** ** float64 values of the stimulus table *)

Definition float64 : Type := spec_float.

Definition prec64 : Z := 53.
Definition emax64 : Z := 1024.

(** A Python int literal met by a float array ([direction==270]). *)
Definition f64_of_int (z : Z) : float64 := binary_normalize prec64 emax64 z 0 false.

Definition f64_nan : float64 := S754_nan.

(** [x == y] on float64: false as soon as one side is NaN. *)
Definition f64_eq (x y : float64) : bool := SFeqb x y.

(** [x < y] on float64. *)
Definition f64_lt (x y : float64) : bool := SFltb x y.

Definition f64_isnan (x : float64) : bool :=
  match x with S754_nan => true | _ => false end.

(** [np.isfinite]: neither NaN nor an infinity. *)
Definition f64_isfinite (x : float64) : bool :=
  match x with
  | S754_zero _ | S754_finite _ _ _ => true
  | S754_infinity _ | S754_nan => false
  end.

(** The order numpy sorts floats by: the usual [<], with NaN after
    everything else. *)
Definition sort_lt (x y : float64) : bool :=
  f64_lt x y || (f64_isnan y && negb (f64_isnan x)).

Fixpoint sort_insert (x : float64) (ys : list float64) : list float64 :=
  match ys with
  | [] => [x]
  | y :: ys' => if sort_lt x y then x :: y :: ys' else y :: sort_insert x ys'
  end.

(** [np.sort] of a one-dimensional float array. *)
Definition np_sort (xs : list float64) : list float64 :=
  foldr sort_insert [] xs.

(** Two neighbours of the sorted array that [np.unique] merges: equal
    values, and NaN with NaN. *)
Definition same_value (x y : float64) : bool :=
  f64_eq x y || (f64_isnan x && f64_isnan y).

Fixpoint drop_repeats (prev : float64) (xs : list float64) : list float64 :=
  match xs with
  | [] => []
  | x :: xs' =>
      if same_value prev x then drop_repeats x xs' else x :: drop_repeats x xs'
  end.

(** [np.unique]: sort, then keep the first element of every run. *)
Definition np_unique (xs : list float64) : list float64 :=
  match np_sort xs with
  | [] => []
  | x :: xs' => x :: drop_repeats x xs'
  end.

(** Boolean-mask indexing [a[mask]] on arrays of the same length. *)
Fixpoint select {A : Type} (mask : list bool) (xs : list A) : list A :=
  match mask, xs with
  | b :: mask', x :: xs' => if b then x :: select mask' xs' else select mask' xs'
  | _, _ => []
  end.

(** ** Python slices *)

(** One bound of [a[lo:hi]] on an array of length [n]: a negative bound
    counts from the end, and the result is clipped to [0..n]. *)
Definition slice_bound (n : nat) (i : Z) : nat :=
  let i' := if (i <? 0)%Z then (i + Z.of_nat n)%Z else i in
  if (i' <? 0)%Z then 0 else Nat.min (Z.to_nat i') n.

Definition py_slice {A : Type} (xs : list A) (lo hi : Z) : list A :=
  let a := slice_bound (length xs) lo in
  let b := slice_bound (length xs) hi in
  take (b - a) (drop a xs).

(** The samples of [xs] whose index lies in the half-open range
    [lo, hi): the reading of a slice with index [hi] excluded. *)
Definition index_range {A : Type} (xs : list A) (lo hi : nat) : list A :=
  omap (fun k => xs !! k) (seq lo (hi - lo)).

(** The window of [xs] from index [lo] (included) to [hi] (excluded),
    when all of those indices exist. *)
Definition window {A : Type} (xs : list A) (lo hi : Z) : option (list A) :=
  if decide (0 <= lo /\ hi <= Z.of_nat (length xs))%Z
  then Some (index_range xs (Z.to_nat lo) (Z.to_nat hi))
  else None.

(** ** The stimulus table *)

(** One row of [stim_table]: the frame numbers at which the trial starts
    and ends, and the grating parameters (NaN on a blank sweep). *)
Record trial : Type := Trial {
  start : nat;
  end_ : nat;
  orientation : float64;
  temporal_frequency : float64;
  blank_sweep : float64
}.

(** ** Heap, namespace, log *)

(** Heap locations. *)
Abbreviation loc := nat.

Inductive exn : Type :=
| NameError (name : string)
| AttributeError (attr : string)
| KeyError (label : nat)
| IndexError (index size : nat)
| ValueError
| TypeError.

Inductive event : Type :=
| Iter (var : string) (i : nat)     (* the body of the loop over var is entered *)
| ReadSlice (l : loc) (lo hi : nat) (* the samples lo..hi-1 of an array are read *)
| Scan (l : loc)                    (* a whole array is read *)
| EmptyMean.                        (* RuntimeWarning: mean of an empty slice *)

(** The numpy operations on the averaged numbers. *)
Class Numpy (V : Type) : Type := {
  f_zero : V;                  (* the entries of np.zeros *)
  f_sub : V -> V -> V;
  f_div : V -> V -> V;
  arr_mean : list V -> V;      (* ndarray.mean() over all entries *)
  arr_std : list V -> V;       (* ndarray.std() over all entries *)
  arr_uninit : nat -> V        (* what np.empty finds in memory *)
}.

Section Notebook.
Context {V : Type} `{!Numpy V}.

Inductive obj : Type :=
| OFloat (xs : list V)               (* 1-d float array: trace, responses *)
| OFloat2 (rows : list (list V))     (* 2-d float array, row major *)
| OKey (ks : list float64)           (* 1-d float array of stimulus parameters *)
| OInt (ns : list nat)               (* 1-d array of frame numbers *)
| OBool (bs : list bool)             (* boolean mask *)
| OTable (cols : gmap string loc) (nrows : nat). (* DataFrame with a RangeIndex *)

Record state : Type := State {
  heap : list obj;
  names : gmap string loc;
  log : list event
}.

Definition M (A : Type) : Type := state -> (exn + A) * state.

Definition ret {A : Type} (a : A) : M A := fun st => (inr a, st).

Definition raise {A : Type} (e : exn) : M A := fun st => (inl e, st).

Definition bind {A B : Type} (m : M A) (f : A -> M B) : M B :=
  fun st =>
    match m st with
    | (inl e, st') => (inl e, st')
    | (inr a, st') => f a st'
    end.

Notation "x <- m ;; k" := (bind m (fun x => k))
  (at level 100, m at next level, right associativity).
Notation "m ;;; k" := (bind m (fun _ => k))
  (at level 100, right associativity).

(** The state a cell leaves behind, and how it ended. *)
Definition exec {A : Type} (m : M A) (st : state) : state := snd (m st).
Definition outcome {A : Type} (m : M A) (st : state) : exn + A := fst (m st).

(** *** Primitive steps *)

Definition emit (e : event) : M unit :=
  fun st => (inr tt, State (heap st) (names st) (log st ++ [e])).

(** Reading a name. *)
Definition lookup_name (x : string) : M loc :=
  fun st =>
    match names st !! x with
    | Some l => (inr l, st)
    | None => (inl (NameError x), st)
    end.

(** [x = <object at l>]: binds the name, copies nothing. *)
Definition assign (x : string) (l : loc) : M unit :=
  fun st => (inr tt, State (heap st) (<[x := l]> (names st)) (log st)).

(** A new object; its location is fresh. *)
Definition alloc (o : obj) : M loc :=
  fun st => (inr (length (heap st)), State (heap st ++ [o]) (names st) (log st)).

Definition deref (l : loc) : M obj :=
  fun st =>
    match heap st !! l with
    | Some o => (inr o, st)
    | None => (inl TypeError, st)
    end.

(** In-place update of the object at [l]. *)
Definition update (l : loc) (o : obj) : M unit :=
  fun st => (inr tt, State (<[l := o]> (heap st)) (names st) (log st)).

Definition floats_at (l : loc) : M (list V) :=
  o <- deref l ;;
  match o with OFloat xs => ret xs | _ => raise TypeError end.

Definition floats2_at (l : loc) : M (list (list V)) :=
  o <- deref l ;;
  match o with OFloat2 rows => ret rows | _ => raise TypeError end.

Definition keys_at (l : loc) : M (list float64) :=
  o <- deref l ;;
  match o with OKey ks => ret ks | _ => raise TypeError end.

Definition ints_at (l : loc) : M (list nat) :=
  o <- deref l ;;
  match o with OInt ns => ret ns | _ => raise TypeError end.

Definition bools_at (l : loc) : M (list bool) :=
  o <- deref l ;;
  match o with OBool bs => ret bs | _ => raise TypeError end.

(** *** The pandas and numpy operations of the notebook *)

(** [len(stim_table)]. *)
Definition table_len (tbl : loc) : M nat :=
  o <- deref tbl ;;
  match o with OTable _ n => ret n | _ => raise TypeError end.

(** [stim_table.<c>] and [stim_table.<c>.values]: the column's own
    buffer, not a copy. *)
Definition column (tbl : loc) (c : string) : M loc :=
  o <- deref tbl ;;
  match o with
  | OTable cols _ =>
      match cols !! c with
      | Some l => ret l
      | None => raise (AttributeError c)
      end
  | _ => raise (AttributeError c)
  end.

(** [series[i]]: lookup by row label in a RangeIndex. *)
Definition series_at (col : loc) (i : nat) : M nat :=
  ns <- ints_at col ;;
  match ns !! i with
  | Some n => ret n
  | None => raise (KeyError i)
  end.

(** The samples of [a[lo:hi]], as they are read by a reduction. *)
Definition read_slice (l : loc) (lo hi : Z) : M (list V) :=
  xs <- floats_at l ;;
  emit (ReadSlice l (slice_bound (length xs) lo) (slice_bound (length xs) hi)) ;;;
  ret (py_slice xs lo hi).

(** [.mean()] of a one-dimensional selection; numpy warns on an empty one
    and still returns a value. *)
Definition mean_of (xs : list V) : M V :=
  match xs with
  | [] => emit EmptyMean ;;; ret (arr_mean [])
  | _ :: _ => ret (arr_mean xs)
  end.

(** [a == d] on a float array. *)
Definition compare_eq (l : loc) (d : float64) : M (list bool) :=
  ks <- keys_at l ;;
  emit (Scan l) ;;;
  ret (map (fun x => f64_eq x d) ks).

(** [m1 & m2]. *)
Definition mask_and (m1 m2 : list bool) : M (list bool) :=
  if decide (length m1 = length m2)
  then ret (zip_with andb m1 m2)
  else raise ValueError.

(** [a[mask]] with the mask held by another array object. *)
Definition mask_index (l ml : loc) : M (list V) :=
  xs <- floats_at l ;;
  mask <- bools_at ml ;;
  if decide (length mask = length xs)
  then emit (Scan ml) ;;; emit (Scan l) ;;; ret (select mask xs)
  else raise (IndexError (length mask) (length xs)).

(** [a[i] = v]. *)
Definition setitem (l : loc) (i : nat) (v : V) : M unit :=
  xs <- floats_at l ;;
  if decide (i < length xs)
  then update l (OFloat (<[i := v]> xs))
  else raise (IndexError i (length xs)).

(** [a[j, i] = v]. *)
Definition setitem2 (l : loc) (j i : nat) (v : V) : M unit :=
  rows <- floats2_at l ;;
  match rows !! j with
  | None => raise (IndexError j (length rows))
  | Some row =>
      if decide (i < length row)
      then update l (OFloat2 (<[j := <[i := v]> row]> rows))
      else raise (IndexError i (length row))
  end.

Definition np_zeros (n : nat) : list V := replicate n f_zero.

Definition np_empty (n : nat) : list V := map arr_uninit (seq 0 n).

Definition np_empty2 (r c : nat) : list (list V) :=
  map (fun j => map (fun i => arr_uninit (j * c + i)) (seq 0 c)) (seq 0 r).

(** [for i, x in enumerate(xs): body]; [var] names the loop. *)
Fixpoint for_each {A : Type} (var : string) (body : nat -> A -> M unit)
    (i : nat) (xs : list A) : M unit :=
  match xs with
  | [] => ret tt
  | x :: xs' =>
      emit (Iter var i) ;;; body i x ;;; for_each var body (S i) xs'
  end.

(** *** The data the notebook loads *)

Definition stim_columns : gmap string loc :=
  <["start" := 1]> (<["end" := 2]> (<["orientation" := 3]>
    (<["temporal_frequency" := 4]> (<["blank_sweep" := 5]> ∅)))).

(** The objects behind [dff_trace] and [stim_table]: the trace, the five
    columns and the table that holds them. *)
Definition input_objects (trace : list V) (rows : list trial) : list obj :=
  [ OFloat trace;
    OInt (map start rows);
    OInt (map end_ rows);
    OKey (map orientation rows);
    OKey (map temporal_frequency rows);
    OKey (map blank_sweep rows);
    OTable stim_columns (length rows) ].

Definition names_loaded : gmap string loc :=
  <["dff_trace" := 0]> (<["stim_table" := 6]> ∅).

(** [dff_trace = dff[0,:]] and
    [stim_table = data_set.get_stimulus_table('drifting_gratings')]. *)
Definition load (trace : list V) (rows : list trial) : state :=
  State (input_objects trace rows) names_loaded [].

(** *** The cells *)

(** [dff_trace[stim_table.start[0]-30:stim_table.end[0]+30]], the
    padded window that is plotted. *)
Definition padded_window : M (list V) :=
  tr <- lookup_name "dff_trace" ;;
  tbl <- lookup_name "stim_table" ;;
  c <- column tbl "start" ;;
  s <- series_at c 0 ;;
  tbl <- lookup_name "stim_table" ;;
  c <- column tbl "end" ;;
  e <- series_at c 0 ;;
  read_slice tr (Z.of_nat s - 30) (Z.of_nat e + 30).

(** The body of the trial loop:
    [trial_response[i] = dff_trace[stim_table.start[i]:stim_table.end[i]].mean()] *)
Definition trial_response_body (i : nat) : M unit :=
  tr <- lookup_name "dff_trace" ;;
  tbl <- lookup_name "stim_table" ;;
  c <- column tbl "start" ;;
  s <- series_at c i ;;
  tbl <- lookup_name "stim_table" ;;
  c <- column tbl "end" ;;
  e <- series_at c i ;;
  xs <- read_slice tr (Z.of_nat s) (Z.of_nat e) ;;
  m <- mean_of xs ;;
  r <- lookup_name "trial_response" ;;
  setitem r i m.

(** The cell that computes [trial_response]. *)
Definition cell_trial_response : M unit :=
  tbl <- lookup_name "stim_table" ;;
  o <- column tbl "orientation" ;;
  assign "direction" o ;;;
  tbl <- lookup_name "stim_table" ;;
  t <- column tbl "temporal_frequency" ;;
  assign "temporal_frequency" t ;;;
  tbl <- lookup_name "stim_table" ;;
  n <- table_len tbl ;;
  r <- alloc (OFloat (np_zeros n)) ;;
  assign "trial_response" r ;;;
  tbl <- lookup_name "stim_table" ;;
  n <- table_len tbl ;;
  for_each "i" (fun _ i => trial_response_body i) 0 (seq 0 n).

(** [trials = direction==d; trial_response[trials].mean()] *)
Definition mean_for_direction (d : float64) : M V :=
  dr <- lookup_name "direction" ;;
  m <- compare_eq dr d ;;
  ml <- alloc (OBool m) ;;
  assign "trials" ml ;;;
  r <- lookup_name "trial_response" ;;
  ml <- lookup_name "trials" ;;
  sel <- mask_index r ml ;;
  mean_of sel.

(** The hand-computed average, for direction 270. *)
Definition cell_direction_270 : M V := mean_for_direction (f64_of_int 270).

(** [all_dir = np.unique(direction)]
    [dirvals = all_dir[np.isfinite(all_dir)]] *)
Definition cell_dirvals : M unit :=
  dr <- lookup_name "direction" ;;
  ks <- keys_at dr ;;
  emit (Scan dr) ;;;
  a <- alloc (OKey (np_unique ks)) ;;
  assign "all_dir" a ;;;
  a <- lookup_name "all_dir" ;;
  a' <- lookup_name "all_dir" ;;
  us <- keys_at a' ;;
  emit (Scan a') ;;;
  us' <- keys_at a ;;
  emit (Scan a) ;;;
  dv <- alloc (OKey (select (map f64_isfinite us) us')) ;;
  assign "dirvals" dv.

(** The body of the direction loop:
    [trials = direction==d; tuning[i] = trial_response[trials].mean()] *)
Definition tuning_body (i : nat) (d : float64) : M unit :=
  v <- mean_for_direction d ;;
  t <- lookup_name "tuning" ;;
  setitem t i v.

(** The cell that computes the direction tuning curve. *)
Definition cell_tuning : M unit :=
  t <- alloc (OFloat (np_empty 8)) ;;
  assign "tuning" t ;;;
  dv <- lookup_name "dirvals" ;;
  ds <- keys_at dv ;;
  for_each "i" tuning_body 0 ds.

(** The body of the inner loop of the two-dimensional aggregation. *)
Definition tuning_array_body (i : nat) (tf : float64) (j : nat) (d : float64)
    : M unit :=
  t <- lookup_name "temporal_frequency" ;;
  m1 <- compare_eq t tf ;;
  dr <- lookup_name "direction" ;;
  m2 <- compare_eq dr d ;;
  m <- mask_and m1 m2 ;;
  ml <- alloc (OBool m) ;;
  assign "trials" ml ;;;
  r <- lookup_name "trial_response" ;;
  ml <- lookup_name "trials" ;;
  sel <- mask_index r ml ;;
  v <- mean_of sel ;;
  a <- lookup_name "tuning_array" ;;
  setitem2 a j i v.

(** The cell that computes the two-dimensional tuning array. *)
Definition cell_tuning_array : M unit :=
  a <- alloc (OFloat2 (np_empty2 8 5)) ;;
  assign "tuning_array" a ;;;
  tv <- lookup_name "tfvals" ;;
  tfs <- keys_at tv ;;
  for_each "i"
    (fun i tf =>
       dv <- lookup_name "dirvals" ;;
       ds <- keys_at dv ;;
       for_each "j" (tuning_array_body i tf) 0 ds)
    0 tfs.

(** [tuning_array_z = (tuning_array - tuning_array.mean())/tuning_array.std()] *)
Definition zscore (rows : list (list V)) : list (list V) :=
  let m := arr_mean (concat rows) in
  let s := arr_std (concat rows) in
  map (map (fun x => f_div (f_sub x m) s)) rows.

Definition cell_tuning_array_z : M unit :=
  a <- lookup_name "tuning_array" ;;
  rows <- floats2_at a ;;
  emit (Scan a) ;;;
  z <- alloc (OFloat2 (zscore rows)) ;;
  assign "tuning_array_z" z.

(** A cell of the reader's own that binds [tfvals] to some array; the
    notebook itself has no such cell. *)
Definition define_tfvals (tfs : list float64) : M unit :=
  l <- alloc (OKey tfs) ;;
  assign "tfvals" l.

(** The value of a variable, read through the namespace. *)
Definition value_of (x : string) (st : state) : option obj :=
  l ← names st !! x; heap st !! l.

(** The states after each analysis cell, run in notebook order from the
    loaded data. *)
Definition after_trial_response (trace : list V) (rows : list trial) : state :=
  exec cell_trial_response (load trace rows).

Definition after_direction_270 (trace : list V) (rows : list trial) : state :=
  exec cell_direction_270 (after_trial_response trace rows).

Definition after_dirvals (trace : list V) (rows : list trial) : state :=
  exec cell_dirvals (after_direction_270 trace rows).

Definition after_tuning (trace : list V) (rows : list trial) : state :=
  exec cell_tuning (after_dirvals trace rows).

End Notebook.

Arguments obj : clear implicits.
Arguments state : clear implicits.
Arguments M : clear implicits.

(** ** The averaged numbers in binary64, with sums accumulated from left
    to right *)

Definition f64_add : float64 -> float64 -> float64 := SFadd prec64 emax64.
Definition f64_sub : float64 -> float64 -> float64 := SFsub prec64 emax64.
Definition f64_mul : float64 -> float64 -> float64 := SFmul prec64 emax64.
Definition f64_div : float64 -> float64 -> float64 := SFdiv prec64 emax64.
Definition f64_sqrt : float64 -> float64 := SFsqrt prec64 emax64.

Definition f64_sum (xs : list float64) : float64 :=
  fold_left f64_add xs (S754_zero false).

Definition f64_mean (xs : list float64) : float64 :=
  f64_div (f64_sum xs) (f64_of_int (Z.of_nat (length xs))).

Definition f64_std (xs : list float64) : float64 :=
  let m := f64_mean xs in
  f64_sqrt (f64_mean (map (fun x => f64_mul (f64_sub x m) (f64_sub x m)) xs)).

#[export] Instance numpy_float64 : Numpy float64 := {|
  f_zero := S754_zero false;
  f_sub := f64_sub;
  f_div := f64_div;
  arr_mean := f64_mean;
  arr_std := f64_std;
  arr_uninit := fun k => f64_of_int (- Z.of_nat k - 1)
|}.


(** ** The order of float64 values *)

(** A key whose lexicographic order is the order numpy sorts by: the
    class of the value (negative infinity, negative, zero, positive,
    positive infinity, NaN), then exponent and mantissa. *)
Definition f64_key (x : float64) : Z * Z * Z :=
  match x with
  | S754_nan => (3, 0, 0)
  | S754_infinity false => (2, 0, 0)
  | S754_infinity true => (-2, 0, 0)
  | S754_zero _ => (0, 0, 0)
  | S754_finite false m e => (1, e, Z.pos m)
  | S754_finite true m e => (-1, - e, Z.neg m)
  end%Z.

Definition key_lt (a b : Z * Z * Z) : Prop :=
  (a.1.1 < b.1.1 \/
   (a.1.1 = b.1.1 /\ (a.1.2 < b.1.2 \/ (a.1.2 = b.1.2 /\ a.2 < b.2))))%Z.

(** [x] comes strictly before [y] in sorted order. *)
Definition before (x y : float64) : Prop := key_lt (f64_key x) (f64_key y).

(** [x] does not come after [y]. *)
Definition not_after (x y : float64) : Prop := ~ before y x.

(** ** Reading the log *)

Fixpoint count (p : event -> bool) (lg : list event) : nat :=
  match lg with
  | [] => 0
  | e :: lg' => (if p e then 1 else 0) + count p lg'
  end.

Definition is_iter (var : string) (e : event) : bool :=
  match e with Iter v _ => bool_decide (v = var) | _ => false end.

Definition is_read_slice (l : nat) (e : event) : bool :=
  match e with ReadSlice l' _ _ => bool_decide (l' = l) | _ => false end.

Definition is_scan (l : nat) (e : event) : bool :=
  match e with Scan l' => bool_decide (l' = l) | _ => false end.

(** Some trial has temporal frequency [tf] and direction [d]. *)
Definition combination_occurs (rows : list trial) (tf d : float64) : bool :=
  existsb (fun r => f64_eq (temporal_frequency r) tf && f64_eq (orientation r) d)
    rows.

Definition all_combinations_occur (rows : list trial) (dv tfs : list float64)
    : bool :=
  forallb (fun d => forallb (fun tf => combination_occurs rows tf d) tfs) dv.

(** ** Closed forms of what the cells compute *)

Section Closed_forms.
Context {V : Type} `{!Numpy V}.

(** The mean of the trace over the slice of one trial. *)
Definition slice_mean (trace : list V) (r : trial) : V :=
  arr_mean (py_slice trace (Z.of_nat (start r)) (Z.of_nat (end_ r))).

Definition warn_if_empty (xs : list V) : list event :=
  match xs with [] => [EmptyMean] | _ :: _ => [] end.

(** What the body of the trial loop adds to the log. *)
Definition trial_reads (trace : list V) (r : trial) : list event :=
  ReadSlice 0 (slice_bound (length trace) (Z.of_nat (start r)))
              (slice_bound (length trace) (Z.of_nat (end_ r)))
  :: warn_if_empty (py_slice trace (Z.of_nat (start r)) (Z.of_nat (end_ r))).

(** What one pass of the trial loop adds to the log. *)
Definition trial_events (trace : list V) (i : nat) (r : trial) : list event :=
  Iter "i" i :: trial_reads trace r.

Fixpoint trial_log (trace : list V) (i : nat) (rows : list trial) : list event :=
  match rows with
  | [] => []
  | r :: rows' => trial_events trace i r ++ trial_log trace (S i) rows'
  end.

Definition names_trial_response : gmap string loc :=
  <["trial_response" := 7]>
    (<["temporal_frequency" := 4]> (<["direction" := 3]> names_loaded)).

(** [direction==d] as a mask over the trials. *)
Definition eq_mask (col : list float64) (d : float64) : list bool :=
  map (fun x => f64_eq x d) col.

(** The finite entries of [np.unique(col)]. *)
Definition finite_unique (col : list float64) : list float64 :=
  select (map f64_isfinite (np_unique col)) (np_unique col).

(** The log of [trials = direction==d; trial_response[trials].mean()]
    when the new mask is put at location [h]. *)
Definition direction_reads (ld lr h : nat) (sel : list V) : list event :=
  [Scan ld; Scan h; Scan lr] ++ warn_if_empty sel.

(** The trial responses and the direction column, as the later cells
    find them. *)
Definition responses (trace : list V) (rows : list trial) : list V :=
  map (slice_mean trace) rows.

Definition directions (rows : list trial) : list float64 := map orientation rows.

Definition frequencies (rows : list trial) : list float64 :=
  map temporal_frequency rows.

Definition names_dirvals : gmap string loc :=
  <["dirvals" := 10]> (<["all_dir" := 9]> (<["trials" := 8]> names_trial_response)).

(** The heap once [dirvals] has been computed. *)
Definition heap_dirvals (trace : list V) (rows : list trial) : list (obj V) :=
  input_objects trace rows
  ++ [ OFloat (responses trace rows);
       OBool (eq_mask (directions rows) (f64_of_int 270));
       OKey (np_unique (directions rows));
       OKey (finite_unique (directions rows)) ].

Definition log_dirvals (trace : list V) (rows : list trial) : list event :=
  trial_log trace 0 rows
  ++ direction_reads 3 7 8
       (select (eq_mask (directions rows) (f64_of_int 270)) (responses trace rows))
  ++ [Scan 3; Scan 9; Scan 9].

(** [(temporal_frequency==tf)&(direction==d)] as a mask over the trials. *)
Definition pair_mask (frq dir : list float64) (tf d : float64) : list bool :=
  zip_with andb (eq_mask frq tf) (eq_mask dir d).

(** Entry [a[j, i]] of a two-dimensional array. *)
Definition get2 (a : list (list V)) (j i : nat) : option V :=
  row ← a !! j; row !! i.

(** An array of [nr] rows of [nc] entries each. *)
Definition shape (nr nc : nat) (a : list (list V)) : Prop :=
  length a = nr /\ Forall (fun row => length row = nc) a.

(** The log of one pass of the inner loop of the two-dimensional
    aggregation, when the new mask is put at location [h]. *)
Definition pair_reads (lf ld lr h : nat) (sel : list V) : list event :=
  [Scan lf; Scan ld; Scan h; Scan lr] ++ warn_if_empty sel.

Fixpoint inner_log (frq dir : list float64) (tr : list V) (lf ld lr : nat)
    (tf : float64) (h j : nat) (ds : list float64) : list event :=
  match ds with
  | [] => []
  | d :: ds' =>
      Iter "j" j
      :: pair_reads lf ld lr h (select (pair_mask frq dir tf d) tr)
      ++ inner_log frq dir tr lf ld lr tf (S h) (S j) ds'
  end.

Fixpoint outer_log (frq dir : list float64) (tr : list V) (lf ld lr : nat)
    (ds : list float64) (h i : nat) (tfs : list float64) : list event :=
  match tfs with
  | [] => []
  | tf :: tfs' =>
      Iter "i" i
      :: inner_log frq dir tr lf ld lr tf h 0 ds
      ++ outer_log frq dir tr lf ld lr ds (h + length ds) (S i) tfs'
  end.

(** A state [st'] reached from [st] by steps that bind no name other
    than those in [bound], and write to no object of [st] other than the
    one at [lt]. *)
Record extends (bound : list string) (lt : nat) (st st' : state V) : Prop := {
  ext_names : forall x : string, x ∉ bound -> names st' !! x = names st !! x;
  ext_heap : forall l : nat,
      l < length (heap st) -> l <> lt -> heap st' !! l = heap st !! l;
  ext_length : length (heap st) <= length (heap st')
}.

(** The notebook continued by a reader who has bound [tfvals] to [tfs]
    before the two-dimensional aggregation. *)
Definition with_tfvals (trace : list V) (rows : list trial)
    (tfs : list float64) : state V :=
  exec (define_tfvals tfs) (after_tuning trace rows).

Definition after_tuning_array (trace : list V) (rows : list trial)
    (tfs : list float64) : state V :=
  exec cell_tuning_array (with_tfvals trace rows tfs).

Definition after_zscore (trace : list V) (rows : list trial)
    (tfs : list float64) : state V :=
  exec cell_tuning_array_z (after_tuning_array trace rows tfs).

(** The notebook as it stands, past the direction cell: the
    two-dimensional aggregation and the z-score run with [tfvals] unbound. *)
Definition after_tuning_array_unbound (trace : list V) (rows : list trial)
    : state V :=
  exec cell_tuning_array (after_tuning trace rows).

Definition after_zscore_unbound (trace : list V) (rows : list trial) : state V :=
  exec cell_tuning_array_z (after_tuning_array_unbound trace rows).

(** Every state the analysis goes through. *)
Definition pipeline_states (trace : list V) (rows : list trial)
    (tfs : list float64) : list (state V) :=
  [ load trace rows;
    after_trial_response trace rows;
    after_direction_270 trace rows;
    after_dirvals trace rows;
    after_tuning trace rows;
    after_tuning_array_unbound trace rows;
    after_zscore_unbound trace rows;
    with_tfvals trace rows tfs;
    after_tuning_array trace rows tfs;
    after_zscore trace rows tfs ].

(** A column of [stim_table], read through the table object. *)
Definition column_of (st : state V) (c : string) : option (obj V) :=
  match value_of "stim_table" st with
  | Some (OTable cols _) => l ← cols !! c; heap st !! l
  | _ => None
  end.

(** The trace and every column of the stimulus table hold the loaded
    data. *)
Definition inputs_intact (trace : list V) (rows : list trial) (st : state V)
    : Prop :=
  value_of "dff_trace" st = Some (OFloat trace) /\
  value_of "stim_table" st = Some (OTable stim_columns (length rows)) /\
  column_of st "start" = Some (OInt (map start rows)) /\
  column_of st "end" = Some (OInt (map end_ rows)) /\
  column_of st "orientation" = Some (OKey (map orientation rows)) /\
  column_of st "temporal_frequency" = Some (OKey (map temporal_frequency rows)) /\
  column_of st "blank_sweep" = Some (OKey (map blank_sweep rows)).

(** The two input names point where [load] put them and the first seven
    objects are the loaded ones. *)
Definition inputs_in_place (trace : list V) (rows : list trial) (st : state V)
    : Prop :=
  names st !! "dff_trace" = Some 0 /\
  names st !! "stim_table" = Some 6 /\
  forall l, l < 7 -> heap st !! l = input_objects trace rows !! l.

(** The states in which the direction tuning curve has one entry per
    value of [dirvals]. *)
Definition one_entry_per_direction (st : state V) : Prop :=
  exists (tun : list V) (dv : list float64),
    value_of "tuning" st = Some (OFloat tun) /\
    value_of "dirvals" st = Some (OKey dv) /\
    length tun = length dv.

(** What running [m] from [st] adds to the log. *)
Definition cell_log {A : Type} (m : M V A) (st : state V) : list event :=
  drop (length (log st)) (log (exec m st)).

(** How many times the body of the inner loop of the two-dimensional
    aggregation is entered. *)
Definition inner_passes (trace : list V) (rows : list trial)
    (tfs : list float64) : nat :=
  count (is_iter "j") (cell_log cell_tuning_array (with_tfvals trace rows tfs)).

(** Every entry of the 8 x 5 array is the mean of the non-empty set of
    trials of one direction value and one temporal-frequency value. *)
Definition every_entry_is_a_mean (trace : list V) (rows : list trial)
    (tfs : list float64) : Prop :=
  exists arr : list (list V),
    value_of "tuning_array" (after_tuning_array trace rows tfs)
    = Some (OFloat2 arr) /\
    forall j i, j < 8 -> i < 5 ->
      exists tf d,
        tfs !! i = Some tf /\
        finite_unique (directions rows) !! j = Some d /\
        select (pair_mask (frequencies rows) (directions rows) tf d)
          (responses trace rows) <> [] /\
        get2 arr j i
        = Some (arr_mean (select (pair_mask (frequencies rows) (directions rows) tf d)
                            (responses trace rows))).

(** What the two-dimensional aggregation reads: the three trial arrays
    and the array it fills, at four locations of which the last differs
    from the others. *)
Record aggregation_env (frq dir : list float64) (tr : list V)
    (lf ld lr la : nat) (st : state V) : Prop := {
  env_frq_name : names st !! "temporal_frequency" = Some lf;
  env_frq : heap st !! lf = Some (OKey frq);
  env_dir_name : names st !! "direction" = Some ld;
  env_dir : heap st !! ld = Some (OKey dir);
  env_tr_name : names st !! "trial_response" = Some lr;
  env_tr : heap st !! lr = Some (OFloat tr);
  env_arr_name : names st !! "tuning_array" = Some la;
  env_frq_ne : la <> lf;
  env_dir_ne : la <> ld;
  env_tr_ne : la <> lr
}.

End Closed_forms.

(** ** Small recordings *)

(** A trace of eight samples. *)
Definition short_trace : list float64 :=
  map f64_of_int [1; 3; 5; 7; 9; 11; 2; 4]%Z.

Definition grating (s e : nat) (d tf : Z) : trial :=
  Trial s e (f64_of_int d) (f64_of_int tf) (f64_of_int 0).

Definition blank (s e : nat) : trial :=
  Trial s e f64_nan f64_nan (f64_of_int 1).

(** One grating direction only. *)
Definition one_direction_rows : list trial := [grating 0 2 0 1].

(** Two directions at two temporal frequencies, every combination
    shown, and a blank sweep. *)
Definition two_by_two_rows : list trial :=
  [ grating 0 2 0 1; grating 2 4 270 2; blank 4 5;
    grating 5 6 270 1; grating 6 8 0 2 ].

(** Two directions at six temporal frequencies. *)
Definition six_frequency_rows : list trial :=
  [ grating 0 1 0 1; grating 1 2 90 2; grating 2 3 0 4;
    grating 3 4 90 8; grating 4 5 0 15; grating 5 6 90 30 ].

(** The float64 nearest to 0.1. *)
Definition tenth : float64 := f64_div (f64_of_int 1) (f64_of_int 10).

(** A state in which [tuning_array] is one row of three entries 0.1. *)
Definition tenths : list (list float64) := [[tenth; tenth; tenth]].

Definition tenths_state : state float64 :=
  State [OFloat2 tenths] (<["tuning_array" := 0]> ∅) [].

(** Ten grating directions, 270 the last, ten frames each. *)
Definition ten_direction_rows : list trial :=
  map (fun k => grating (10 * k) (10 * k + 10) (Z.of_nat k * 30) 1) (seq 0 10).

(** A trace of a hundred samples and a trial that starts late in it. *)
Definition long_trace : list float64 :=
  map (fun k => f64_of_int (Z.of_nat k)) (seq 0 100).

Definition late_rows : list trial := [grating 40 60 90 4].

(** The temporal frequencies 1 and 2. *)
Definition two_frequencies : list float64 := [f64_of_int 1; f64_of_int 2].

(** ** The set-up cell *)

(** [needle in hay] on Python strings. *)
Fixpoint contains (needle hay : string) : bool :=
  String.prefix needle hay
  || match hay with
     | EmptyString => false
     | String _ hay' => contains needle hay'
     end.

(** The chain of platform tests; no branch binds [data_root] when none
    of them holds.  [modules] is the set of keys of [sys.modules]. *)
Definition data_root (platstring : string) (modules : gset string)
    : option string :=
  if contains "Darwin" platstring || contains "macOS" platstring
  then Some "/Volumes/TReND2025/"
  else if contains "Windows" platstring
  then Some "E:/"
  else if contains "amzn" platstring || bool_decide ("google.colab" ∈ modules)
  then Some "/data/"
  else if contains "Linux" platstring
  then Some "/media/$USERNAME/TReND2025/"
  else None.

Definition starts_with_slash (s : string) : bool := String.prefix "/" s.

Fixpoint ends_with_slash (s : string) : bool :=
  match s with
  | EmptyString => false
  | String _ s' =>
      match s' with
      | EmptyString => bool_decide (s = "/")
      | String _ _ => ends_with_slash s'
      end
  end.

(** [os.path.join(a, b)] of [posixpath]. *)
Definition os_path_join (a b : string) : string :=
  if starts_with_slash b then b
  else if bool_decide (a = EmptyString) || ends_with_slash a
  then String.append a b
  else String.append a (String.append "/" b).

Definition manifest_relative : string :=
  "allen-brain-observatory/visual-coding-2p/manifest.json".

(** The lines from [platstring = platform.platform()] to
    [manifest_file = os.path.join(data_root, '...')]: reading
    [data_root] fails when no branch bound it. *)
Definition manifest_file (platstring : string) (modules : gset string)
    : exn + string :=
  match data_root platstring modules with
  | Some root => inr (os_path_join root manifest_relative)
  | None => inl (NameError "data_root")
  end.

(** How the set-up cell ends.  [E] is the type of what the Allen SDK
    raises, [Cache] the type of a [BrainObservatoryCache]. *)
Inductive setup_outcome (E Cache : Type) : Type :=
| ImportRaised (e : E)                     (* [from allensdk... import] failed *)
| DataRootUnbound                          (* NameError: [data_root] *)
| CacheRaised (path : string) (e : E)      (* [BrainObservatoryCache(...)] failed *)
| SetUp (path : string) (boc : Cache).     (* [manifest_file] and [boc] bound *)

Arguments ImportRaised {E Cache} e.
Arguments DataRootUnbound {E Cache}.
Arguments CacheRaised {E Cache} path e.
Arguments SetUp {E Cache} path boc.

(** The whole set-up cell: the imports, the platform test, the path of
    the manifest and the construction of the cache.  The import of the
    Allen SDK and the constructor [BrainObservatoryCache] are the SDK's:
    [import_allensdk] is what the import raises, if anything, and
    [new_cache] is the constructor applied to [manifest_file]. *)
Definition cell_setup {E Cache : Type} (import_allensdk : option E)
    (new_cache : string -> E + Cache) (platstring : string)
    (modules : gset string) : setup_outcome E Cache :=
  match import_allensdk with
  | Some e => ImportRaised e
  | None =>
      match manifest_file platstring modules with
      | inl _ => DataRootUnbound
      | inr path =>
          match new_cache path with
          | inl e => CacheRaised path e
          | inr boc => SetUp path boc
          end
      end
  end.

(** ** pandas operations of the cells that look at the table *)

(** [Series.unique()]: the values in order of first appearance; a value
    equal to one already seen is skipped, and so is a NaN after the first
    NaN. *)
Fixpoint unique_after (seen xs : list float64) : list float64 :=
  match xs with
  | [] => []
  | x :: xs' =>
      if existsb (fun s => same_value s x) seen then unique_after seen xs'
      else x :: unique_after (x :: seen) xs'
  end.

Definition pd_unique (xs : list float64) : list float64 := unique_after [] xs.

(** The rows of a table given by its five columns. *)
Fixpoint rows_of_columns (ss es : list nat) (os ts bs : list float64)
    : list trial :=
  match ss, es, os, ts, bs with
  | s :: ss', e :: es', o :: os', t :: ts', b :: bs' =>
      Trial s e o t b :: rows_of_columns ss' es' os' ts' bs'
  | _, _, _, _, _ => []
  end.

(** The rows with their labels in the RangeIndex. *)
Definition labelled {A : Type} (rows : list A) : list (nat * A) :=
  zip (seq 0 (length rows)) rows.

Section Inspection.
Context {V : Type} `{!Numpy V}.

Notation "x <- m ;; k" := (bind m (fun x => k))
  (at level 100, m at next level, right associativity).
Notation "m ;;; k" := (bind m (fun _ => k))
  (at level 100, right associativity).

(** [stim_table.start[0]] *)
Definition cell_first_start : M V nat :=
  tbl <- lookup_name "stim_table" ;;
  c <- column tbl "start" ;;
  series_at c 0.

(** [dff_trace[stim_table.start[0]:stim_table.end[0]].mean()] *)
Definition cell_first_trial_mean : M V V :=
  tr <- lookup_name "dff_trace" ;;
  tbl <- lookup_name "stim_table" ;;
  c <- column tbl "start" ;;
  s <- series_at c 0 ;;
  tbl <- lookup_name "stim_table" ;;
  c <- column tbl "end" ;;
  e <- series_at c 0 ;;
  xs <- read_slice tr (Z.of_nat s) (Z.of_nat e) ;;
  mean_of xs.

(** The rows of the DataFrame at [tbl], read column by column. *)
Definition table_rows (tbl : nat) : M V (list trial) :=
  c <- column tbl "start" ;;
  ss <- ints_at c ;;
  c <- column tbl "end" ;;
  es <- ints_at c ;;
  c <- column tbl "orientation" ;;
  os <- keys_at c ;;
  c <- column tbl "temporal_frequency" ;;
  ts <- keys_at c ;;
  c <- column tbl "blank_sweep" ;;
  bs <- keys_at c ;;
  ret (rows_of_columns ss es os ts bs).

(** [stim_table[stim_table.orientation==d]]: the rows where the mask
    holds, under their labels in [stim_table]. *)
Definition rows_with_orientation (d : float64) : M V (list (nat * trial)) :=
  tbl <- lookup_name "stim_table" ;;
  tbl' <- lookup_name "stim_table" ;;
  o <- column tbl' "orientation" ;;
  m <- compare_eq o d ;;
  rows <- table_rows tbl ;;
  if decide (length m = length rows)
  then ret (select m (labelled rows))
  else raise ValueError.

(** [stim_table[stim_table.orientation==90]] *)
Definition cell_rows_at_90 : M V (list (nat * trial)) :=
  rows_with_orientation (f64_of_int 90).

(** [stim_table.<c>.unique()] *)
Definition column_unique (c : string) : M V (list float64) :=
  tbl <- lookup_name "stim_table" ;;
  l <- column tbl c ;;
  ks <- keys_at l ;;
  emit (Scan l) ;;;
  ret (pd_unique ks).

Definition cell_unique_temporal_frequency : M V (list float64) :=
  column_unique "temporal_frequency".

Definition cell_unique_orientation : M V (list float64) :=
  column_unique "orientation".

(** The first dimension of an array or table. *)
Definition first_dimension (o : obj V) : nat :=
  match o with
  | OFloat xs => length xs
  | OFloat2 rows => length rows
  | OKey ks => length ks
  | OInt ns => length ns
  | OBool bs => length bs
  | OTable _ nrows => nrows
  end.

(** [plt.plot(x, y, fmt)]: matplotlib refuses [x] and [y] whose first
    dimensions differ. *)
Definition plt_plot (x y : string) : M V unit :=
  lx <- lookup_name x ;;
  ly <- lookup_name y ;;
  ox <- deref lx ;;
  oy <- deref ly ;;
  if decide (first_dimension ox = first_dimension oy)
  then ret tt
  else raise ValueError.

(** [plt.plot(direction, trial_response, 'o')] *)
Definition cell_plot_trials : M V unit := plt_plot "direction" "trial_response".

(** [plt.plot(dirvals, tuning, 'o-')] *)
Definition cell_plot_tuning : M V unit := plt_plot "dirvals" "tuning".

End Inspection.

(** Nine grating directions. *)
Definition nine_direction_rows : list trial :=
  map (fun k => grating k (S k) (Z.of_nat k * 40) 1) (seq 0 9).

(** A table that shows direction 90 twice, among other rows. *)
Definition ninety_rows : list trial :=
  [ grating 0 1 0 1; grating 1 2 90 2; blank 2 3; grating 3 4 90 1;
    grating 4 5 0 2 ].

(** * Properties *)

(** Goals about which names a step binds: a name is not in a list of
    names, or two names differ. *)
Ltac solve_names :=
  lazymatch goal with
  | |- _ ∉ _ =>
      let Hin := fresh "Hin" in
      intros Hin; apply list_elem_of_In in Hin; cbn in Hin;
      repeat (destruct Hin as [Hin|Hin]); try discriminate; try done; subst;
      match goal with
      | H : _ ∉ _ |- _ => apply H; apply list_elem_of_In; cbn; tauto
      end
  | |- _ <> _ =>
      let Heq := fresh "Heq" in
      intros Heq; subst; try discriminate;
      match goal with
      | H : _ ∉ _ |- _ => apply H; apply list_elem_of_In; cbn; tauto
      end
  end.

Lemma lookup_map {A B : Type} (f : A -> B) (l : list A) (i : nat) :
  map f l !! i = f <$> (l !! i).
Proof. apply (list_lookup_fmap f l i). Qed.

(** ** Slices *)

Lemma index_range_take_drop {A : Type} (xs : list A) (lo m : nat) :
  omap (fun k => xs !! k) (seq lo m) = take m (drop lo xs).
Proof.
  revert lo. induction m as [|m IH]; intros lo; [done|].
  cbn [seq omap list_omap]. destruct (xs !! lo) as [x|] eqn:Hlo.
  - rewrite (drop_S _ _ _ Hlo). cbn [take]. f_equal. apply IH.
  - rewrite drop_ge by (by apply lookup_ge_None). rewrite take_nil.
    rewrite IH. rewrite drop_ge; [apply take_nil|].
    apply lookup_ge_None in Hlo. lia.
Qed.

Lemma slice_bound_nat (n k : nat) : slice_bound n (Z.of_nat k) = Nat.min k n.
Proof.
  unfold slice_bound.
  destruct (Z.ltb_spec (Z.of_nat k) 0) as [Hneg|_]; [lia|].
  destruct (Z.ltb_spec (Z.of_nat k) 0) as [Hneg|_]; [lia|].
  by rewrite Nat2Z.id.
Qed.

(** A slice with non-negative bounds is the half-open index range. *)
Lemma py_slice_index_range {A : Type} (xs : list A) (lo hi : nat) :
  py_slice xs (Z.of_nat lo) (Z.of_nat hi) = index_range xs lo hi.
Proof.
  unfold py_slice, index_range. rewrite !slice_bound_nat, index_range_take_drop.
  destruct (decide (length xs <= lo)) as [Hout|Hin].
  - rewrite !drop_ge by lia. by rewrite !take_nil.
  - rewrite (Nat.min_l lo) by lia.
    destruct (decide (hi <= length xs)) as [Hhi|Hhi].
    + by rewrite Nat.min_l.
    + rewrite Nat.min_r by lia.
      rewrite !take_ge by (rewrite length_drop; lia). done.
Qed.

Lemma index_range_lookup {A : Type} (xs : list A) (lo hi k : nat) :
  hi <= length xs ->
  index_range xs lo hi !! k = if decide (lo + k < hi) then xs !! (lo + k) else None.
Proof.
  intros Hhi. unfold index_range. rewrite index_range_take_drop.
  case_decide as Hk.
  - rewrite lookup_take_lt by lia. apply lookup_drop.
  - apply lookup_ge_None. rewrite length_take. lia.
Qed.

Lemma index_range_lookup_Some {A : Type} (xs : list A) (lo hi k : nat) (x : A) :
  index_range xs lo hi !! k = Some x <-> lo + k < hi /\ xs !! (lo + k) = Some x.
Proof.
  unfold index_range. rewrite index_range_take_drop, lookup_take_Some, lookup_drop.
  split; intros [? ?]; split; (done || lia).
Qed.

Lemma index_range_length {A : Type} (xs : list A) (lo hi : nat) :
  hi <= length xs -> length (index_range xs lo hi) = hi - lo.
Proof.
  intros Hhi. unfold index_range. rewrite index_range_take_drop.
  rewrite length_take, length_drop. lia.
Qed.

(** ** float64 comparisons and [np.unique] *)

Ltac float_cases :=
  repeat match goal with
  | x : float64 |- _ => destruct x as [[]|[]| |[] ? ?]
  end.

Ltac compare_cases :=
  repeat match goal with
  | |- context [Z.compare ?a ?b] => destruct (Z.compare_spec a b)
  | |- context [Pos.compare_cont Eq ?a ?b] =>
      change (Pos.compare_cont Eq a b) with (Pos.compare a b);
      destruct (Pos.compare_spec a b)
  end.

Lemma sort_lt_key (x y : float64) : sort_lt x y = true <-> before x y.
Proof.
  unfold before, sort_lt, f64_lt, SFltb, SFcompare, key_lt.
  float_cases; cbn; compare_cases; cbn; split;
    (discriminate || lia || intuition (try discriminate; try lia; try congruence)).
Qed.

Lemma same_value_key (x y : float64) :
  same_value x y = true <-> f64_key x = f64_key y.
Proof.
  unfold same_value, f64_eq, SFeqb, SFcompare.
  float_cases; cbn; compare_cases; cbn; split; intros Hk; simplify_eq; try done; lia.
Qed.

Lemma f64_eq_key (x y : float64) :
  f64_eq x y = true <-> f64_key x = f64_key y /\ f64_isnan x = false.
Proof.
  unfold f64_eq, SFeqb, SFcompare.
  float_cases; cbn; compare_cases; cbn;
    (split; [intros Hk | intros [Hk Hn]]); simplify_eq; try done; lia.
Qed.

Lemma f64_lt_key (x y : float64) :
  f64_lt x y = true <-> before x y /\ f64_isnan y = false.
Proof.
  unfold before, f64_lt, SFltb, SFcompare, key_lt.
  float_cases; cbn; compare_cases; cbn; split;
    (discriminate || lia || intuition (try discriminate; try lia; try congruence)).
Qed.

(** NaN is equal to nothing, itself included. *)
Lemma f64_eq_nan_l (x y : float64) : f64_isnan x = true -> f64_eq x y = false.
Proof. by destruct x. Qed.

Lemma f64_eq_nan_r (x y : float64) : f64_isnan y = true -> f64_eq x y = false.
Proof. destruct y; try done. by destruct x. Qed.

Lemma f64_isfinite_key (x y : float64) :
  f64_key x = f64_key y -> f64_isfinite x = f64_isfinite y.
Proof. float_cases; cbn; intros Hk; simplify_eq; done. Qed.

Lemma f64_isfinite_not_nan (x : float64) :
  f64_isfinite x = true -> f64_isnan x = false.
Proof. by destruct x. Qed.

(** Equal values select the same trials. *)
Lemma f64_eq_congr (x d d' : float64) :
  f64_eq d d' = true -> f64_eq x d = f64_eq x d'.
Proof.
  intros [Hk Hn]%f64_eq_key. apply eq_true_iff_eq.
  rewrite !f64_eq_key, Hk. done.
Qed.

Lemma before_trans (x y z : float64) : before x y -> before y z -> before x z.
Proof. unfold before, key_lt. lia. Qed.

Lemma not_after_trans (x y z : float64) :
  not_after x y -> not_after y z -> not_after x z.
Proof. unfold not_after, before, key_lt. lia. Qed.

Lemma before_not_after (x y : float64) : before x y -> not_after x y.
Proof. unfold not_after, before, key_lt. lia. Qed.

Lemma not_after_before (x y : float64) :
  not_after x y -> f64_key x <> f64_key y -> before x y.
Proof.
  unfold not_after, before, key_lt.
  destruct (f64_key x) as [[a1 a2] a3], (f64_key y) as [[b1 b2] b3]. cbn.
  intros Hle Hne.
  destruct (decide (a1 = b1)); [|lia].
  destruct (decide (a2 = b2)); [|lia].
  destruct (decide (a3 = b3)); [|lia]. congruence.
Qed.

Lemma before_key (x x' y : float64) :
  f64_key x = f64_key x' -> before x y -> before x' y.
Proof. unfold before. by intros ->. Qed.

Lemma sort_insert_perm (x : float64) (ys : list float64) :
  sort_insert x ys ≡ₚ x :: ys.
Proof.
  induction ys as [|y ys IH]; [done|]. cbn.
  destruct (sort_lt x y); [done|]. rewrite IH. apply Permutation_swap.
Qed.

Lemma np_sort_perm (xs : list float64) : np_sort xs ≡ₚ xs.
Proof.
  induction xs as [|x xs IH]; [done|]. cbn.
  by rewrite sort_insert_perm, IH.
Qed.

Lemma sort_insert_sorted (x : float64) (ys : list float64) :
  StronglySorted not_after ys -> StronglySorted not_after (sort_insert x ys).
Proof.
  induction 1 as [|y ys Hys IH Hall]; cbn.
  - repeat constructor.
  - destruct (sort_lt x y) eqn:Hxy.
    + apply sort_lt_key in Hxy. constructor; [by constructor|].
      constructor; [by apply before_not_after|].
      eapply Forall_impl; [exact Hall|]. intros z Hz.
      eapply not_after_trans; [|exact Hz]. by apply before_not_after.
    + constructor; [done|].
      rewrite sort_insert_perm. constructor; [|done].
      intros Hb. apply sort_lt_key in Hb. congruence.
Qed.

Lemma np_sort_sorted (xs : list float64) : StronglySorted not_after (np_sort xs).
Proof.
  induction xs as [|x xs IH]; cbn; [constructor|]. by apply sort_insert_sorted.
Qed.

Lemma drop_repeats_sorted (p : float64) (xs : list float64) :
  StronglySorted not_after (p :: xs) ->
  StronglySorted before (p :: drop_repeats p xs).
Proof.
  revert p. induction xs as [|x xs IH]; intros p Hs; cbn.
  - repeat constructor.
  - apply StronglySorted_inv in Hs as [Hs Hall].
    apply Forall_cons in Hall as [Hpx Hall].
    specialize (IH x Hs). apply StronglySorted_inv in IH as [IH1 IH2].
    destruct (same_value p x) eqn:Hsame.
    + apply same_value_key in Hsame. constructor; [done|].
      eapply Forall_impl; [exact IH2|]. intros z. by apply before_key.
    + assert (Hb : before p x).
      { apply not_after_before; [done|]. intros Hk.
        apply same_value_key in Hk. congruence. }
      constructor; [by constructor|]. constructor; [done|].
      eapply Forall_impl; [exact IH2|]. intros z. by apply before_trans.
Qed.

Lemma np_unique_sorted (xs : list float64) : StronglySorted before (np_unique xs).
Proof.
  unfold np_unique. pose proof (np_sort_sorted xs) as Hs.
  destruct (np_sort xs) as [|p ys]; [constructor|]. by apply drop_repeats_sorted.
Qed.

Lemma drop_repeats_elem (p x : float64) (xs : list float64) :
  x ∈ drop_repeats p xs -> x ∈ xs.
Proof.
  revert p. induction xs as [|y ys IH]; intros p; cbn; [done|].
  destruct (same_value p y).
  - intros Hx. right. by eapply IH.
  - intros [->|Hx]%elem_of_cons; [left|right; by eapply IH].
Qed.

Lemma drop_repeats_covers (p x : float64) (xs : list float64) :
  x ∈ p :: xs -> exists u, u ∈ p :: drop_repeats p xs /\ f64_key u = f64_key x.
Proof.
  revert p. induction xs as [|y ys IH]; intros p; cbn.
  - intros Hx. by exists x.
  - intros [->|Hx]%elem_of_cons.
    + exists p. split; [left|done].
    + destruct (IH y Hx) as (u & Hu & Hk).
      destruct (same_value p y) eqn:Hsame.
      * apply same_value_key in Hsame.
        apply elem_of_cons in Hu as [->|Hu].
        -- exists p. split; [left|congruence].
        -- exists u. split; [by right|done].
      * exists u. split; [by right|done].
Qed.

Lemma np_unique_elem (x : float64) (xs : list float64) :
  x ∈ np_unique xs -> x ∈ xs.
Proof.
  unfold np_unique. pose proof (np_sort_perm xs) as Hp.
  destruct (np_sort xs) as [|p ys]; [by intros ?%elem_of_nil|].
  intros Hx. rewrite <- Hp.
  apply elem_of_cons in Hx as [->|Hx]; [left|right; by eapply drop_repeats_elem].
Qed.

Lemma np_unique_covers (x : float64) (xs : list float64) :
  x ∈ xs -> exists u, u ∈ np_unique xs /\ f64_key u = f64_key x.
Proof.
  unfold np_unique. pose proof (np_sort_perm xs) as Hp. intros Hx.
  rewrite <- Hp in Hx.
  destruct (np_sort xs) as [|p ys]; [by apply elem_of_nil in Hx|].
  by apply drop_repeats_covers.
Qed.

Lemma select_map_elem {A : Type} (f : A -> bool) (x : A) (l : list A) :
  x ∈ select (map f l) l <-> f x = true /\ x ∈ l.
Proof.
  induction l as [|y l IH]; cbn.
  - split; [by intros ?%elem_of_nil | by intros [_ ?%elem_of_nil]].
  - destruct (f y) eqn:Hy; rewrite ?elem_of_cons, IH, ?elem_of_cons.
    + split; [intros [->|[? ?]]; auto | intros [? [->|?]]; auto].
    + split; [intros [? ?]; auto | intros [Hx [->|?]]; [congruence|auto]].
Qed.

Lemma select_map_sorted {A : Type} (R : A -> A -> Prop) (f : A -> bool) (l : list A) :
  StronglySorted R l -> StronglySorted R (select (map f l) l).
Proof.
  induction 1 as [|y l Hl IH Hall]; cbn; [constructor|].
  destruct (f y); [|done]. constructor; [done|].
  apply Forall_forall. intros z [_ Hz]%select_map_elem.
  by eapply Forall_forall in Hall.
Qed.

Lemma sorted_lookup {A : Type} (R : A -> A -> Prop) (l : list A) (i j : nat) (a b : A) :
  StronglySorted R l -> l !! i = Some a -> l !! j = Some b -> i < j -> R a b.
Proof.
  intros Hs. revert i j. induction Hs as [|y l Hl IH Hall]; intros i j Hi Hj Hlt.
  - done.
  - destruct j as [|j]; [lia|]. cbn in Hj. destruct i as [|i]; cbn in Hi.
    + simplify_eq. eapply Forall_forall in Hall; [done|].
      by eapply list_elem_of_lookup_2.
    + eapply IH; [done..|lia].
Qed.

(** [dirvals]: the finite values of the column, each once, in ascending
    order. *)
Lemma finite_unique_elem (d : float64) (col : list float64) :
  d ∈ finite_unique col -> f64_isfinite d = true /\ d ∈ col.
Proof.
  unfold finite_unique. intros [Hf Hd]%select_map_elem.
  split; [done|]. by apply np_unique_elem.
Qed.

Lemma finite_unique_covers (x : float64) (col : list float64) :
  x ∈ col -> f64_isfinite x = true ->
  exists d, d ∈ finite_unique col /\ f64_eq d x = true.
Proof.
  intros Hx Hf. destruct (np_unique_covers x col Hx) as (u & Hu & Hk).
  assert (Hfu : f64_isfinite u = true) by (by rewrite (f64_isfinite_key u x)).
  exists u. split.
  - unfold finite_unique. by apply select_map_elem.
  - apply f64_eq_key. split; [done|]. by apply f64_isfinite_not_nan.
Qed.

Lemma finite_unique_ascending (col : list float64) (i j : nat) (a b : float64) :
  finite_unique col !! i = Some a -> finite_unique col !! j = Some b -> i < j ->
  f64_lt a b = true.
Proof.
  intros Hi Hj Hlt. apply f64_lt_key. split.
  - eapply (sorted_lookup before); [|exact Hi|exact Hj|exact Hlt].
    unfold finite_unique. apply select_map_sorted, np_unique_sorted.
  - apply f64_isfinite_not_nan.
    apply list_elem_of_lookup_2 in Hj. by apply finite_unique_elem in Hj as [? _].
Qed.

Section Execution.
Context {V : Type} `{!Numpy V}.
Implicit Types (st : state V) (l : nat).

(** ** Running the primitive steps *)

Lemma bind_inr {A B : Type} (m : M V A) (f : A -> M V B) st a st' :
  m st = (inr a, st') -> bind m f st = f a st'.
Proof. unfold bind. by intros ->. Qed.

Lemma bind_inl {A B : Type} (m : M V A) (f : A -> M V B) st e st' :
  m st = (inl e, st') -> bind m f st = (inl e, st').
Proof. unfold bind. by intros ->. Qed.

Lemma bind_assoc {A B C : Type} (m : M V A) (f : A -> M V B) (g : B -> M V C) st :
  bind (bind m f) g st = bind m (fun a => bind (f a) g) st.
Proof. unfold bind. destruct (m st) as [[e|a] st']; reflexivity. Qed.

Lemma run_lookup_name (x : string) l st :
  names st !! x = Some l -> lookup_name x st = (inr l, st).
Proof. unfold lookup_name. by intros ->. Qed.

Lemma run_lookup_name_None (x : string) st :
  names st !! x = None -> lookup_name x st = (inl (NameError x), st).
Proof. unfold lookup_name. by intros ->. Qed.

Lemma run_deref l o st :
  heap st !! l = Some o -> deref l st = (inr o, st).
Proof. unfold deref. by intros ->. Qed.

Lemma run_floats_at l xs st :
  heap st !! l = Some (OFloat xs) -> floats_at l st = (inr xs, st).
Proof. intros Hl. unfold floats_at. by rewrite (bind_inr _ _ _ _ _ (run_deref _ _ _ Hl)). Qed.

Lemma run_floats2_at l rows st :
  heap st !! l = Some (OFloat2 rows) -> floats2_at l st = (inr rows, st).
Proof. intros Hl. unfold floats2_at. by rewrite (bind_inr _ _ _ _ _ (run_deref _ _ _ Hl)). Qed.

Lemma run_keys_at l ks st :
  heap st !! l = Some (OKey ks) -> keys_at l st = (inr ks, st).
Proof. intros Hl. unfold keys_at. by rewrite (bind_inr _ _ _ _ _ (run_deref _ _ _ Hl)). Qed.

Lemma run_ints_at l ns st :
  heap st !! l = Some (OInt ns) -> ints_at l st = (inr ns, st).
Proof. intros Hl. unfold ints_at. by rewrite (bind_inr _ _ _ _ _ (run_deref _ _ _ Hl)). Qed.

Lemma run_bools_at l bs st :
  heap st !! l = Some (OBool bs) -> bools_at l st = (inr bs, st).
Proof. intros Hl. unfold bools_at. by rewrite (bind_inr _ _ _ _ _ (run_deref _ _ _ Hl)). Qed.

Lemma run_table_len tbl cols n st :
  heap st !! tbl = Some (OTable cols n) -> table_len tbl st = (inr n, st).
Proof. intros Hl. unfold table_len. by rewrite (bind_inr _ _ _ _ _ (run_deref _ _ _ Hl)). Qed.

Lemma run_column tbl c cols n l st :
  heap st !! tbl = Some (OTable cols n) -> cols !! c = Some l ->
  column tbl c st = (inr l, st).
Proof.
  intros Hl Hc. unfold column.
  rewrite (bind_inr _ _ _ _ _ (run_deref _ _ _ Hl)). by rewrite Hc.
Qed.

Lemma run_series_at col i ns n st :
  heap st !! col = Some (OInt ns) -> ns !! i = Some n ->
  series_at col i st = (inr n, st).
Proof.
  intros Hl Hi. unfold series_at.
  rewrite (bind_inr _ _ _ _ _ (run_ints_at _ _ _ Hl)). by rewrite Hi.
Qed.

Lemma run_read_slice l xs lo hi st :
  heap st !! l = Some (OFloat xs) ->
  read_slice l lo hi st =
  (inr (py_slice xs lo hi),
   State (heap st) (names st)
     (log st ++ [ReadSlice l (slice_bound (length xs) lo) (slice_bound (length xs) hi)])).
Proof.
  intros Hl. unfold read_slice.
  by rewrite (bind_inr _ _ _ _ _ (run_floats_at _ _ _ Hl)).
Qed.

Lemma run_mean_of (xs : list V) st :
  mean_of xs st =
  (inr (arr_mean xs), State (heap st) (names st) (log st ++ warn_if_empty xs)).
Proof.
  destruct st as [h ns lg]. destruct xs as [|x xs]; cbn.
  - reflexivity.
  - unfold ret. by rewrite app_nil_r.
Qed.

Lemma run_compare_eq l d ks st :
  heap st !! l = Some (OKey ks) ->
  compare_eq l d st =
  (inr (map (fun x => f64_eq x d) ks),
   State (heap st) (names st) (log st ++ [Scan l])).
Proof.
  intros Hl. unfold compare_eq.
  by rewrite (bind_inr _ _ _ _ _ (run_keys_at _ _ _ Hl)).
Qed.

Lemma run_mask_and (m1 m2 : list bool) st :
  length m1 = length m2 -> mask_and m1 m2 st = (inr (zip_with andb m1 m2), st).
Proof. intros Hlen. unfold mask_and. by rewrite decide_True. Qed.

Lemma run_mask_index l ml xs mask st :
  heap st !! l = Some (OFloat xs) -> heap st !! ml = Some (OBool mask) ->
  length mask = length xs ->
  mask_index l ml st =
  (inr (select mask xs),
   State (heap st) (names st) (log st ++ [Scan ml; Scan l])).
Proof.
  intros Hl Hml Hlen. unfold mask_index.
  rewrite (bind_inr _ _ _ _ _ (run_floats_at _ _ _ Hl)).
  rewrite (bind_inr _ _ _ _ _ (run_bools_at _ _ _ Hml)).
  rewrite decide_True by done. cbn. by rewrite <- app_assoc.
Qed.

Lemma run_setitem l i v xs st :
  heap st !! l = Some (OFloat xs) -> i < length xs ->
  setitem l i v st =
  (inr tt, State (<[l := OFloat (<[i := v]> xs)]> (heap st)) (names st) (log st)).
Proof.
  intros Hl Hi. unfold setitem.
  rewrite (bind_inr _ _ _ _ _ (run_floats_at _ _ _ Hl)).
  by rewrite decide_True.
Qed.

Lemma run_setitem_out l i v xs st :
  heap st !! l = Some (OFloat xs) -> length xs <= i ->
  setitem l i v st = (inl (IndexError i (length xs)), st).
Proof.
  intros Hl Hi. unfold setitem.
  rewrite (bind_inr _ _ _ _ _ (run_floats_at _ _ _ Hl)).
  rewrite decide_False by lia. done.
Qed.

Lemma run_setitem2 l j i v rows row st :
  heap st !! l = Some (OFloat2 rows) -> rows !! j = Some row -> i < length row ->
  setitem2 l j i v st =
  (inr tt,
   State (<[l := OFloat2 (<[j := <[i := v]> row]> rows)]> (heap st))
     (names st) (log st)).
Proof.
  intros Hl Hj Hi. unfold setitem2.
  rewrite (bind_inr _ _ _ _ _ (run_floats2_at _ _ _ Hl)).
  rewrite Hj. by rewrite decide_True.
Qed.

Lemma run_setitem2_row_out l j i v rows st :
  heap st !! l = Some (OFloat2 rows) -> rows !! j = None ->
  setitem2 l j i v st = (inl (IndexError j (length rows)), st).
Proof.
  intros Hl Hj. unfold setitem2.
  rewrite (bind_inr _ _ _ _ _ (run_floats2_at _ _ _ Hl)).
  by rewrite Hj.
Qed.

Lemma run_setitem2_col_out l j i v rows row st :
  heap st !! l = Some (OFloat2 rows) -> rows !! j = Some row -> length row <= i ->
  setitem2 l j i v st = (inl (IndexError i (length row)), st).
Proof.
  intros Hl Hj Hi. unfold setitem2.
  rewrite (bind_inr _ _ _ _ _ (run_floats2_at _ _ _ Hl)).
  rewrite Hj. rewrite decide_False by lia. done.
Qed.

End Execution.

(** One step of symbolic execution of [bind m f st], for the steps
    that cannot fail or whose side conditions are lookups. *)
Ltac nb_side :=
  cbn [heap names log];
  first [ reflexivity | eassumption | done ].

Ltac nb_step :=
  lazymatch goal with
  | |- bind (bind _ _) _ _ = _ => rewrite bind_assoc
  | |- bind (ret _) _ _ = _ => erewrite bind_inr by reflexivity
  | |- bind (emit _) _ _ = _ => erewrite bind_inr by reflexivity
  | |- bind (assign _ _) _ _ = _ => erewrite bind_inr by reflexivity
  | |- bind (alloc _) _ _ = _ => erewrite bind_inr by reflexivity
  | |- bind (lookup_name _) _ _ = _ =>
      erewrite bind_inr by (apply run_lookup_name; nb_side)
  | |- bind (table_len _) _ _ = _ =>
      erewrite bind_inr by (eapply run_table_len; nb_side)
  | |- bind (column _ _) _ _ = _ =>
      erewrite bind_inr by (eapply run_column; nb_side)
  | |- bind (series_at _ _) _ _ = _ =>
      erewrite bind_inr by (eapply run_series_at; nb_side)
  | |- bind (keys_at _) _ _ = _ =>
      erewrite bind_inr by (eapply run_keys_at; nb_side)
  | |- bind (floats_at _) _ _ = _ =>
      erewrite bind_inr by (eapply run_floats_at; nb_side)
  | |- bind (floats2_at _) _ _ = _ =>
      erewrite bind_inr by (eapply run_floats2_at; nb_side)
  | |- bind (read_slice _ _ _) _ _ = _ =>
      erewrite bind_inr by (eapply run_read_slice; nb_side)
  | |- bind (mean_of _) _ _ = _ =>
      erewrite bind_inr by (apply run_mean_of)
  | |- bind (compare_eq _ _) _ _ = _ =>
      erewrite bind_inr by (eapply run_compare_eq; nb_side)
  | |- bind (mask_index _ _) _ _ = _ =>
      erewrite bind_inr by (eapply run_mask_index; nb_side)
  end;
  cbn [heap names log].

Section Proofs.
Context {V : Type} `{!Numpy V}.

Lemma run_trial_response_body (trace : list V) (rows : list trial)
    (i : nat) (r : trial) (arr : list V) (lg : list event) :
  rows !! i = Some r -> i < length arr ->
  trial_response_body i
    (State (input_objects trace rows ++ [OFloat arr]) names_trial_response lg)
  = (inr tt,
     State (input_objects trace rows ++ [OFloat (<[i := slice_mean trace r]> arr)])
       names_trial_response (lg ++ trial_reads trace r)).
Proof.
  intros Hr Hi. unfold trial_response_body.
  do 3 nb_step.
  erewrite bind_inr
    by (eapply run_series_at; [nb_side | by rewrite lookup_map, Hr]).
  do 2 nb_step.
  erewrite bind_inr
    by (eapply run_series_at; [nb_side | by rewrite lookup_map, Hr]).
  do 3 nb_step.
  erewrite run_setitem; [| cbn [heap]; reflexivity | exact Hi ]. cbn [heap names log].
  unfold trial_reads, slice_mean. by rewrite <- app_assoc.
Qed.

Lemma trial_loop (trace : list V) (rows todo done : list trial) (lg : list event) :
  rows = done ++ todo ->
  for_each "i" (fun _ i => trial_response_body i) (length done)
    (seq (length done) (length todo))
    (State (input_objects trace rows
              ++ [OFloat (map (slice_mean trace) done
                          ++ replicate (length todo) f_zero)])
       names_trial_response lg)
  = (inr tt,
     State (input_objects trace rows ++ [OFloat (map (slice_mean trace) rows)])
       names_trial_response (lg ++ trial_log trace (length done) todo)).
Proof.
  revert done lg. induction todo as [|r todo IH]; intros done lg Hrows.
  - simpl. rewrite !app_nil_r. subst. by rewrite app_nil_r.
  - cbn [length seq for_each].
    nb_step.
    erewrite bind_inr; cycle 1.
    { apply (run_trial_response_body _ _ _ r).
      - subst rows. by rewrite list_lookup_middle.
      - rewrite length_app, length_map, length_replicate. lia. }
    specialize (IH (done ++ [r])
                  ((lg ++ [Iter "i" (length done)]) ++ trial_reads trace r)).
    rewrite length_app, Nat.add_1_r, map_app in IH. cbn [length map] in IH.
    rewrite <- (app_assoc (map _ done) [_]) in IH. cbn [app] in IH.
    cbn [replicate]. rewrite insert_app_r_alt by (rewrite length_map; lia).
    rewrite length_map, Nat.sub_diag. cbn [insert list_insert].
    rewrite IH by (subst rows; by rewrite <- app_assoc).
    cbn [trial_log]. unfold trial_events.
    rewrite <- !app_assoc. reflexivity.
Qed.

Lemma names_loaded_table : names_loaded !! "stim_table" = Some 6.
Proof. reflexivity. Qed.

(** The trial cell in closed form. *)
Lemma run_cell_trial_response (trace : list V) (rows : list trial) :
  cell_trial_response (load trace rows)
  = (inr tt,
     State (input_objects trace rows ++ [OFloat (map (slice_mean trace) rows)])
       names_trial_response (trial_log trace 0 rows)).
Proof.
  unfold cell_trial_response, load.
  do 10 nb_step.
  change (<["trial_response":=length (input_objects trace rows)]> _)
    with names_trial_response.
  do 2 nb_step.
  apply (trial_loop trace rows rows [] []). reflexivity.
Qed.

Lemma extends_refl (bound : list string) (lt : nat) (st : state V) :
  extends bound lt st st.
Proof. by split. Qed.

Lemma extends_trans (bound : list string) (lt : nat) (st1 st2 st3 : state V) :
  extends bound lt st1 st2 -> extends bound lt st2 st3 -> extends bound lt st1 st3.
Proof.
  intros [Hn1 Hh1 Hl1] [Hn2 Hh2 Hl2]. split.
  - intros x Hx. by rewrite Hn2, Hn1.
  - intros l Hl Hne. rewrite Hh2 by (done || lia). by apply Hh1.
  - lia.
Qed.

Lemma lookup_snoc_old {A : Type} (h : list A) (o : A) (l : nat) (a : A) :
  h !! l = Some a -> (h ++ [o]) !! l = Some a.
Proof. apply lookup_app_l_Some. Qed.

Lemma lookup_snoc_new {A : Type} (h : list A) (o : A) :
  (h ++ [o]) !! length h = Some o.
Proof. apply list_lookup_middle. reflexivity. Qed.

Lemma lookup_snoc_new_2 {A : Type} (h : list A) (o1 o2 : A) :
  ((h ++ [o1]) ++ [o2]) !! S (length h) = Some o2.
Proof. apply list_lookup_middle. rewrite length_app. cbn. lia. Qed.

(** [trials = direction==d; trial_response[trials].mean()] in any state
    where [direction] and [trial_response] are bound to arrays of one
    length. *)
Lemma run_mean_for_direction (d : float64) (st : state V) (ld lr : nat)
    (dir : list float64) (tr : list V) :
  names st !! "direction" = Some ld -> heap st !! ld = Some (OKey dir) ->
  names st !! "trial_response" = Some lr -> heap st !! lr = Some (OFloat tr) ->
  length dir = length tr ->
  mean_for_direction d st
  = (inr (arr_mean (select (eq_mask dir d) tr)),
     State (heap st ++ [OBool (eq_mask dir d)])
       (<["trials" := length (heap st)]> (names st))
       (log st ++ direction_reads ld lr (length (heap st))
                    (select (eq_mask dir d) tr))).
Proof.
  intros Hnd Hhd Hnr Hhr Hlen. unfold mean_for_direction.
  do 4 nb_step.
  erewrite bind_inr
    by (apply run_lookup_name; cbn [names]; by rewrite lookup_insert_ne).
  erewrite bind_inr
    by (apply run_lookup_name; cbn [names]; by rewrite lookup_insert_eq).
  erewrite bind_inr; cycle 1.
  { eapply run_mask_index; cbn [heap].
    - by apply lookup_snoc_old.
    - apply lookup_snoc_new.
    - unfold eq_mask. by rewrite length_map. }
  rewrite run_mean_of. cbn [heap names log].
  unfold direction_reads. by rewrite <- !app_assoc.
Qed.

Lemma after_trial_response_eq (trace : list V) (rows : list trial) :
  after_trial_response trace rows
  = State (input_objects trace rows ++ [OFloat (map (slice_mean trace) rows)])
      names_trial_response (trial_log trace 0 rows).
Proof.
  unfold after_trial_response, exec. by rewrite run_cell_trial_response.
Qed.

Lemma run_cell_direction_270 (trace : list V) (rows : list trial) :
  cell_direction_270 (after_trial_response trace rows)
  = (inr (arr_mean (select (eq_mask (directions rows) (f64_of_int 270))
                      (responses trace rows))),
     State (input_objects trace rows
            ++ [OFloat (responses trace rows);
                OBool (eq_mask (directions rows) (f64_of_int 270))])
       (<["trials" := 8]> names_trial_response)
       (trial_log trace 0 rows
        ++ direction_reads 3 7 8
             (select (eq_mask (directions rows) (f64_of_int 270))
                (responses trace rows)))).
Proof.
  rewrite after_trial_response_eq. unfold cell_direction_270.
  erewrite run_mean_for_direction; [|reflexivity..|].
  - cbn [heap names log]. by rewrite <- app_assoc.
  - unfold directions, responses. by rewrite !length_map.
Qed.

Lemma run_cell_dirvals (st : state V) (ld : nat) (dir : list float64) :
  names st !! "direction" = Some ld -> heap st !! ld = Some (OKey dir) ->
  cell_dirvals st
  = (inr tt,
     State (heap st ++ [OKey (np_unique dir); OKey (finite_unique dir)])
       (<["dirvals" := S (length (heap st))]>
          (<["all_dir" := length (heap st)]> (names st)))
       (log st ++ [Scan ld; Scan (length (heap st)); Scan (length (heap st))])).
Proof.
  intros Hn Hh. unfold cell_dirvals.
  do 5 nb_step.
  assert (Hall : (<["all_dir" := length (heap st)]> (names st)) !! "all_dir"
                 = Some (length (heap st))) by apply lookup_insert_eq.
  do 2 nb_step.
  erewrite bind_inr by (eapply run_keys_at; cbn [heap]; apply lookup_snoc_new).
  nb_step.
  erewrite bind_inr by (eapply run_keys_at; cbn [heap]; apply lookup_snoc_new).
  do 2 nb_step. unfold assign. cbn [heap names log].
  rewrite <- !app_assoc, length_app, Nat.add_1_r. reflexivity.
Qed.

Lemma after_dirvals_eq (trace : list V) (rows : list trial) :
  after_dirvals trace rows
  = State (heap_dirvals trace rows) names_dirvals (log_dirvals trace rows).
Proof.
  unfold after_dirvals, after_direction_270, exec.
  rewrite run_cell_direction_270. cbn [snd].
  erewrite run_cell_dirvals; [|reflexivity..]. cbn [snd heap names log].
  unfold heap_dirvals, log_dirvals. by rewrite <- !app_assoc.
Qed.

(** One pass of the direction loop. *)
Lemma run_tuning_body (d : float64) (k : nat) (st : state V) (ld lr lt : nat)
    (dir : list float64) (tr arr : list V) :
  names st !! "direction" = Some ld -> heap st !! ld = Some (OKey dir) ->
  names st !! "trial_response" = Some lr -> heap st !! lr = Some (OFloat tr) ->
  names st !! "tuning" = Some lt -> heap st !! lt = Some (OFloat arr) ->
  length dir = length tr ->
  tuning_body k d st
  = (if decide (k < length arr) then inr tt
     else inl (IndexError k (length arr)),
     State
       (if decide (k < length arr)
        then <[lt := OFloat (<[k := arr_mean (select (eq_mask dir d) tr)]> arr)]>
               (heap st ++ [OBool (eq_mask dir d)])
        else heap st ++ [OBool (eq_mask dir d)])
       (<["trials" := length (heap st)]> (names st))
       (log st ++ direction_reads ld lr (length (heap st))
                    (select (eq_mask dir d) tr))).
Proof.
  intros Hnd Hhd Hnr Hhr Hnt Hht Hlen. unfold tuning_body.
  erewrite bind_inr by (by eapply run_mean_for_direction).
  erewrite bind_inr
    by (apply run_lookup_name; cbn [names]; by rewrite lookup_insert_ne).
  case_decide as Hk.
  - erewrite run_setitem; [done | | done]. cbn [heap]. by apply lookup_snoc_old.
  - erewrite run_setitem_out; [done | | lia]. cbn [heap]. by apply lookup_snoc_old.
Qed.

(** The direction loop from index [k] on, whatever the number of
    directions: entries are written while the index fits the array, and
    the first index that does not fit ends the loop with an IndexError. *)
Lemma tuning_loop (dir : list float64) (tr : list V) (ld lr lt : nat)
    (ds : list float64) :
  forall (k : nat) (st : state V) (arr : list V),
  names st !! "direction" = Some ld -> heap st !! ld = Some (OKey dir) ->
  names st !! "trial_response" = Some lr -> heap st !! lr = Some (OFloat tr) ->
  names st !! "tuning" = Some lt -> heap st !! lt = Some (OFloat arr) ->
  lt <> ld -> lt <> lr -> length dir = length tr -> k <= length arr ->
  exists (st' : state V) (arr' : list V),
    for_each "i" tuning_body k ds st
    = (if decide (k + length ds <= length arr) then inr tt
       else inl (IndexError (length arr) (length arr)), st') /\
    extends ["trials"] lt st st' /\
    heap st' !! lt = Some (OFloat arr') /\
    length arr' = length arr /\
    (forall i, i < k -> arr' !! i = arr !! i) /\
    (forall i, k + length ds <= i -> arr' !! i = arr !! i) /\
    (forall i d, ds !! i = Some d -> k + i < length arr ->
       arr' !! (k + i) = Some (arr_mean (select (eq_mask dir d) tr))).
Proof.
  induction ds as [|d ds IH]; intros k st arr Hnd Hhd Hnr Hhr Hnt Hht Hld Hlr Hlen Hk.
  - exists st, arr. cbn. rewrite decide_True by lia.
    split; [done|]. split; [apply extends_refl|]. by repeat split.
  - cbn [for_each length].
    erewrite bind_inr by reflexivity.
    pose proof (run_tuning_body d k (State (heap st) (names st)
                  (log st ++ [Iter "i" k])) ld lr lt dir tr arr
                  Hnd Hhd Hnr Hhr Hnt Hht Hlen) as Hbody.
    cbn [heap names log] in Hbody.
    assert (Hlt : lt < length (heap st)) by (by eapply lookup_lt_Some).
    assert (Hext0 : forall h' lg',
      (forall l, l < length (heap st) -> l <> lt -> h' !! l = heap st !! l) ->
      length (heap st) <= length h' ->
      extends ["trials"] lt st
        (State h' (<["trials" := length (heap st)]> (names st)) lg')).
    { intros h' lg' Hh' Hl'. split; cbn [heap names]; [|done..].
      intros x Hx. apply lookup_insert_ne. solve_names. }
    destruct (decide (k < length arr)) as [Hin|Hin].
    + rewrite (bind_inr _ _ _ _ _ Hbody). clear Hbody.
      set (v := arr_mean (select (eq_mask dir d) tr)).
      set (st2 := State _ _ _).
      destruct (IH (S k) st2 (<[k := v]> arr)) as (st' & arr' & Hrun & Hext & Hh' & Hl' & Hlo & Hhi & Hmid).
      all: subst st2; cbn [heap names].
      all: try (rewrite lookup_insert_ne by done; assumption).
      all: try (rewrite list_lookup_insert_ne by done; by apply lookup_snoc_old).
      all: try done.
      { rewrite list_lookup_insert_eq; [done|]. rewrite length_app. lia. }
      { rewrite length_insert. lia. }
      exists st', arr'. rewrite length_insert in *.
      split; [|split; [|split; [|split; [|split; [|split]]]]]; try done.
      * rewrite Hrun. by replace (S k + length ds) with (k + S (length ds)) by lia.
      * eapply extends_trans; [|exact Hext]. apply Hext0.
        -- intros l Hl Hne. rewrite list_lookup_insert_ne by done.
           by apply lookup_app_l.
        -- rewrite length_insert, length_app. lia.
      * intros i Hi. rewrite Hlo by lia. apply list_lookup_insert_ne. lia.
      * intros i Hi. rewrite Hhi by lia. apply list_lookup_insert_ne. lia.
      * intros [|i] d' Hd' Hi; cbn in Hd'.
        -- inversion Hd'; subst d'. rewrite Nat.add_0_r, Hlo by lia.
           apply list_lookup_insert_eq. lia.
        -- replace (k + S i) with (S k + i) by lia. apply Hmid; [done|lia].
    + rewrite (bind_inl _ _ _ _ _ Hbody). clear Hbody.
      eexists _, arr. rewrite decide_False by lia.
      replace k with (length arr) by lia.
      split; [reflexivity|]. split; [|split; [|split; [|split; [|split]]]]; try done.
      * apply Hext0; [|rewrite length_app; lia].
        intros l Hl Hne. by apply lookup_app_l.
      * cbn [heap]. by apply lookup_snoc_old.
      * intros i d' _ Hi. lia.
Qed.

Lemma length_np_empty (n : nat) : length (np_empty (V:=V) n) = n.
Proof. unfold np_empty. by rewrite length_map, length_seq. Qed.

(** The direction cell, run once [dirvals] has been computed. *)
Lemma cell_tuning_spec (trace : list V) (rows : list trial) :
  exists tun : list V,
    outcome cell_tuning (after_dirvals trace rows)
    = (if decide (length (finite_unique (directions rows)) <= 8) then inr tt
       else inl (IndexError 8 8)) /\
    names (after_tuning trace rows) !! "tuning" = Some 11 /\
    heap (after_tuning trace rows) !! 11 = Some (OFloat tun) /\
    length tun = 8 /\
    (forall i d, finite_unique (directions rows) !! i = Some d -> i < 8 ->
       tun !! i = Some (arr_mean (select (eq_mask (directions rows) d)
                                    (responses trace rows)))) /\
    (forall i, length (finite_unique (directions rows)) <= i ->
       tun !! i = np_empty 8 !! i) /\
    (forall x : string, x ∉ ["trials"; "tuning"] ->
       names (after_tuning trace rows) !! x = names_dirvals !! x) /\
    (forall l, l < 11 ->
       heap (after_tuning trace rows) !! l = heap_dirvals trace rows !! l) /\
    11 < length (heap (after_tuning trace rows)).
Proof.
  unfold after_tuning, exec, outcome. rewrite after_dirvals_eq.
  set (st1 := State (heap_dirvals trace rows ++ [OFloat (np_empty 8)])
                (<["tuning" := 11]> names_dirvals) (log_dirvals trace rows)).
  assert (Hcell : cell_tuning
                    (State (heap_dirvals trace rows) names_dirvals
                       (log_dirvals trace rows))
                  = for_each "i" tuning_body 0
                      (finite_unique (directions rows)) st1).
  { unfold cell_tuning. do 4 nb_step. reflexivity. }
  rewrite Hcell. clear Hcell.
  destruct (tuning_loop (directions rows) (responses trace rows) 3 7 11
              (finite_unique (directions rows)) 0 st1 (np_empty 8))
    as (st' & tun & Hrun & Hext & Hh & Hlen & _ & Hhi & Hmid);
    try reflexivity; try lia.
  { unfold directions, responses. by rewrite !length_map. }
  rewrite length_np_empty in *. cbn [Nat.add] in *.
  rewrite Hrun. cbn [fst snd]. exists tun.
  destruct Hext as [Hn Hheap Hl]. cbn [heap names] in *.
  split; [done|]. split.
  { rewrite Hn by solve_names. reflexivity. }
  split; [done|]. split; [done|]. split.
  { intros i d Hd Hi. by apply Hmid. }
  split; [done|]. split.
  { intros x Hx. rewrite Hn by solve_names. apply lookup_insert_ne. solve_names. }
  split.
  { intros l Hl'. rewrite Hheap by (rewrite ?length_app; cbn; lia).
    apply lookup_app_l. cbn. lia. }
  subst st1. cbn in Hl. lia.
Qed.

(** *** The two-dimensional aggregation *)

Lemma get2_insert (a : list (list V)) (row : list V) (j i j' i' : nat) (v : V) :
  a !! j = Some row -> i < length row ->
  get2 (<[j := <[i := v]> row]> a) j' i'
  = if decide (j' = j /\ i' = i) then Some v else get2 a j' i'.
Proof.
  intros Hj Hi. unfold get2.
  assert (Hjl : j < length a) by (by eapply lookup_lt_Some).
  destruct (decide (j' = j)) as [->|Hne].
  - rewrite list_lookup_insert_eq by done. cbn. rewrite Hj. cbn.
    destruct (decide (i' = i)) as [->|Hni].
    + rewrite decide_True by done. by apply list_lookup_insert_eq.
    + rewrite decide_False by tauto. by apply list_lookup_insert_ne.
  - rewrite list_lookup_insert_ne by done. by rewrite decide_False by tauto.
Qed.

Lemma shape_insert (nr nc : nat) (a : list (list V)) (row : list V)
    (j i : nat) (v : V) :
  shape nr nc a -> a !! j = Some row -> shape nr nc (<[j := <[i := v]> row]> a).
Proof.
  intros [Hlen Hall] Hj. split; [by rewrite length_insert|].
  apply Forall_insert; [done|]. rewrite length_insert.
  by eapply Forall_lookup_1 in Hall.
Qed.

Lemma shape_lookup (nr nc : nat) (a : list (list V)) (j : nat) :
  shape nr nc a -> j < nr -> exists row, a !! j = Some row /\ length row = nc.
Proof.
  intros [Hlen Hall] Hj.
  destruct (a !! j) as [row|] eqn:Hrow.
  - exists row. split; [done|]. by eapply Forall_lookup_1 in Hall.
  - apply lookup_ge_None in Hrow. lia.
Qed.

(** The selection step of the inner loop, up to the mean. *)
Lemma run_pair_mean (tf d : float64) (st : state V) (lf ld lr : nat)
    (frq dir : list float64) (tr : list V) {B : Type} (k : V -> M V B) :
  names st !! "temporal_frequency" = Some lf -> heap st !! lf = Some (OKey frq) ->
  names st !! "direction" = Some ld -> heap st !! ld = Some (OKey dir) ->
  names st !! "trial_response" = Some lr -> heap st !! lr = Some (OFloat tr) ->
  length frq = length tr -> length dir = length tr ->
  bind (lookup_name "temporal_frequency") (fun t =>
    bind (compare_eq t tf) (fun m1 =>
    bind (lookup_name "direction") (fun dr =>
    bind (compare_eq dr d) (fun m2 =>
    bind (mask_and m1 m2) (fun m =>
    bind (alloc (OBool m)) (fun ml =>
    bind (assign "trials" ml) (fun _ =>
    bind (lookup_name "trial_response") (fun r =>
    bind (lookup_name "trials") (fun ml =>
    bind (mask_index r ml) (fun sel =>
    bind (mean_of sel) k)))))))))) st
  = k (arr_mean (select (pair_mask frq dir tf d) tr))
      (State (heap st ++ [OBool (pair_mask frq dir tf d)])
         (<["trials" := length (heap st)]> (names st))
         (log st ++ pair_reads lf ld lr (length (heap st))
                      (select (pair_mask frq dir tf d) tr))).
Proof.
  intros Hnf Hhf Hnd Hhd Hnr Hhr Hlf Hld.
  do 4 nb_step.
  erewrite bind_inr; cycle 1.
  { apply run_mask_and. unfold eq_mask. rewrite !length_map. congruence. }
  do 2 nb_step.
  erewrite bind_inr
    by (apply run_lookup_name; cbn [names]; by rewrite lookup_insert_ne).
  erewrite bind_inr
    by (apply run_lookup_name; cbn [names]; by rewrite lookup_insert_eq).
  erewrite bind_inr; cycle 1.
  { eapply run_mask_index; cbn [heap].
    - by apply lookup_snoc_old.
    - apply lookup_snoc_new.
    - rewrite length_zip_with. unfold eq_mask. rewrite !length_map. lia. }
  erewrite bind_inr by apply run_mean_of. cbn [heap names log].
  unfold pair_reads, pair_mask, eq_mask. by rewrite <- !app_assoc.
Qed.

Lemma extends_lookup (bound : list string) (lt l : nat) (st st' : state V)
    (o : obj V) :
  extends bound lt st st' -> heap st !! l = Some o -> l <> lt ->
  heap st' !! l = Some o.
Proof.
  intros [_ Hh _] Hl Hne. rewrite Hh; [done| |done]. by eapply lookup_lt_Some.
Qed.

Lemma aggregation_env_extends (frq dir : list float64) (tr : list V)
    (lf ld lr la : nat) (st st' : state V) :
  aggregation_env frq dir tr lf ld lr la st -> extends ["trials"] la st st' ->
  aggregation_env frq dir tr lf ld lr la st'.
Proof.
  intros [] Hext. pose proof (ext_names _ _ _ _ Hext) as Hn.
  split; try done.
  all: try (rewrite Hn by solve_names; done).
  all: eapply extends_lookup; eauto.
Qed.

Lemma aggregation_env_log (frq dir : list float64) (tr : list V)
    (lf ld lr la : nat) (st : state V) (lg : list event) :
  aggregation_env frq dir tr lf ld lr la st ->
  aggregation_env frq dir tr lf ld lr la (State (heap st) (names st) lg).
Proof. by intros []. Qed.

Section Aggregation.
Context (frq dir : list float64) (tr : list V) (lf ld lr la nr nc : nat).
Context (Hfrq : length frq = length tr) (Hdir : length dir = length tr).

Lemma run_tuning_array_body (i j : nat) (tf d : float64) (st : state V)
    (arr : list (list V)) (row : list V) :
  aggregation_env frq dir tr lf ld lr la st ->
  heap st !! la = Some (OFloat2 arr) ->
  arr !! j = Some row -> i < length row ->
  tuning_array_body i tf j d st
  = (inr tt,
     State
       (<[la := OFloat2 (<[j := <[i := arr_mean (select (pair_mask frq dir tf d) tr)]>
                                   row]> arr)]>
          (heap st ++ [OBool (pair_mask frq dir tf d)]))
       (<["trials" := length (heap st)]> (names st))
       (log st ++ pair_reads lf ld lr (length (heap st))
                    (select (pair_mask frq dir tf d) tr))).
Proof.
  intros [] Ha Hrow Hi. unfold tuning_array_body.
  erewrite run_pair_mean by eassumption.
  erewrite bind_inr
    by (apply run_lookup_name; cbn [names]; by rewrite lookup_insert_ne).
  erewrite run_setitem2; [done| |done..]. cbn [heap]. by apply lookup_snoc_old.
Qed.

Lemma run_tuning_array_body_out (i j : nat) (tf d : float64) (st : state V)
    (arr : list (list V)) :
  aggregation_env frq dir tr lf ld lr la st ->
  heap st !! la = Some (OFloat2 arr) ->
  (arr !! j = None \/ exists row, arr !! j = Some row /\ length row <= i) ->
  exists e : exn,
    tuning_array_body i tf j d st
    = (inl e,
       State (heap st ++ [OBool (pair_mask frq dir tf d)])
         (<["trials" := length (heap st)]> (names st))
         (log st ++ pair_reads lf ld lr (length (heap st))
                      (select (pair_mask frq dir tf d) tr))).
Proof.
  intros [] Ha Hout. unfold tuning_array_body.
  erewrite run_pair_mean by eassumption.
  erewrite bind_inr
    by (apply run_lookup_name; cbn [names]; by rewrite lookup_insert_ne).
  destruct Hout as [Hnone|(row & Hrow & Hi)].
  - eexists. erewrite run_setitem2_row_out; [done| |done].
    cbn [heap]. by apply lookup_snoc_old.
  - eexists. erewrite run_setitem2_col_out; [done| |done..].
    cbn [heap]. by apply lookup_snoc_old.
Qed.

(** The loop over the directions for one temporal frequency. *)
Lemma tuning_array_inner (i : nat) (tf : float64) (ds : list float64) :
  forall (j : nat) (st : state V) (arr : list (list V)),
  aggregation_env frq dir tr lf ld lr la st ->
  heap st !! la = Some (OFloat2 arr) -> shape nr nc arr ->
  exists (r : exn + unit) (st' : state V) (arr' : list (list V)),
    for_each "j" (tuning_array_body i tf) j ds st = (r, st') /\
    extends ["trials"] la st st' /\
    heap st' !! la = Some (OFloat2 arr') /\
    shape nr nc arr' /\
    (j + length ds <= nr -> i < nc ->
     r = inr tt /\
     length (heap st') = length (heap st) + length ds /\
     log st' = log st ++ inner_log frq dir tr lf ld lr tf (length (heap st)) j ds /\
     (forall j' d, ds !! j' = Some d ->
        get2 arr' (j + j') i
        = Some (arr_mean (select (pair_mask frq dir tf d) tr))) /\
     (forall j' i', i' <> i \/ j' < j \/ j + length ds <= j' ->
        get2 arr' j' i' = get2 arr j' i')).
Proof.
  induction ds as [|d ds IH]; intros j st arr Henv Ha Hsh.
  - exists (inr tt), st, arr. cbn.
    split; [done|]. split; [apply extends_refl|]. split; [done|]. split; [done|].
    intros _ _. rewrite Nat.add_0_r, app_nil_r. by repeat split.
  - cbn [for_each length].
    erewrite bind_inr by reflexivity.
    set (st0 := State (heap st) (names st) (log st ++ [Iter "j" j])).
    assert (Henv0 : aggregation_env frq dir tr lf ld lr la st0)
      by (by apply aggregation_env_log).
    assert (Hla : la < length (heap st)) by (by eapply lookup_lt_Some).
    assert (Hext0 : forall h' lg',
      (forall l, l < length (heap st) -> l <> la -> h' !! l = heap st !! l) ->
      length (heap st) <= length h' ->
      extends ["trials"] la st
        (State h' (<["trials" := length (heap st)]> (names st)) lg')).
    { intros h' lg' Hh' Hl'. split; cbn [heap names]; [|done..].
      intros x Hx. apply lookup_insert_ne. solve_names. }
    destruct (decide (j < nr /\ i < nc)) as [[Hj Hi]|Hout].
    + destruct (shape_lookup nr nc arr j Hsh Hj) as (row & Hrow & Hlen).
      rewrite (bind_inr _ _ _ _ _
                 (run_tuning_array_body i j tf d st0 arr row Henv0 Ha Hrow
                    ltac:(lia))).
      subst st0. cbn [heap names log].
      set (v := arr_mean (select (pair_mask frq dir tf d) tr)).
      set (st2 := State _ _ _).
      assert (Hext2 : extends ["trials"] la st st2).
      { apply Hext0.
        - intros l Hl Hne. rewrite list_lookup_insert_ne by done.
          by apply lookup_app_l.
        - rewrite length_insert, length_app. lia. }
      assert (Ha2 : heap st2 !! la
                    = Some (OFloat2 (<[j := <[i := v]> row]> arr))).
      { subst st2. cbn [heap]. apply list_lookup_insert_eq.
        rewrite length_app. lia. }
      destruct (IH (S j) st2 (<[j := <[i := v]> row]> arr))
        as (r & st' & arr' & Hrun & Hext & Ha' & Hsh' & Hfit).
      { eapply aggregation_env_extends; [exact Henv|exact Hext2]. }
      { done. }
      { by apply shape_insert. }
      exists r, st', arr'. split; [done|].
      split; [by eapply extends_trans|]. split; [done|]. split; [done|].
      intros Hfits _. destruct Hfit as (-> & Hlen' & Hlog & Hent & Hoth); [lia|done|].
      split; [done|]. split.
      { rewrite Hlen'. subst st2. cbn [heap].
        rewrite length_insert, length_app. cbn. lia. }
      split.
      { rewrite Hlog. subst st2. cbn [heap log inner_log].
        rewrite length_insert, length_app, Nat.add_1_r.
        rewrite <- !app_assoc. reflexivity. }
      split.
      * intros [|j'] d' Hd'; cbn in Hd'.
        -- simplify_eq. rewrite Nat.add_0_r, Hoth by lia.
           rewrite (get2_insert arr row) by (done || lia).
           by rewrite decide_True.
        -- replace (j + S j') with (S j + j') by lia. by apply Hent.
      * intros j' i' Hcase. rewrite Hoth by lia.
        rewrite (get2_insert arr row) by (done || lia).
        rewrite decide_False; [done|]. lia.
    + destruct (run_tuning_array_body_out i j tf d st0 arr Henv0 Ha) as [e He].
      { destruct (arr !! j) as [row|] eqn:Hrow; [|by left].
        right. exists row. split; [done|].
        destruct Hsh as [Hlen Hall]. eapply Forall_lookup_1 in Hall; [|done].
        apply lookup_lt_Some in Hrow. lia. }
      rewrite (bind_inl _ _ _ _ _ He). subst st0. cbn [heap names log].
      eexists (inl e), _, arr. split; [reflexivity|].
      split.
      { apply Hext0; [|rewrite length_app; lia].
        intros l Hl Hne. by apply lookup_app_l. }
      split; [cbn [heap]; by apply lookup_snoc_old|]. split; [done|].
      intros Hfits Hi. lia.
Qed.

(** The loop over the temporal frequencies. *)
Lemma tuning_array_outer (ds : list float64) (lv : nat) (tfs : list float64) :
  forall (i : nat) (st : state V) (arr : list (list V)),
  aggregation_env frq dir tr lf ld lr la st ->
  names st !! "dirvals" = Some lv -> heap st !! lv = Some (OKey ds) -> la <> lv ->
  heap st !! la = Some (OFloat2 arr) -> shape nr nc arr ->
  exists (r : exn + unit) (st' : state V) (arr' : list (list V)),
    for_each "i"
      (fun i tf =>
         bind (lookup_name "dirvals") (fun dv =>
         bind (keys_at dv) (fun ds => for_each "j" (tuning_array_body i tf) 0 ds)))
      i tfs st = (r, st') /\
    extends ["trials"] la st st' /\
    heap st' !! la = Some (OFloat2 arr') /\
    shape nr nc arr' /\
    (length ds <= nr -> i + length tfs <= nc ->
     r = inr tt /\
     length (heap st') = length (heap st) + length tfs * length ds /\
     log st' = log st ++ outer_log frq dir tr lf ld lr ds (length (heap st)) i tfs /\
     (forall i' tf j' d, tfs !! i' = Some tf -> ds !! j' = Some d ->
        get2 arr' j' (i + i')
        = Some (arr_mean (select (pair_mask frq dir tf d) tr))) /\
     (forall j' i', i' < i \/ i + length tfs <= i' \/ length ds <= j' ->
        get2 arr' j' i' = get2 arr j' i')).
Proof.
  induction tfs as [|tf tfs IH]; intros i st arr Henv Hnv Hhv Hlv Ha Hsh.
  - exists (inr tt), st, arr. cbn.
    split; [done|]. split; [apply extends_refl|]. split; [done|]. split; [done|].
    intros _ _. rewrite Nat.add_0_r, app_nil_r. by repeat split.
  - cbn [for_each length].
    erewrite bind_inr by reflexivity.
    set (st0 := State (heap st) (names st) (log st ++ [Iter "i" i])).
    assert (Henv0 : aggregation_env frq dir tr lf ld lr la st0)
      by (by apply aggregation_env_log).
    rewrite bind_assoc.
    erewrite bind_inr by (by apply run_lookup_name).
    rewrite bind_assoc.
    erewrite bind_inr by (by eapply run_keys_at).
    destruct (tuning_array_inner i tf ds 0 st0 arr Henv0 Ha Hsh)
      as (r1 & st1 & arr1 & Hrun1 & Hext1 & Ha1 & Hsh1 & Hfit1).
    assert (Hext01 : extends ["trials"] la st st1).
    { destruct Hext1 as [Hn Hh Hl]. by split. }
    destruct r1 as [e|[]].
    + rewrite (bind_inl _ _ _ _ _ Hrun1).
      exists (inl e), st1, arr1. split; [done|]. split; [done|].
      split; [done|]. split; [done|].
      intros Hds Hi. destruct Hfit1 as [Hr _]; [lia..|done].
    + rewrite (bind_inr _ _ _ _ _ Hrun1).
      destruct (IH (S i) st1 arr1) as (r & st' & arr' & Hrun & Hext & Ha' & Hsh' & Hfit).
      { by eapply aggregation_env_extends. }
      { rewrite (ext_names _ _ _ _ Hext01); [done|]. solve_names. }
      { by eapply extends_lookup. }
      { done. }
      { done. }
      { done. }
      exists r, st', arr'. split; [done|].
      split; [by eapply extends_trans|]. split; [done|]. split; [done|].
      intros Hds Hi.
      destruct Hfit1 as (_ & Hlen1 & Hlog1 & Hent1 & Hoth1); [lia..|].
      destruct Hfit as (-> & Hlen' & Hlog & Hent & Hoth); [lia..|].
      subst st0. cbn [heap log] in *.
      split; [done|]. split; [lia|]. split.
      { rewrite Hlog, Hlog1, Hlen1. cbn [outer_log].
        rewrite <- !app_assoc. reflexivity. }
      split.
      * intros [|i'] tf' j' d Htf Hd; cbn in Htf.
        -- simplify_eq. rewrite Nat.add_0_r, Hoth by lia.
           by apply (Hent1 j' d).
        -- replace (i + S i') with (S i + i') by lia. by eapply Hent.
      * intros j' i' Hcase. rewrite Hoth by lia. apply Hoth1.
        destruct (decide (i' = i)); [|tauto]. right. right. cbn. lia.
Qed.

End Aggregation.

Lemma exec_define_tfvals (tfs : list float64) (st : state V) :
  exec (define_tfvals tfs) st
  = State (heap st ++ [OKey tfs]) (<["tfvals" := length (heap st)]> (names st))
      (log st).
Proof. reflexivity. Qed.

Lemma shape_np_empty2 : shape 8 5 (np_empty2 (V:=V) 8 5).
Proof. split; [reflexivity|]. repeat constructor. Qed.

(** The two-dimensional aggregation, run after the direction cell in a
    namespace where [tfvals] is bound to [tfs]. *)
Lemma cell_tuning_array_spec (trace : list V) (rows : list trial)
    (tfs : list float64) :
  exists (la : nat) (arr : list (list V)),
    la = S (length (heap (after_tuning trace rows))) /\
    names (after_tuning_array trace rows tfs) !! "tuning_array" = Some la /\
    heap (after_tuning_array trace rows tfs) !! la = Some (OFloat2 arr) /\
    shape 8 5 arr /\
    (forall x : string, x ∉ ["trials"; "tfvals"; "tuning_array"] ->
       names (after_tuning_array trace rows tfs) !! x
       = names (after_tuning trace rows) !! x) /\
    (forall l, l < length (heap (after_tuning trace rows)) ->
       heap (after_tuning_array trace rows tfs) !! l
       = heap (after_tuning trace rows) !! l) /\
    (length (finite_unique (directions rows)) <= 8 -> length tfs <= 5 ->
     outcome cell_tuning_array (with_tfvals trace rows tfs) = inr tt /\
     log (after_tuning_array trace rows tfs)
     = log (after_tuning trace rows)
       ++ outer_log (frequencies rows) (directions rows) (responses trace rows)
            4 3 7 (finite_unique (directions rows)) (S la) 0 tfs /\
     (forall i tf j d, tfs !! i = Some tf ->
        finite_unique (directions rows) !! j = Some d ->
        get2 arr j i
        = Some (arr_mean (select (pair_mask (frequencies rows) (directions rows) tf d)
                            (responses trace rows)))) /\
     (forall j i, length tfs <= i \/ length (finite_unique (directions rows)) <= j ->
        get2 arr j i = get2 (np_empty2 8 5) j i)).
Proof.
  destruct (cell_tuning_spec trace rows)
    as (tun & _ & Hnt & Hht & _ & _ & _ & Hnames & Hheap & Hlen).
  unfold after_tuning_array, with_tfvals, outcome. rewrite exec_define_tfvals.
  unfold exec.
  remember (after_tuning trace rows) as st eqn:Est. clear Est.
  set (h := length (heap st)) in *.
  set (st2 := State ((heap st ++ [OKey tfs]) ++ [OFloat2 (np_empty2 8 5)])
                (<["tuning_array" := S h]> (<["tfvals" := h]> (names st)))
                (log st)).
  assert (Hcell : cell_tuning_array
                    (State (heap st ++ [OKey tfs]) (<["tfvals" := h]> (names st))
                       (log st))
                  = for_each "i"
                      (fun i tf =>
                         bind (lookup_name "dirvals") (fun dv =>
                         bind (keys_at dv) (fun ds =>
                           for_each "j" (tuning_array_body i tf) 0 ds)))
                      0 tfs st2).
  { unfold cell_tuning_array.
    do 2 nb_step.
    erewrite bind_inr
      by (apply run_lookup_name; cbn [names];
          rewrite lookup_insert_ne by done; apply lookup_insert_eq).
    erewrite bind_inr
      by (eapply run_keys_at; cbn [heap]; apply lookup_snoc_old, lookup_snoc_new).
    subst st2 h. rewrite length_app, Nat.add_1_r. reflexivity. }
  rewrite Hcell. clear Hcell.
  assert (Hold : forall l o, l < 11 -> heap_dirvals trace rows !! l = Some o ->
                 heap st2 !! l = Some o).
  { intros l o Hl Ho. subst st2. cbn [heap].
    apply lookup_snoc_old, lookup_snoc_old. by rewrite Hheap. }
  assert (Hname : forall (x : string) l, x ∉ ["trials"; "tuning"] ->
                  x <> "tuning_array" -> x <> "tfvals" ->
                  names_dirvals !! x = Some l -> names st2 !! x = Some l).
  { intros x l Hx Hx1 Hx2 Hl. subst st2. cbn [names].
    rewrite !lookup_insert_ne by done. by rewrite Hnames. }
  assert (Hh2 : length (heap st2) = S (S h)).
  { subst st2. cbn [heap]. rewrite !length_app. cbn. lia. }
  destruct (tuning_array_outer (frequencies rows) (directions rows)
              (responses trace rows) 4 3 7 (S h) 8 5
              ltac:(unfold frequencies, responses; by rewrite !length_map)
              ltac:(unfold directions, responses; by rewrite !length_map)
              (finite_unique (directions rows)) 10 tfs 0 st2 (np_empty2 8 5))
    as (r & st' & arr & Hrun & Hext & Ha & Hsh & Hfit).
  { split; try lia.
    - apply Hname; [solve_names|done..].
    - apply Hold; [lia|reflexivity].
    - apply Hname; [solve_names|done..].
    - apply Hold; [lia|reflexivity].
    - apply Hname; [solve_names|done..].
    - apply Hold; [lia|reflexivity].
    - subst st2. cbn [names]. apply lookup_insert_eq. }
  { apply Hname; [solve_names|done..]. }
  { apply Hold; [lia|reflexivity]. }
  { lia. }
  { subst st2. cbn [heap]. apply lookup_snoc_new_2. }
  { apply shape_np_empty2. }
  rewrite Hrun. cbn [fst snd]. exists (S h), arr.
  destruct Hext as [Hn Hh Hl].
  split; [done|]. split.
  { rewrite Hn by solve_names. subst st2. cbn [names]. apply lookup_insert_eq. }
  split; [done|]. split; [done|]. split.
  { intros x Hx. rewrite Hn by solve_names. subst st2. cbn [names].
    rewrite !lookup_insert_ne by solve_names. done. }
  split.
  { intros l Hl'. rewrite Hh by lia. subst st2. cbn [heap].
    rewrite <- app_assoc. by apply lookup_app_l. }
  intros Hds Htf. destruct Hfit as (-> & _ & Hlog & Hent & Hoth); [lia..|].
  split; [done|]. split.
  { rewrite Hlog, Hh2. reflexivity. }
  split.
  { intros i tf j d Htfi Hdj. by apply (Hent i tf j d). }
  intros j i Hcase. apply Hoth. lia.
Qed.

(** C1: for every trial [i], [trial_response[i]] is the mean of the
    DF/F trace over the samples whose index lies in the half-open range
    from [start[i]] (included) to [end[i]] (excluded), and the loop ends
    normally with all [len(stim_table)] entries filled. *)
Theorem C1_trial_response_is_range_mean (trace : list V) (rows : list trial) :
  outcome cell_trial_response (load trace rows) = inr tt /\
  exists resp : list V,
    value_of "trial_response" (after_trial_response trace rows)
      = Some (OFloat resp) /\
    length resp = length rows /\
    forall (i : nat) (r : trial), rows !! i = Some r ->
      resp !! i = Some (arr_mean (index_range trace (start r) (end_ r))) /\
      (forall (k : nat) (x : V),
         index_range trace (start r) (end_ r) !! k = Some x <->
         start r + k < end_ r /\ trace !! (start r + k) = Some x).
Proof.
  split.
  - unfold outcome. by rewrite run_cell_trial_response.
  - exists (map (slice_mean trace) rows). rewrite after_trial_response_eq.
    split; [reflexivity|]. split; [apply length_map|].
    intros i r Hr. split.
    + rewrite lookup_map, Hr. cbn. unfold slice_mean.
      by rewrite py_slice_index_range.
    + intros k x. apply index_range_lookup_Some.
Qed.

End Proofs.

(** * The claims *)

Section Claims.
Context {V : Type} `{!Numpy V}.

Lemma value_of_intro (st : state V) (x : string) (l : nat) (o : obj V) :
  names st !! x = Some l -> heap st !! l = Some o -> value_of x st = Some o.
Proof. unfold value_of. intros Hn Hh. rewrite Hn. exact Hh. Qed.

Lemma after_tuning_dirvals (trace : list V) (rows : list trial) :
  value_of "dirvals" (after_tuning trace rows)
  = Some (OKey (finite_unique (directions rows))).
Proof.
  destruct (cell_tuning_spec trace rows)
    as (tun & _ & _ & _ & _ & _ & _ & Hnames & Hheap & _).
  eapply (value_of_intro _ _ 10).
  - rewrite Hnames; [reflexivity|]. solve_names.
  - rewrite Hheap by lia. reflexivity.
Qed.

Lemma after_tuning_tfvals (trace : list V) (rows : list trial) :
  names (after_tuning trace rows) !! "tfvals" = None.
Proof.
  destruct (cell_tuning_spec trace rows)
    as (tun & _ & _ & _ & _ & _ & _ & Hnames & _ & _).
  rewrite Hnames; [reflexivity|]. solve_names.
Qed.

(** With [tfvals] unbound the two-dimensional aggregation allocates its
    array and stops at the first line of the loop. *)
Lemma run_cell_tuning_array_unbound (st : state V) :
  names st !! "tfvals" = None ->
  cell_tuning_array st
  = (inl (NameError "tfvals"),
     State (heap st ++ [OFloat2 (np_empty2 8 5)])
       (<["tuning_array" := length (heap st)]> (names st)) (log st)).
Proof.
  intros Hnone. unfold cell_tuning_array.
  do 2 nb_step.
  erewrite bind_inl; [reflexivity|].
  apply run_lookup_name_None. cbn [names]. by rewrite lookup_insert_ne.
Qed.

(** C2: run in notebook order, the two-dimensional aggregation stops
    with [NameError: name 'tfvals' is not defined] for every trace and
    every stimulus table: no earlier cell binds [tfvals], and the cell
    leaves [tuning_array] as the 8 x 5 array [np.empty] returned, none of
    its entries assigned. *)
Theorem C2_tfvals_is_not_defined (trace : list V) (rows : list trial) :
  names (after_tuning trace rows) !! "tfvals" = None /\
  outcome cell_tuning_array (after_tuning trace rows)
  = inl (NameError "tfvals") /\
  value_of "tuning_array" (exec cell_tuning_array (after_tuning trace rows))
  = Some (OFloat2 (np_empty2 8 5)).
Proof.
  pose proof (after_tuning_tfvals trace rows) as Hnone.
  split; [done|].
  unfold outcome, exec. rewrite (run_cell_tuning_array_unbound _ Hnone).
  split; [done|]. cbn [snd].
  eapply value_of_intro; cbn [names heap].
  - apply lookup_insert_eq.
  - apply lookup_snoc_new.
Qed.

(** C3, as amended: the direction tuning curve always has 8 entries;
    at every index [i < 8] where [dirvals] has a value, [tuning[i]] is the
    mean of [trial_response] over the trials whose direction equals
    [dirvals[i]], whatever their temporal frequency; the entries past the
    last direction value keep what [np.empty] returned; and the curve has
    one entry per direction value when there are exactly 8 of them. *)
Theorem C3_tuning_has_eight_entries (trace : list V) (rows : list trial) :
  exists (tun : list V) (dv : list float64),
    value_of "tuning" (after_tuning trace rows) = Some (OFloat tun) /\
    value_of "dirvals" (after_tuning trace rows) = Some (OKey dv) /\
    length tun = 8 /\
    (forall i d, dv !! i = Some d -> i < 8 ->
       tun !! i = Some (arr_mean (select (eq_mask (directions rows) d)
                                    (responses trace rows))) /\
       (forall k r, rows !! k = Some r ->
          eq_mask (directions rows) d !! k = Some (f64_eq (orientation r) d))) /\
    (forall i, length dv <= i -> tun !! i = np_empty 8 !! i) /\
    (length dv = 8 -> length tun = length dv).
Proof.
  destruct (cell_tuning_spec trace rows)
    as (tun & _ & Hnt & Hht & Hlen & Hent & Hrest & _).
  exists tun, (finite_unique (directions rows)).
  split; [by eapply value_of_intro|]. split; [apply after_tuning_dirvals|].
  split; [done|]. split; [|split; [done|congruence]].
  intros i d Hd Hi. split; [by apply Hent|].
  intros k r Hr. unfold eq_mask, directions. by rewrite !lookup_map, Hr.
Qed.

(** C5, as amended: for every value [d] that [dirvals] holds at an index
    [i < 8], the hand computation [trial_response[direction==d].mean()]
    and the entry [tuning[i]] are the same number, the mean of the entries
    of [trial_response] at the trials whose direction equals [d]; for the
    value equal to 270 the hand computation is the cell of the notebook.
    This covers every value of [dirvals] when there are at most 8 of
    them; [tuning] has 8 entries and none for a value at index 8 or
    later. *)
Theorem C5_hand_computed_equals_tuning (trace : list V) (rows : list trial) :
  exists (tun : list V) (dv : list float64),
    value_of "tuning" (after_tuning trace rows) = Some (OFloat tun) /\
    value_of "dirvals" (after_tuning trace rows) = Some (OKey dv) /\
    value_of "trial_response" (after_trial_response trace rows)
    = Some (OFloat (responses trace rows)) /\
    length tun = 8 /\
    (forall i d, dv !! i = Some d -> i < 8 ->
       outcome (mean_for_direction d) (after_trial_response trace rows)
       = inr (arr_mean (select (eq_mask (directions rows) d)
                          (responses trace rows))) /\
       tun !! i = Some (arr_mean (select (eq_mask (directions rows) d)
                                    (responses trace rows))) /\
       (forall k r, rows !! k = Some r ->
          eq_mask (directions rows) d !! k = Some (f64_eq (orientation r) d))) /\
    (forall i d, dv !! i = Some d -> i < 8 ->
       f64_eq d (f64_of_int 270) = true ->
       exists v : V,
         outcome cell_direction_270 (after_trial_response trace rows) = inr v /\
         tun !! i = Some v) /\
    (length dv <= 8 ->
     forall i d, dv !! i = Some d ->
       exists v : V,
         outcome (mean_for_direction d) (after_trial_response trace rows)
         = inr v /\
         tun !! i = Some v) /\
    (forall i, 8 <= i -> tun !! i = None).
Proof.
  destruct (cell_tuning_spec trace rows)
    as (tun & _ & Hnt & Hht & Hlen & Hent & _).
  exists tun, (finite_unique (directions rows)).
  split; [by eapply value_of_intro|]. split; [apply after_tuning_dirvals|].
  split; [by rewrite after_trial_response_eq|]. split; [done|].
  assert (Hhand : forall d,
    outcome (mean_for_direction d) (after_trial_response trace rows)
    = inr (arr_mean (select (eq_mask (directions rows) d) (responses trace rows)))).
  { intros d. unfold outcome. rewrite after_trial_response_eq.
    erewrite run_mean_for_direction; [done|reflexivity..|].
    unfold directions, responses. by rewrite !length_map. }
  split; [|split; [|split]].
  - intros i d Hd Hi. split; [apply Hhand|]. split; [by apply Hent|].
    intros k r Hr. unfold eq_mask, directions. by rewrite !lookup_map, Hr.
  - intros i d Hd Hi H270. eexists. split; [apply Hhand|].
    rewrite (Hent i d Hd Hi). do 2 f_equal.
    replace (eq_mask (directions rows) (f64_of_int 270))
      with (eq_mask (directions rows) d); [done|].
    unfold eq_mask. apply map_ext. intros x. by apply f64_eq_congr.
  - intros Hfew i d Hd. eexists. split; [apply Hhand|].
    apply Hent; [done|]. apply lookup_lt_Some in Hd. lia.
  - intros i Hi. apply lookup_ge_None. lia.
Qed.

Lemma inputs_intact_intro (trace : list V) (rows : list trial) (st : state V) :
  inputs_in_place trace rows st -> inputs_intact trace rows st.
Proof.
  intros (Hd & Ht & Hh).
  assert (Htbl : value_of "stim_table" st
                 = Some (OTable stim_columns (length rows))).
  { eapply value_of_intro; [done|]. by rewrite Hh by lia. }
  unfold inputs_intact, column_of. rewrite Htbl.
  split; [eapply value_of_intro; [done|]; by rewrite Hh by lia|].
  split; [done|].
  repeat split.
  - change (stim_columns !! "start") with (Some 1). cbn. by rewrite Hh by lia.
  - change (stim_columns !! "end") with (Some 2). cbn. by rewrite Hh by lia.
  - change (stim_columns !! "orientation") with (Some 3). cbn. by rewrite Hh by lia.
  - change (stim_columns !! "temporal_frequency") with (Some 4). cbn.
    by rewrite Hh by lia.
  - change (stim_columns !! "blank_sweep") with (Some 5). cbn. by rewrite Hh by lia.
Qed.

(** The z-score cell binds one name and allocates one object; it writes
    to nothing that exists, however it ends. *)
Lemma cell_tuning_array_z_frame (st : state V) :
  (forall x : string, x <> "tuning_array_z" ->
     names (exec cell_tuning_array_z st) !! x = names st !! x) /\
  (forall l, l < length (heap st) ->
     heap (exec cell_tuning_array_z st) !! l = heap st !! l).
Proof.
  unfold exec, cell_tuning_array_z, bind, lookup_name, floats2_at, deref, bind.
  destruct (names st !! "tuning_array") as [la|]; cbn; [|done].
  destruct (heap st !! la) as [[]|]; cbn; try done.
  split.
  - intros x Hx. by apply lookup_insert_ne.
  - intros l Hl. by apply lookup_app_l.
Qed.

Lemma in_place_zscore (trace : list V) (rows : list trial) (st : state V) :
  7 <= length (heap st) ->
  inputs_in_place trace rows st ->
  inputs_in_place trace rows (exec cell_tuning_array_z st).
Proof.
  intros Hlen (Hd & Ht & Hh).
  destruct (cell_tuning_array_z_frame st) as [Hn Hl].
  split; [by rewrite Hn|]. split; [by rewrite Hn|].
  intros l Hl7. rewrite Hl by lia. by apply Hh.
Qed.

Lemma in_place_after_tuning (trace : list V) (rows : list trial) :
  inputs_in_place trace rows (after_tuning trace rows).
Proof.
  destruct (cell_tuning_spec trace rows)
    as (tun & _ & _ & _ & _ & _ & _ & Hnames & Hheap & _).
  split; [rewrite Hnames; [reflexivity|solve_names]|].
  split; [rewrite Hnames; [reflexivity|solve_names]|].
  intros l Hl. rewrite Hheap by lia.
  unfold heap_dirvals. apply lookup_app_l. cbn. lia.
Qed.

Lemma in_place_after_tuning_array_unbound (trace : list V) (rows : list trial) :
  inputs_in_place trace rows (after_tuning_array_unbound trace rows) /\
  7 <= length (heap (after_tuning_array_unbound trace rows)).
Proof.
  destruct (in_place_after_tuning trace rows) as (Hd & Ht & Hh).
  destruct (cell_tuning_spec trace rows)
    as (tun & _ & _ & _ & _ & _ & _ & _ & _ & Hlen).
  unfold after_tuning_array_unbound, exec.
  rewrite (run_cell_tuning_array_unbound _ (after_tuning_tfvals trace rows)).
  unfold inputs_in_place. cbn [snd names heap]. split; [split; [|split]|].
  - by rewrite lookup_insert_ne.
  - by rewrite lookup_insert_ne.
  - intros l Hl. rewrite lookup_app_l by lia. by apply Hh.
  - rewrite length_app. lia.
Qed.

Lemma in_place_after_tuning_array (trace : list V) (rows : list trial)
    (tfs : list float64) :
  inputs_in_place trace rows (after_tuning_array trace rows tfs) /\
  7 <= length (heap (after_tuning_array trace rows tfs)).
Proof.
  destruct (in_place_after_tuning trace rows) as (Hd & Ht & Hh).
  destruct (cell_tuning_spec trace rows)
    as (tun & _ & _ & _ & _ & _ & _ & _ & _ & Hlen).
  destruct (cell_tuning_array_spec trace rows tfs)
    as (la & arr & Hla & _ & Harr & _ & Hnames & Hheap & _).
  split; [split; [|split]|].
  - rewrite Hnames; [done|solve_names].
  - rewrite Hnames; [done|solve_names].
  - intros l Hl. rewrite Hheap by lia. by apply Hh.
  - apply lookup_lt_Some in Harr. lia.
Qed.

(** C6: the trace and every column of the stimulus table (start, end,
    orientation, temporal_frequency, blank_sweep) hold the loaded data in
    every state the analysis goes through: after [trial_response], the
    hand-computed average, [dirvals], the direction tuning curve, the
    two-dimensional tuning array and the z-scored array, with [tfvals]
    unbound as in the notebook or bound to any array. *)
Theorem C6_inputs_are_left_unchanged (trace : list V) (rows : list trial)
    (tfs : list float64) :
  Forall (inputs_intact trace rows) (pipeline_states trace rows tfs).
Proof.
  unfold pipeline_states.
  repeat apply Forall_cons_2; [..|apply Forall_nil_2];
    apply inputs_intact_intro.
  - by repeat split.
  - rewrite after_trial_response_eq. repeat split; try done.
    intros l Hl. cbn [heap]. apply lookup_app_l. cbn. lia.
  - unfold after_direction_270, exec. rewrite run_cell_direction_270.
    repeat split; try done.
    intros l Hl. cbn [snd heap]. apply lookup_app_l. cbn. lia.
  - rewrite after_dirvals_eq. repeat split; try done.
    intros l Hl. cbn [heap]. unfold heap_dirvals. apply lookup_app_l. cbn. lia.
  - apply in_place_after_tuning.
  - apply in_place_after_tuning_array_unbound.
  - apply in_place_zscore; apply in_place_after_tuning_array_unbound.
  - destruct (in_place_after_tuning trace rows) as (Hd & Ht & Hh).
    destruct (cell_tuning_spec trace rows)
      as (tun & _ & _ & _ & _ & _ & _ & _ & _ & Hlen).
    unfold inputs_in_place, with_tfvals. rewrite exec_define_tfvals.
    split; [|split]; cbn [names heap].
    + by rewrite lookup_insert_ne.
    + by rewrite lookup_insert_ne.
    + intros l Hl. rewrite lookup_app_l by lia. by apply Hh.
  - apply in_place_after_tuning_array.
  - apply in_place_zscore; apply in_place_after_tuning_array.
Qed.

Lemma run_padded_window (trace : list V) (rows : list trial) (r : trial) :
  rows !! 0 = Some r ->
  padded_window (load trace rows)
  = (inr (py_slice trace (Z.of_nat (start r) - 30) (Z.of_nat (end_ r) + 30)),
     State (input_objects trace rows) names_loaded
       [ReadSlice 0
          (slice_bound (length trace) (Z.of_nat (start r) - 30))
          (slice_bound (length trace) (Z.of_nat (end_ r) + 30))]).
Proof.
  intros Hr. unfold padded_window, load.
  do 3 nb_step.
  erewrite bind_inr
    by (eapply run_series_at; [nb_side | by rewrite lookup_map, Hr]).
  do 2 nb_step.
  erewrite bind_inr
    by (eapply run_series_at; [nb_side | by rewrite lookup_map, Hr]).
  erewrite run_read_slice by reflexivity. reflexivity.
Qed.

Lemma window_Some {A : Type} (xs : list A) (lo hi : Z) (ys : list A) :
  window xs lo hi = Some ys ->
  (0 <= lo)%Z /\ (hi <= Z.of_nat (length xs))%Z.
Proof. unfold window. case_decide; [done|discriminate]. Qed.

(** C10: on a table with a first trial, the padded window
    [dff_trace[start[0]-30:end[0]+30]] never raises; it is the window from
    30 frames before the start to 30 frames after the end exactly when
    [start[0] >= 30] and [end[0]+30 <= len(dff_trace)]; and when
    [start[0] < 30] the lower bound is negative and is counted from the
    end of the trace: the slice starts at index
    [len(dff_trace) - (30 - start[0])], or at 0 when the trace is shorter
    than that. *)
Theorem C10_padded_window (trace : list V) (rows : list trial) (r : trial) :
  rows !! 0 = Some r ->
  outcome padded_window (load trace rows)
  = inr (py_slice trace (Z.of_nat (start r) - 30) (Z.of_nat (end_ r) + 30)) /\
  (window trace (Z.of_nat (start r) - 30) (Z.of_nat (end_ r) + 30)
   = Some (py_slice trace (Z.of_nat (start r) - 30) (Z.of_nat (end_ r) + 30))
   <-> 30 <= start r /\ end_ r + 30 <= length trace) /\
  (start r < 30 ->
   (Z.of_nat (start r) - 30 < 0)%Z /\
   py_slice trace (Z.of_nat (start r) - 30) (Z.of_nat (end_ r) + 30)
   = index_range trace (length trace - (30 - start r)) (end_ r + 30)).
Proof.
  intros Hr. split; [|split].
  - unfold outcome. by rewrite (run_padded_window trace rows r Hr).
  - split.
    + intros Hw. apply window_Some in Hw. lia.
    + intros [Hs He]. unfold window. rewrite decide_True by lia. f_equal.
      replace (Z.of_nat (start r) - 30)%Z with (Z.of_nat (start r - 30)) by lia.
      replace (Z.of_nat (end_ r) + 30)%Z with (Z.of_nat (end_ r + 30)) by lia.
      rewrite !Nat2Z.id. symmetry. apply py_slice_index_range.
  - intros Hs. split; [lia|].
    rewrite <- py_slice_index_range. unfold py_slice. f_equal; [f_equal|f_equal].
    all: try (replace (Z.of_nat (end_ r) + 30)%Z with (Z.of_nat (end_ r + 30)) by lia;
              reflexivity).
    all: rewrite slice_bound_nat; unfold slice_bound;
      destruct (Z.ltb_spec (Z.of_nat (start r) - 30) 0) as [_|?]; [|lia];
      destruct (Z.ltb_spec (Z.of_nat (start r) - 30 + Z.of_nat (length trace)) 0);
      lia.
Qed.

(** ** Counting in the log *)

Lemma count_app (p : event -> bool) (l1 l2 : list event) :
  count p (l1 ++ l2) = count p l1 + count p l2.
Proof. induction l1 as [|e l1 IH]; cbn; [done|]. rewrite IH. lia. Qed.

Lemma count_warn (p : event -> bool) (xs : list V) :
  p EmptyMean = false -> count p (warn_if_empty xs) = 0.
Proof. intros Hp. destruct xs; cbn; [by rewrite Hp|done]. Qed.

Lemma is_iter_same (var : string) (i : nat) : is_iter var (Iter var i) = true.
Proof. cbn. by apply bool_decide_eq_true_2. Qed.

Lemma is_iter_other (var var' : string) (i : nat) :
  var' <> var -> is_iter var (Iter var' i) = false.
Proof. intros Hne. cbn. by apply bool_decide_eq_false_2. Qed.

Lemma is_scan_same (l : nat) : is_scan l (Scan l) = true.
Proof. cbn. by apply bool_decide_eq_true_2. Qed.

Lemma is_scan_other (l l' : nat) : l' <> l -> is_scan l (Scan l') = false.
Proof. intros Hne. cbn. by apply bool_decide_eq_false_2. Qed.

Lemma count_trial_log_iter (trace : list V) (rows : list trial) (i : nat) :
  count (is_iter "i") (trial_log trace i rows) = length rows.
Proof.
  revert i. induction rows as [|r rows IH]; intros i; [done|].
  cbn [trial_log trial_events trial_reads length app count].
  rewrite count_app, IH, count_warn, is_iter_same by done. cbn. lia.
Qed.

Lemma count_trial_log_read (trace : list V) (rows : list trial) (i : nat) :
  count (is_read_slice 0) (trial_log trace i rows) = length rows.
Proof.
  revert i. induction rows as [|r rows IH]; intros i; [done|].
  cbn [trial_log trial_events trial_reads length app count].
  rewrite count_app, IH, count_warn by done. cbn.
  rewrite bool_decide_eq_true_2 by done. lia.
Qed.

Lemma count_inner_log_iter (frq dir : list float64) (tr : list V)
    (lf ld lr : nat) (tf : float64) (ds : list float64) (h j : nat) :
  count (is_iter "j") (inner_log frq dir tr lf ld lr tf h j ds) = length ds /\
  count (is_iter "i") (inner_log frq dir tr lf ld lr tf h j ds) = 0.
Proof.
  revert h j. induction ds as [|d ds IH]; intros h j; [done|].
  cbn [inner_log length]. unfold pair_reads. cbn [app count].
  rewrite !count_app. destruct (IH (S h) (S j)) as [-> ->].
  rewrite !count_warn, is_iter_same, is_iter_other by done. cbn. lia.
Qed.

(** The inner loop scans each of the three trial arrays once per pass;
    the masks it makes live at the new locations [h], [h+1], ... *)
Lemma count_inner_log_scan (frq dir : list float64) (tr : list V)
    (tf : float64) (ds : list float64) (h j : nat) :
  7 < h ->
  count (is_scan 4) (inner_log frq dir tr 4 3 7 tf h j ds) = length ds /\
  count (is_scan 3) (inner_log frq dir tr 4 3 7 tf h j ds) = length ds /\
  count (is_scan 7) (inner_log frq dir tr 4 3 7 tf h j ds) = length ds.
Proof.
  revert h j. induction ds as [|d ds IH]; intros h j Hh; [done|].
  cbn [inner_log length]. unfold pair_reads. cbn [app count].
  rewrite !count_app. destruct (IH (S h) (S j)) as (-> & -> & ->); [lia|].
  rewrite !count_warn, !is_scan_same by done.
  rewrite !is_scan_other by lia. cbn. lia.
Qed.

Lemma count_outer_log (frq dir : list float64) (tr : list V)
    (ds tfs : list float64) (h i : nat) :
  7 < h ->
  count (is_iter "i") (outer_log frq dir tr 4 3 7 ds h i tfs) = length tfs /\
  count (is_iter "j") (outer_log frq dir tr 4 3 7 ds h i tfs)
  = length tfs * length ds /\
  count (is_scan 4) (outer_log frq dir tr 4 3 7 ds h i tfs)
  = length tfs * length ds /\
  count (is_scan 3) (outer_log frq dir tr 4 3 7 ds h i tfs)
  = length tfs * length ds /\
  count (is_scan 7) (outer_log frq dir tr 4 3 7 ds h i tfs)
  = length tfs * length ds.
Proof.
  revert h i. induction tfs as [|tf tfs IH]; intros h i Hh; [done|].
  cbn [outer_log length count].
  rewrite !count_app.
  destruct (IH (h + length ds) (S i)) as (-> & -> & -> & -> & ->); [lia|].
  destruct (count_inner_log_iter frq dir tr 4 3 7 tf ds h 0) as [-> ->].
  destruct (count_inner_log_scan frq dir tr tf ds h 0 Hh) as (-> & -> & ->).
  rewrite is_iter_same, is_iter_other by done. cbn. lia.
Qed.

(** ** Empty selections *)

Lemma select_pair_mask_nil (trace : list V) (rows : list trial) (tf d : float64) :
  select (pair_mask (frequencies rows) (directions rows) tf d)
    (responses trace rows) = []
  <-> combination_occurs rows tf d = false.
Proof.
  unfold pair_mask, eq_mask, frequencies, directions, responses, combination_occurs.
  induction rows as [|r rows IH]; cbn; [done|].
  destruct (f64_eq (temporal_frequency r) tf && f64_eq (orientation r) d); cbn.
  - split; discriminate.
  - exact IH.
Qed.

Lemma emptymean_warn (xs : list V) : EmptyMean ∈ warn_if_empty xs <-> xs = [].
Proof.
  destruct xs; cbn; [|by rewrite elem_of_nil].
  split; [done|]. intros _. apply elem_of_cons. by left.
Qed.

Lemma emptymean_inner_log (frq dir : list float64) (tr : list V)
    (lf ld lr : nat) (tf : float64) (ds : list float64) (h j : nat) :
  EmptyMean ∈ inner_log frq dir tr lf ld lr tf h j ds
  <-> exists d, d ∈ ds /\ select (pair_mask frq dir tf d) tr = [].
Proof.
  revert h j. induction ds as [|d ds IH]; intros h j; cbn [inner_log].
  - rewrite elem_of_nil. split; [done|]. by intros (d & ?%elem_of_nil & _).
  - unfold pair_reads. rewrite elem_of_cons, !elem_of_app, IH, emptymean_warn.
    rewrite !elem_of_cons, elem_of_nil. split.
    + intros [?|[[[?|[?|[?|[?|[]]]]]|Hd]|(d' & Hd' & Hsel)]]; try discriminate.
      * exists d. split; [by left|done].
      * exists d'. split; [by right|done].
    + intros (d' & [->|Hd']%elem_of_cons & Hsel).
      * right. left. by right.
      * right. right. by exists d'.
Qed.

Lemma emptymean_outer_log (frq dir : list float64) (tr : list V)
    (lf ld lr : nat) (ds tfs : list float64) (h i : nat) :
  EmptyMean ∈ outer_log frq dir tr lf ld lr ds h i tfs
  <-> exists tf d, tf ∈ tfs /\ d ∈ ds /\ select (pair_mask frq dir tf d) tr = [].
Proof.
  revert h i. induction tfs as [|tf tfs IH]; intros h i; cbn [outer_log].
  - rewrite elem_of_nil. split; [done|]. by intros (tf & d & ?%elem_of_nil & _).
  - rewrite elem_of_cons, elem_of_app, IH, emptymean_inner_log. split.
    + intros [?|[(d & Hd & Hsel)|(tf' & d & Htf & Hd & Hsel)]]; try discriminate.
      * exists tf, d. split; [by left|done].
      * exists tf', d. split; [by right|done].
    + intros (tf' & d & [->|Htf]%elem_of_cons & Hd & Hsel).
      * right. left. by exists d.
      * right. right. by exists tf', d.
Qed.

Lemma all_combinations_lookup (rows : list trial) (dv tfs : list float64)
    (i j : nat) (tf d : float64) :
  all_combinations_occur rows dv tfs = true ->
  tfs !! i = Some tf -> dv !! j = Some d -> combination_occurs rows tf d = true.
Proof.
  unfold all_combinations_occur. intros Hall Htf Hd.
  rewrite forallb_forall in Hall.
  apply list_elem_of_lookup_2, list_elem_of_In in Hd.
  specialize (Hall d Hd). rewrite forallb_forall in Hall.
  apply Hall. apply list_elem_of_In. by eapply list_elem_of_lookup_2.
Qed.

(** What the aggregation cell adds to the log, when the values fit. *)
Lemma cell_log_tuning_array (trace : list V) (rows : list trial)
    (tfs : list float64) :
  length (finite_unique (directions rows)) <= 8 -> length tfs <= 5 ->
  exists h, 7 < h /\
    cell_log cell_tuning_array (with_tfvals trace rows tfs)
    = outer_log (frequencies rows) (directions rows) (responses trace rows)
        4 3 7 (finite_unique (directions rows)) h 0 tfs.
Proof.
  intros Hd Ht.
  destruct (cell_tuning_array_spec trace rows tfs)
    as (la & arr & Hla & _ & _ & _ & _ & _ & Hfit).
  destruct Hfit as (_ & Hlog & _); [done..|].
  destruct (cell_tuning_spec trace rows)
    as (tun & _ & _ & _ & _ & _ & _ & _ & _ & Hlen).
  exists (S la). split; [lia|].
  unfold cell_log. fold (after_tuning_array trace rows tfs).
  rewrite Hlog. unfold with_tfvals. rewrite exec_define_tfvals. cbn [log].
  by rewrite drop_app_length.
Qed.

Lemma with_tfvals_names (trace : list V) (rows : list trial)
    (tfs : list float64) :
  names (with_tfvals trace rows tfs) !! "temporal_frequency" = Some 4 /\
  names (with_tfvals trace rows tfs) !! "direction" = Some 3 /\
  names (with_tfvals trace rows tfs) !! "trial_response" = Some 7.
Proof.
  destruct (cell_tuning_spec trace rows)
    as (tun & _ & _ & _ & _ & _ & _ & Hnames & _ & _).
  unfold with_tfvals. rewrite exec_define_tfvals. cbn [names].
  rewrite !lookup_insert_ne by done.
  rewrite !Hnames by solve_names. done.
Qed.

Lemma after_tuning_array_value (trace : list V) (rows : list trial)
    (tfs : list float64) :
  length (finite_unique (directions rows)) <= 8 -> length tfs <= 5 ->
  exists arr : list (list V),
    value_of "tuning_array" (after_tuning_array trace rows tfs)
    = Some (OFloat2 arr) /\
    shape 8 5 arr /\
    forall i tf j d, tfs !! i = Some tf ->
      finite_unique (directions rows) !! j = Some d ->
      get2 arr j i
      = Some (arr_mean (select (pair_mask (frequencies rows) (directions rows) tf d)
                          (responses trace rows))).
Proof.
  intros Hd Ht.
  destruct (cell_tuning_array_spec trace rows tfs)
    as (la & arr & _ & Hn & Hh & Hsh & _ & _ & Hfit).
  destruct Hfit as (_ & _ & Hent & _); [done..|].
  exists arr. split; [by eapply value_of_intro|]. by split.
Qed.

(** C7, as amended: the trial loop ends normally after exactly
    [len(stim_table)] passes, each reading one subrange of the trace once.
    When [tfvals] is bound to at most 5 values and [dirvals] has at most 8,
    the two-dimensional aggregation ends normally after exactly
    [len(tfvals)] passes of the outer loop and
    [len(tfvals) * len(dirvals)] passes of the inner one, and scans each of
    [temporal_frequency], [direction] and [trial_response] once per inner
    pass. *)
Theorem C7_bounded_passes (trace : list V) (rows : list trial)
    (tfs : list float64) :
  (outcome cell_trial_response (load trace rows) = inr tt /\
   cell_log cell_trial_response (load trace rows) = trial_log trace 0 rows /\
   count (is_iter "i") (trial_log trace 0 rows) = length rows /\
   count (is_read_slice 0) (trial_log trace 0 rows) = length rows) /\
  (length (finite_unique (directions rows)) <= 8 -> length tfs <= 5 ->
   outcome cell_tuning_array (with_tfvals trace rows tfs) = inr tt /\
   inner_passes trace rows tfs
   = length tfs * length (finite_unique (directions rows)) /\
   count (is_iter "i") (cell_log cell_tuning_array (with_tfvals trace rows tfs))
   = length tfs /\
   (names (with_tfvals trace rows tfs) !! "temporal_frequency" = Some 4 /\
    count (is_scan 4) (cell_log cell_tuning_array (with_tfvals trace rows tfs))
    = length tfs * length (finite_unique (directions rows))) /\
   (names (with_tfvals trace rows tfs) !! "direction" = Some 3 /\
    count (is_scan 3) (cell_log cell_tuning_array (with_tfvals trace rows tfs))
    = length tfs * length (finite_unique (directions rows))) /\
   (names (with_tfvals trace rows tfs) !! "trial_response" = Some 7 /\
    count (is_scan 7) (cell_log cell_tuning_array (with_tfvals trace rows tfs))
    = length tfs * length (finite_unique (directions rows)))).
Proof.
  split.
  - split; [unfold outcome; by rewrite run_cell_trial_response|].
    split.
    + unfold cell_log. fold (after_trial_response trace rows).
      by rewrite after_trial_response_eq.
    + split; [apply count_trial_log_iter|apply count_trial_log_read].
  - intros Hd Ht.
    destruct (cell_tuning_array_spec trace rows tfs)
      as (la & arr & _ & _ & _ & _ & _ & _ & Hfit).
    destruct Hfit as (Hout & _); [done..|].
    destruct (cell_log_tuning_array trace rows tfs Hd Ht) as (h & Hh & Hlog).
    destruct (with_tfvals_names trace rows tfs) as (Hn4 & Hn3 & Hn7).
    unfold inner_passes. rewrite Hlog.
    destruct (count_outer_log (frequencies rows) (directions rows)
                (responses trace rows) (finite_unique (directions rows)) tfs h 0 Hh)
      as (-> & -> & -> & -> & ->).
    by repeat split.
Qed.

Lemma select_insert_false {A : Type} (mask : list bool) (xs : list A)
    (k : nat) (y : A) :
  mask !! k = Some false -> select mask (<[k := y]> xs) = select mask xs.
Proof.
  revert xs k. induction mask as [|b mask IH]; intros xs k Hk; [done|].
  destruct xs as [|x xs]; [done|]. destruct k as [|k]; cbn in *.
  - by simplify_eq.
  - destruct b; [f_equal|]; by apply IH.
Qed.

Lemma eq_mask_nan (col : list float64) (d : float64) (k : nat) (x : float64) :
  col !! k = Some x -> f64_isnan x = true -> eq_mask col d !! k = Some false.
Proof.
  intros Hk Hnan. unfold eq_mask. rewrite lookup_map, Hk. cbn.
  by rewrite f64_eq_nan_l.
Qed.

Lemma pair_mask_nan (frq dir : list float64) (tf d : float64) (k : nat)
    (f x : float64) :
  frq !! k = Some f -> dir !! k = Some x ->
  f64_isnan x = true \/ f64_isnan f = true ->
  pair_mask frq dir tf d !! k = Some false.
Proof.
  intros Hf Hx Hnan. unfold pair_mask, eq_mask.
  rewrite lookup_zip_with, !lookup_map, Hf, Hx. cbn.
  destruct Hnan as [Hnan|Hnan]; rewrite (f64_eq_nan_l _ _ Hnan).
  - by rewrite andb_false_r.
  - done.
Qed.

(** C8: [dirvals] holds exactly the finite values of the direction
    column, each once and in ascending order.  A trial whose direction is
    NaN is selected by the mask of no direction value, and by the mask of
    no pair of a temporal frequency and a direction (nor is a trial whose
    temporal frequency is NaN): replacing its response by anything leaves
    every selection as it is.  The entries of the direction tuning curve,
    and of the two-dimensional array when [tfvals] is bound and the values
    fit, are the means of those selections. *)
Theorem C8_blank_sweeps_never_contribute (trace : list V) (rows : list trial)
    (tfs : list float64) :
  value_of "dirvals" (after_dirvals trace rows)
  = Some (OKey (finite_unique (directions rows))) /\
  (forall d, d ∈ finite_unique (directions rows) ->
     f64_isfinite d = true /\ d ∈ directions rows) /\
  (forall x, x ∈ directions rows -> f64_isfinite x = true ->
     exists d, d ∈ finite_unique (directions rows) /\ f64_eq d x = true) /\
  (forall i j a b, finite_unique (directions rows) !! i = Some a ->
     finite_unique (directions rows) !! j = Some b -> i < j ->
     f64_lt a b = true) /\
  (forall k r d tf (y : V), rows !! k = Some r ->
     (f64_isnan (orientation r) = true ->
      eq_mask (directions rows) d !! k = Some false /\
      select (eq_mask (directions rows) d) (<[k := y]> (responses trace rows))
      = select (eq_mask (directions rows) d) (responses trace rows)) /\
     (f64_isnan (orientation r) = true \/
      f64_isnan (temporal_frequency r) = true ->
      pair_mask (frequencies rows) (directions rows) tf d !! k = Some false /\
      select (pair_mask (frequencies rows) (directions rows) tf d)
        (<[k := y]> (responses trace rows))
      = select (pair_mask (frequencies rows) (directions rows) tf d)
          (responses trace rows))) /\
  (exists tun : list V,
     value_of "tuning" (after_tuning trace rows) = Some (OFloat tun) /\
     forall i d, finite_unique (directions rows) !! i = Some d -> i < 8 ->
       tun !! i = Some (arr_mean (select (eq_mask (directions rows) d)
                                    (responses trace rows)))) /\
  (length (finite_unique (directions rows)) <= 8 -> length tfs <= 5 ->
   exists arr : list (list V),
     value_of "tuning_array" (after_tuning_array trace rows tfs)
     = Some (OFloat2 arr) /\
     forall i tf j d, tfs !! i = Some tf ->
       finite_unique (directions rows) !! j = Some d ->
       get2 arr j i
       = Some (arr_mean
                 (select (pair_mask (frequencies rows) (directions rows) tf d)
                    (responses trace rows)))).
Proof.
  split; [rewrite after_dirvals_eq; reflexivity|].
  split; [intros d; apply finite_unique_elem|].
  split; [intros x; apply finite_unique_covers|].
  split; [intros i j a b; apply finite_unique_ascending|].
  split; [|split].
  - intros k r d tf y Hr.
    assert (Hdir : directions rows !! k = Some (orientation r))
      by (unfold directions; by rewrite lookup_map, Hr).
    assert (Hfrq : frequencies rows !! k = Some (temporal_frequency r))
      by (unfold frequencies; by rewrite lookup_map, Hr).
    split.
    + intros Hnan.
      pose proof (eq_mask_nan _ d _ _ Hdir Hnan) as Hm.
      split; [done|]. by apply select_insert_false.
    + intros Hnan.
      pose proof (pair_mask_nan _ _ tf d _ _ _ Hfrq Hdir Hnan) as Hm.
      split; [done|]. by apply select_insert_false.
  - destruct (cell_tuning_spec trace rows)
      as (tun & _ & Hnt & Hht & _ & Hent & _).
    exists tun. split; [by eapply value_of_intro|done].
  - intros Hd Ht.
    destruct (after_tuning_array_value trace rows tfs Hd Ht)
      as (arr & Hv & _ & Hent).
    by exists arr.
Qed.

(** C9, as amended: let [tfvals] be bound to at most 5 values and
    [dirvals] have at most 8.  If every pair of a direction value and a
    temporal-frequency value occurs in some trial, no mean of an empty
    selection is taken and every entry the aggregation assigns (row
    [j < len(dirvals)], column [i < len(tfvals)]) is the mean of a non-empty
    set of trials.  If the pair of [dirvals[j]] and [tfvals[i]] occurs in no
    trial, the entry at row [j] and column [i] is the mean of the empty
    selection and numpy's warning is raised. *)
Theorem C9_means_of_nonempty_sets (trace : list V) (rows : list trial)
    (tfs : list float64) :
  length (finite_unique (directions rows)) <= 8 -> length tfs <= 5 ->
  exists arr : list (list V),
    value_of "tuning_array" (after_tuning_array trace rows tfs)
    = Some (OFloat2 arr) /\
    (all_combinations_occur rows (finite_unique (directions rows)) tfs = true ->
     (EmptyMean ∉ cell_log cell_tuning_array (with_tfvals trace rows tfs)) /\
     forall i tf j d, tfs !! i = Some tf ->
       finite_unique (directions rows) !! j = Some d ->
       select (pair_mask (frequencies rows) (directions rows) tf d)
         (responses trace rows) <> [] /\
       get2 arr j i
       = Some (arr_mean
                 (select (pair_mask (frequencies rows) (directions rows) tf d)
                    (responses trace rows)))) /\
    (forall i tf j d, tfs !! i = Some tf ->
       finite_unique (directions rows) !! j = Some d ->
       combination_occurs rows tf d = false ->
       get2 arr j i = Some (arr_mean []) /\
       (EmptyMean ∈ cell_log cell_tuning_array (with_tfvals trace rows tfs))).
Proof.
  intros Hd Ht.
  destruct (after_tuning_array_value trace rows tfs Hd Ht)
    as (arr & Hv & _ & Hent).
  destruct (cell_log_tuning_array trace rows tfs Hd Ht) as (h & Hh & Hlog).
  exists arr. split; [done|]. split.
  - intros Hall. split.
    + rewrite Hlog, emptymean_outer_log.
      intros (tf & d & Htf & Hdv & Hsel).
      apply list_elem_of_lookup_1 in Htf as [i Hi].
      apply list_elem_of_lookup_1 in Hdv as [j Hj].
      apply select_pair_mask_nil in Hsel.
      rewrite (all_combinations_lookup _ _ _ i j tf d Hall Hi Hj) in Hsel.
      discriminate.
    + intros i tf j d Hi Hj. split; [|by apply Hent].
      intros Hsel. apply select_pair_mask_nil in Hsel.
      rewrite (all_combinations_lookup _ _ _ i j tf d Hall Hi Hj) in Hsel.
      discriminate.
  - intros i tf j d Hi Hj Hnone.
    apply select_pair_mask_nil with (trace := trace) in Hnone.
    split.
    + rewrite (Hent i tf j d Hi Hj). by rewrite Hnone.
    + rewrite Hlog, emptymean_outer_log. exists tf, d.
      split; [by eapply list_elem_of_lookup_2|].
      split; [by eapply list_elem_of_lookup_2|done].
Qed.

End Claims.

(** ** The z-score *)

Section ZScore.
Context {V : Type} `{!Numpy V}.



End ZScore.

(** * The theorems at small recordings *)

Lemma C1_witness :
  exists resp : list float64,
    value_of "trial_response" (after_trial_response short_trace two_by_two_rows)
    = Some (OFloat resp) /\
    resp !! 1 = Some (arr_mean (index_range short_trace 2 4)).
Proof.
  destruct (C1_trial_response_is_range_mean short_trace two_by_two_rows)
    as (_ & resp & Hv & _ & Hent).
  exists resp. split; [exact Hv|].
  destruct (Hent 1 (grating 2 4 270 2) eq_refl) as [H _]. exact H.
Defined.

Lemma C3_counterexample :
  ~ one_entry_per_direction (after_tuning short_trace one_direction_rows).
Proof.
  intros (tun & dv & Ht & Hd & Hlen).
  vm_compute in Ht. vm_compute in Hd.
  injection Ht as <-. injection Hd as <-. discriminate Hlen.
Qed.

Lemma C3_witness :
  exists tun : list float64,
    value_of "tuning" (after_tuning short_trace two_by_two_rows)
    = Some (OFloat tun) /\
    tun !! 1
    = Some (arr_mean (select (eq_mask (directions two_by_two_rows) (f64_of_int 270))
                        (responses short_trace two_by_two_rows))).
Proof.
  destruct (C3_tuning_has_eight_entries short_trace two_by_two_rows)
    as (tun & dv & Ht & Hd & _ & Hent & _).
  exists tun. split; [exact Ht|].
  vm_compute in Hd. injection Hd as <-.
  destruct (Hent 1 (f64_of_int 270)) as [H _]; [reflexivity|lia|exact H].
Defined.



Lemma C5_counterexample :
  exists (tun : list float64) (dv : list float64) (v : float64),
    value_of "tuning" (after_tuning long_trace ten_direction_rows)
    = Some (OFloat tun) /\
    value_of "dirvals" (after_tuning long_trace ten_direction_rows)
    = Some (OKey dv) /\
    dv !! 9 = Some (f64_of_int 270) /\
    tun !! 9 = None /\
    length tun = 8 /\
    outcome cell_direction_270 (after_trial_response long_trace ten_direction_rows)
    = inr v /\
    f64_isfinite v = true /\
    (forall i, tun !! i <> Some v) /\
    outcome cell_tuning (after_dirvals long_trace ten_direction_rows)
    = inl (IndexError 8 8).
Proof.
  eexists _, _, _.
  split; [vm_compute; reflexivity|]. split; [vm_compute; reflexivity|].
  split; [vm_compute; reflexivity|]. split; [vm_compute; reflexivity|].
  split; [vm_compute; reflexivity|]. split; [vm_compute; reflexivity|].
  split; [vm_compute; reflexivity|]. split; [|vm_compute; reflexivity].
  intros i. do 8 (destruct i as [|i]; [vm_compute; congruence|]).
  vm_compute. congruence.
Qed.

Lemma C5_witness :
  exists (tun : list float64) (v : float64),
    value_of "tuning" (after_tuning short_trace two_by_two_rows)
    = Some (OFloat tun) /\
    tun !! 1 = Some v /\
    outcome cell_direction_270 (after_trial_response short_trace two_by_two_rows)
    = inr v.
Proof.
  destruct (C5_hand_computed_equals_tuning short_trace two_by_two_rows)
    as (tun & dv & Ht & Hd & _ & _ & _ & H270 & _).
  vm_compute in Hd. injection Hd as <-.
  destruct (H270 1 (f64_of_int 270)) as (v & Hv & Htun);
    [reflexivity|lia|reflexivity|].
  exists tun, v. split; [exact Ht|]. split; [exact Htun|exact Hv].
Defined.

Lemma C7_counterexample :
  inner_passes short_trace six_frequency_rows
    (finite_unique (frequencies six_frequency_rows)) = 11 /\
  length (finite_unique (frequencies six_frequency_rows))
  * length (finite_unique (directions six_frequency_rows)) = 12 /\
  outcome cell_tuning_array
    (with_tfvals short_trace six_frequency_rows
       (finite_unique (frequencies six_frequency_rows)))
  = inl (IndexError 5 5).
Proof. vm_compute. by repeat split. Qed.

Lemma C7_witness :
  outcome cell_tuning_array (with_tfvals short_trace two_by_two_rows two_frequencies)
  = inr tt /\
  inner_passes short_trace two_by_two_rows two_frequencies = 4.
Proof.
  destruct (C7_bounded_passes short_trace two_by_two_rows two_frequencies)
    as [_ Hfit].
  destruct Hfit as (Hout & Hpass & _); [vm_compute; lia|vm_compute; lia|].
  split; [exact Hout|]. rewrite Hpass. reflexivity.
Defined.

Lemma C8_witness :
  eq_mask (directions two_by_two_rows) (f64_of_int 270) !! 2 = Some false /\
  exists arr : list (list float64),
    value_of "tuning_array"
      (after_tuning_array short_trace two_by_two_rows two_frequencies)
    = Some (OFloat2 arr) /\
    get2 arr 1 0
    = Some (arr_mean
              (select (pair_mask (frequencies two_by_two_rows)
                         (directions two_by_two_rows)
                         (f64_of_int 1) (f64_of_int 270))
                 (responses short_trace two_by_two_rows))).
Proof.
  destruct (C8_blank_sweeps_never_contribute short_trace two_by_two_rows
              two_frequencies) as (_ & _ & _ & _ & Hmask & _ & Harr).
  split.
  - destruct (Hmask 2 (blank 4 5) (f64_of_int 270) (f64_of_int 1) f64_nan eq_refl)
      as [H1 _].
    destruct (H1 eq_refl) as [H _]. exact H.
  - destruct Harr as (arr & Hv & Hent); [vm_compute; lia|vm_compute; lia|].
    exists arr. split; [exact Hv|].
    apply (Hent 0 (f64_of_int 1) 1 (f64_of_int 270)); reflexivity.
Defined.

Lemma C9_counterexample :
  all_combinations_occur two_by_two_rows
    (finite_unique (directions two_by_two_rows)) two_frequencies = true /\
  ~ every_entry_is_a_mean short_trace two_by_two_rows two_frequencies.
Proof.
  split; [reflexivity|].
  intros (arr & _ & Hall).
  destruct (Hall 7 4) as (tf & d & Htf & _); [lia|lia|].
  discriminate Htf.
Qed.

Lemma C9_witness :
  (EmptyMean ∉ cell_log cell_tuning_array
                 (with_tfvals short_trace two_by_two_rows two_frequencies)) /\
  exists arr : list (list float64),
    value_of "tuning_array"
      (after_tuning_array short_trace one_direction_rows two_frequencies)
    = Some (OFloat2 arr) /\
    get2 arr 0 1 = Some (arr_mean []).
Proof.
  split.
  - destruct (C9_means_of_nonempty_sets short_trace two_by_two_rows two_frequencies)
      as (arr & _ & Hall & _); [vm_compute; lia|vm_compute; lia|].
    destruct (Hall eq_refl) as [H _]. exact H.
  - destruct (C9_means_of_nonempty_sets short_trace one_direction_rows
                two_frequencies)
      as (arr & Hv & _ & Hnone); [vm_compute; lia|vm_compute; lia|].
    exists arr. split; [exact Hv|].
    destruct (Hnone 1 (f64_of_int 2) 0 (f64_of_int 0)) as [H _];
      [reflexivity..|exact H].
Defined.

Lemma C10_witness :
  window long_trace (Z.of_nat 40 - 30) (Z.of_nat 60 + 30)
  = Some (py_slice long_trace (Z.of_nat 40 - 30) (Z.of_nat 60 + 30)) /\
  py_slice short_trace (Z.of_nat 0 - 30) (Z.of_nat 2 + 30)
  = index_range short_trace (8 - (30 - 0)) (2 + 30).
Proof.
  split.
  - destruct (C10_padded_window long_trace late_rows (grating 40 60 90 4) eq_refl)
      as (_ & Hw & _).
    apply Hw. vm_compute. lia.
  - destruct (C10_padded_window short_trace two_by_two_rows (grating 0 2 0 1)
                eq_refl) as (_ & _ & Hneg).
    destruct Hneg as [_ H]; [vm_compute; lia|exact H].
Defined.

(** * Further properties of the notebook's cells *)

(** To find how a run ends, run it. *)
Ltac outcome_run :=
  unfold outcome;
  lazymatch goal with
  | |- fst ?x = ?r =>
      let Hx := fresh "Hx" in
      enough (Hx : exists st', x = (r, st')) by (destruct Hx as [? ->]; done);
      eexists
  end.

Section More.
Context {V : Type} `{!Numpy V}.

(** ** The first trial, by hand and in the loop *)

Lemma run_cell_first_start (trace : list V) (rows : list trial) :
  outcome cell_first_start (load trace rows)
  = match rows with
    | [] => inl (KeyError 0)
    | r :: _ => inr (start r)
    end.
Proof.
  unfold outcome, cell_first_start, load.
  erewrite bind_inr by (apply run_lookup_name; reflexivity).
  erewrite bind_inr by (eapply run_column; reflexivity).
  unfold series_at.
  erewrite bind_inr by (eapply run_ints_at; reflexivity).
  by destruct rows.
Qed.

Lemma run_cell_first_trial_mean (trace : list V) (rows : list trial) (r : trial) :
  rows !! 0 = Some r ->
  outcome cell_first_trial_mean (load trace rows) = inr (slice_mean trace r).
Proof.
  intros Hr. outcome_run. unfold cell_first_trial_mean, load.
  do 3 nb_step.
  erewrite bind_inr
    by (eapply run_series_at; [nb_side | by rewrite lookup_map, Hr]).
  do 2 nb_step.
  erewrite bind_inr
    by (eapply run_series_at; [nb_side | by rewrite lookup_map, Hr]).
  nb_step. by rewrite run_mean_of.
Qed.

(** X1: the mean computed by hand for the first trial is the entry the
    trial loop later puts at index 0 of [trial_response]. *)
Theorem first_trial_mean_is_first_response (trace : list V) (rows : list trial)
    (r : trial) :
  rows !! 0 = Some r ->
  exists (v : V) (resp : list V),
    outcome cell_first_trial_mean (load trace rows) = inr v /\
    value_of "trial_response" (after_trial_response trace rows)
    = Some (OFloat resp) /\
    resp !! 0 = Some v.
Proof.
  intros Hr. exists (slice_mean trace r), (map (slice_mean trace) rows).
  split; [by apply run_cell_first_trial_mean|].
  rewrite after_trial_response_eq. split; [reflexivity|].
  by rewrite lookup_map, Hr.
Qed.

(** X2: on a stimulus table without rows, every cell that reads row 0
    ([stim_table.start[0]], the padded window, the mean of the first
    trial) raises [KeyError: 0], while the trial loop ends normally and
    leaves [trial_response] empty, with nothing read from the trace. *)
Theorem empty_table_behaviour (trace : list V) :
  outcome cell_first_start (load trace []) = inl (KeyError 0) /\
  outcome padded_window (load trace []) = inl (KeyError 0) /\
  outcome cell_first_trial_mean (load trace []) = inl (KeyError 0) /\
  outcome cell_trial_response (load trace []) = inr tt /\
  value_of "trial_response" (after_trial_response trace [])
  = Some (OFloat []) /\
  log (after_trial_response trace []) = [].
Proof.
  split; [apply (run_cell_first_start trace [])|].
  assert (Hkey : forall st : state V,
            heap st = input_objects trace [] ->
            series_at 1 0 st = (inl (KeyError 0), st)).
  { intros st Hst. unfold series_at.
    erewrite bind_inr by (eapply run_ints_at; rewrite Hst; reflexivity). done. }
  split; [|split].
  - outcome_run. unfold padded_window, load. do 3 nb_step.
    erewrite bind_inl by (by apply Hkey). done.
  - outcome_run. unfold cell_first_trial_mean, load. do 3 nb_step.
    erewrite bind_inl by (by apply Hkey). done.
  - unfold outcome. rewrite run_cell_trial_response, after_trial_response_eq.
    by repeat split.
Qed.

(** ** Empty slices in the trial loop *)

Lemma py_slice_length {A : Type} (xs : list A) (lo hi : nat) :
  length (py_slice xs (Z.of_nat lo) (Z.of_nat hi))
  = Nat.min hi (length xs) - Nat.min lo (length xs).
Proof.
  unfold py_slice. rewrite !slice_bound_nat, length_take, length_drop. lia.
Qed.

Lemma py_slice_nil {A : Type} (xs : list A) (lo hi : nat) :
  py_slice xs (Z.of_nat lo) (Z.of_nat hi) = []
  <-> hi <= lo \/ length xs <= lo.
Proof.
  rewrite <- length_zero_iff_nil, py_slice_length. lia.
Qed.

Lemma emptymean_trial_log (trace : list V) (rows : list trial) (i : nat) :
  EmptyMean ∈ trial_log trace i rows
  <-> exists r, r ∈ rows /\
        py_slice trace (Z.of_nat (start r)) (Z.of_nat (end_ r)) = [].
Proof.
  revert i. induction rows as [|r rows IH]; intros i; cbn [trial_log].
  - rewrite elem_of_nil. split; [done|]. by intros (r & ?%elem_of_nil & _).
  - unfold trial_events, trial_reads.
    rewrite elem_of_app, !elem_of_cons, emptymean_warn, IH. split.
    + intros [[?|[?|Hnil]]|(r' & Hr' & Hnil)]; try discriminate.
      * exists r. split; [by left|done].
      * exists r'. split; [by right|done].
    + intros (r' & [->|Hr']%elem_of_cons & Hnil).
      * left. right. by right.
      * right. by exists r'.
Qed.

(** X3: the trial loop takes the mean of an empty array, with numpy's
    warning, exactly when some trial does not end after it starts or
    starts at or past the end of the trace; no such trial raises an
    error. *)
Theorem trial_loop_warns_on_empty_slices (trace : list V) (rows : list trial) :
  outcome cell_trial_response (load trace rows) = inr tt /\
  (EmptyMean ∈ log (after_trial_response trace rows)
   <-> exists r, r ∈ rows /\ (end_ r <= start r \/ length trace <= start r)).
Proof.
  split; [unfold outcome; by rewrite run_cell_trial_response|].
  rewrite after_trial_response_eq. cbn [log]. rewrite emptymean_trial_log.
  split; intros (r & Hr & Hnil); exists r; (split; [done|]);
    by apply py_slice_nil.
Qed.

(** ** The average for one direction, computed by hand *)

Lemma select_eq_mask_nil (trace : list V) (rows : list trial) (d : float64) :
  select (eq_mask (directions rows) d) (responses trace rows) = []
  <-> forall r, r ∈ rows -> f64_eq (orientation r) d = false.
Proof.
  unfold eq_mask, directions, responses.
  induction rows as [|r rows IH]; cbn.
  - split; [|done]. by intros _ r ?%elem_of_nil.
  - destruct (f64_eq (orientation r) d) eqn:Hr; cbn.
    + split; [discriminate|]. intros Hall.
      specialize (Hall r ltac:(by left)). congruence.
    + rewrite IH. split.
      * intros Hall r' [->|Hr']%elem_of_cons; [done|by apply Hall].
      * intros Hall r' Hr'. apply Hall. by right.
Qed.

(** X4: for every value [d], [trials = direction==d;
    trial_response[trials].mean()] run after the trial cell never raises.
    The selection is empty, and numpy warns, exactly when no trial has
    direction [d]; this is always so when [d] is NaN, so the
    blank sweeps cannot be selected by comparing the direction to NaN. *)
Theorem hand_average_never_raises (trace : list V) (rows : list trial)
    (d : float64) :
  exists sel : list V,
    outcome (mean_for_direction d) (after_trial_response trace rows)
    = inr (arr_mean sel) /\
    (sel = [] <-> forall r, r ∈ rows -> f64_eq (orientation r) d = false) /\
    (EmptyMean ∈ cell_log (mean_for_direction d) (after_trial_response trace rows)
     <-> sel = []) /\
    (f64_isnan d = true -> sel = []).
Proof.
  exists (select (eq_mask (directions rows) d) (responses trace rows)).
  assert (Hrun := run_mean_for_direction d (after_trial_response trace rows) 3 7
                    (directions rows) (responses trace rows)).
  rewrite after_trial_response_eq in Hrun.
  specialize (Hrun eq_refl eq_refl eq_refl eq_refl
                ltac:(unfold directions, responses; by rewrite !length_map)).
  unfold outcome, cell_log, exec. rewrite after_trial_response_eq, Hrun.
  cbn [fst snd log heap].
  split; [done|]. split; [apply select_eq_mask_nil|]. split.
  - rewrite drop_app_length. unfold direction_reads.
    rewrite elem_of_app, !elem_of_cons, elem_of_nil, emptymean_warn.
    split; [|by right].
    by intros [[?|[?|[?|[]]]]|?].
  - intros Hnan. apply select_eq_mask_nil. intros r _.
    by apply f64_eq_nan_r.
Qed.

(** ** The direction cell and the number of directions *)

(** X5: the direction cell ends normally when there are at most 8 finite
    direction values; with more it raises [IndexError] for index 8 of an
    array of size 8, after it has assigned all 8 entries. *)
Theorem tuning_cell_outcome (trace : list V) (rows : list trial) :
  outcome cell_tuning (after_dirvals trace rows)
  = (if decide (length (finite_unique (directions rows)) <= 8) then inr tt
     else inl (IndexError 8 8)) /\
  (8 <= length (finite_unique (directions rows)) ->
   exists tun : list V,
     value_of "tuning" (after_tuning trace rows) = Some (OFloat tun) /\
     length tun = 8 /\
     forall i, i < 8 ->
       exists d, finite_unique (directions rows) !! i = Some d /\
         tun !! i = Some (arr_mean (select (eq_mask (directions rows) d)
                                      (responses trace rows)))).
Proof.
  destruct (cell_tuning_spec trace rows)
    as (tun & Hout & Hnt & Hht & Hlen & Hent & _).
  split; [done|]. intros Hmany. exists tun.
  split; [by eapply value_of_intro|]. split; [done|].
  intros i Hi.
  destruct (lookup_lt_is_Some_2 (finite_unique (directions rows)) i) as [d Hd];
    [lia|].
  exists d. split; [done|]. by apply Hent.
Qed.

(** ** The z-score cell *)

Lemma shape_zscore (nr nc : nat) (a : list (list V)) :
  shape nr nc a -> shape nr nc (zscore a).
Proof.
  intros [Hlen Hall]. unfold zscore. split; [by rewrite length_map|].
  apply Forall_forall. intros row Hrow.
  apply list_elem_of_In, in_map_iff in Hrow as (row' & <- & Hin).
  rewrite length_map. eapply Forall_forall in Hall; [done|].
  by apply list_elem_of_In.
Qed.

(** X6: wherever [tuning_array] is bound to an array, the z-score cell ends
    normally, binds [tuning_array_z] to a new array of the same shape and
    leaves [tuning_array] as it was. *)
Theorem zscore_keeps_shape_and_source (st : state V) (la nr nc : nat)
    (a : list (list V)) :
  names st !! "tuning_array" = Some la ->
  heap st !! la = Some (OFloat2 a) ->
  shape nr nc a ->
  outcome cell_tuning_array_z st = inr tt /\
  value_of "tuning_array" (exec cell_tuning_array_z st) = Some (OFloat2 a) /\
  exists z : list (list V),
    value_of "tuning_array_z" (exec cell_tuning_array_z st) = Some (OFloat2 z) /\
    shape nr nc z.
Proof.
  intros Hn Hh Hsh.
  assert (Hrun : cell_tuning_array_z st
                 = (inr tt,
                    State (heap st ++ [OFloat2 (zscore a)])
                      (<["tuning_array_z" := length (heap st)]> (names st))
                      (log st ++ [Scan la]))).
  { unfold cell_tuning_array_z. by do 4 nb_step. }
  unfold outcome, exec. rewrite Hrun. cbn [fst snd].
  split; [done|]. split.
  - eapply value_of_intro; cbn [names heap].
    + by rewrite lookup_insert_ne.
    + by apply lookup_snoc_old.
  - exists (zscore a). split; [|by apply shape_zscore].
    eapply value_of_intro; cbn [names heap].
    + apply lookup_insert_eq.
    + apply lookup_snoc_new.
Qed.

(** X7: run in notebook order, where the aggregation has stopped on the
    unbound [tfvals], the z-score cell still ends normally: what it
    standardises is the array [np.empty((8,5))] returned, not a tuning
    array. *)
Theorem zscore_of_uninitialised_array (trace : list V) (rows : list trial) :
  outcome cell_tuning_array_z (after_tuning_array_unbound trace rows) = inr tt /\
  value_of "tuning_array_z" (after_zscore_unbound trace rows)
  = Some (OFloat2 (zscore (np_empty2 8 5))).
Proof.
  unfold after_zscore_unbound, after_tuning_array_unbound, exec, outcome.
  rewrite (run_cell_tuning_array_unbound _ (after_tuning_tfvals trace rows)).
  cbn [snd].
  set (st := State _ _ _).
  assert (Hrun : cell_tuning_array_z st
                 = (inr tt,
                    State (heap st ++ [OFloat2 (zscore (np_empty2 8 5))])
                      (<["tuning_array_z" := length (heap st)]> (names st))
                      (log st ++ [Scan (length (heap (after_tuning trace rows)))]))).
  { unfold cell_tuning_array_z.
    erewrite bind_inr by (apply run_lookup_name; apply lookup_insert_eq).
    erewrite bind_inr by (eapply run_floats2_at; apply lookup_snoc_new).
    by do 2 nb_step. }
  rewrite Hrun. cbn [fst snd]. split; [done|].
  eapply value_of_intro; cbn [names heap].
  - apply lookup_insert_eq.
  - apply lookup_snoc_new.
Qed.

(** ** Rows selected by their direction *)

Lemma rows_of_columns_rows (rows : list trial) :
  rows_of_columns (map start rows) (map end_ rows) (map orientation rows)
    (map temporal_frequency rows) (map blank_sweep rows) = rows.
Proof.
  induction rows as [|[s e o t b] rows IH]; [done|]. cbn. by rewrite IH.
Qed.

Lemma select_elem {A : Type} (mask : list bool) (xs : list A) (x : A) :
  x ∈ select mask xs <-> exists k, mask !! k = Some true /\ xs !! k = Some x.
Proof.
  revert xs. induction mask as [|b mask IH]; intros xs; cbn.
  - rewrite elem_of_nil. split; [done|]. by intros (k & ? & _).
  - destruct xs as [|y xs].
    + rewrite elem_of_nil. split; [done|]. by intros (k & _ & ?).
    + destruct b; rewrite ?elem_of_cons, IH.
      * split.
        -- intros [->|(k & Hm & Hx)]; [by exists 0|by exists (S k)].
        -- intros ([|k] & Hm & Hx); cbn in *; [left; congruence|right; by exists k].
      * split.
        -- intros (k & Hm & Hx). by exists (S k).
        -- intros ([|k] & Hm & Hx); cbn in *; [congruence|by exists k].
Qed.

Lemma select_sorted {A : Type} (R : A -> A -> Prop) (mask : list bool)
    (xs : list A) :
  StronglySorted R xs -> StronglySorted R (select mask xs).
Proof.
  intros Hs. revert mask. induction Hs as [|y xs Hxs IH Hall]; intros mask.
  - destruct mask; constructor.
  - destruct mask as [|b mask]; cbn; [constructor|].
    destruct b; [|apply IH]. constructor; [apply IH|].
    apply Forall_forall. intros z (k & _ & Hz)%select_elem.
    eapply Forall_forall in Hall; [done|]. by eapply list_elem_of_lookup_2.
Qed.

Lemma labelled_lookup {A : Type} (rows : list A) (k i : nat) (r : A) :
  labelled rows !! k = Some (i, r) <-> i = k /\ rows !! k = Some r.
Proof.
  unfold labelled. rewrite lookup_zip_with_Some. split.
  - intros (i' & r' & Heq & Hi & Hr). simplify_eq.
    apply lookup_seq in Hi as [-> _]. done.
  - intros [-> Hr]. exists k, r. split; [done|]. split; [|done].
    apply lookup_seq. split; [done|]. by eapply lookup_lt_Some.
Qed.

Lemma labelled_sorted_from {A : Type} (rows : list A) (n : nat) :
  StronglySorted (fun a b : nat * A => a.1 < b.1) (zip (seq n (length rows)) rows).
Proof.
  revert n. induction rows as [|r rows IH]; intros n; cbn; constructor.
  - apply IH.
  - apply Forall_forall. intros [i r'] Hin.
    apply list_elem_of_lookup_1 in Hin as [k Hk].
    apply lookup_zip_with_Some in Hk as (i' & r'' & Heq & Hi & _).
    simplify_eq. apply lookup_seq in Hi as [-> _]. cbn. lia.
Qed.

Lemma run_rows_with_orientation (trace : list V) (rows : list trial)
    (d : float64) :
  rows_with_orientation d (load trace rows)
  = (inr (select (eq_mask (directions rows) d) (labelled rows)),
     State (input_objects trace rows) names_loaded [Scan 3]).
Proof.
  unfold rows_with_orientation, load. do 4 nb_step.
  assert (Hrows : forall lg,
            table_rows 6 (State (input_objects trace rows) names_loaded lg)
            = (inr rows, State (input_objects trace rows) names_loaded lg)).
  { intros lg. unfold table_rows.
    nb_step. erewrite bind_inr by (eapply run_ints_at; reflexivity).
    nb_step. erewrite bind_inr by (eapply run_ints_at; reflexivity).
    do 2 nb_step. do 2 nb_step. do 2 nb_step.
    unfold ret. by rewrite rows_of_columns_rows. }
  rewrite (bind_inr _ _ _ _ _ (Hrows _)).
  rewrite decide_True by (by rewrite !length_map). reflexivity.
Qed.

(** X8: [stim_table[stim_table.orientation==d]], for 90 or any other value,
    never raises and changes nothing in the table.  It shows exactly the
    rows whose direction equals [d], each under the label it has in
    [stim_table], in ascending order of the labels; its first row
    is the first such row of the table; and no blank sweep is among
    them. *)
Theorem rows_with_orientation_keep_labels (trace : list V) (rows : list trial)
    (d : float64) :
  exists sel : list (nat * trial),
    outcome (rows_with_orientation d) (load trace rows) = inr sel /\
    heap (exec (rows_with_orientation d) (load trace rows))
    = heap (load trace rows) /\
    (forall i r, (i, r) ∈ sel <->
       rows !! i = Some r /\ f64_eq (orientation r) d = true) /\
    StronglySorted (fun a b : nat * trial => a.1 < b.1) sel /\
    (forall i r i' r', sel !! 0 = Some (i, r) -> rows !! i' = Some r' ->
       f64_eq (orientation r') d = true -> i <= i') /\
    (forall i r, (i, r) ∈ sel -> f64_isnan (orientation r) = false).
Proof.
  exists (select (eq_mask (directions rows) d) (labelled rows)).
  unfold outcome, exec. rewrite run_rows_with_orientation. cbn [fst snd heap].
  assert (Hmem : forall i r,
            (i, r) ∈ select (eq_mask (directions rows) d) (labelled rows) <->
            rows !! i = Some r /\ f64_eq (orientation r) d = true).
  { intros i r. rewrite select_elem. split.
    - intros (k & Hm & Hl). apply labelled_lookup in Hl as [-> Hr].
      split; [done|]. unfold eq_mask, directions in Hm.
      rewrite !lookup_map, Hr in Hm. cbn in Hm. congruence.
    - intros [Hr Hd]. exists i. split; [|by apply labelled_lookup].
      unfold eq_mask, directions. by rewrite !lookup_map, Hr; cbn; rewrite Hd. }
  assert (Hsorted : StronglySorted (fun a b : nat * trial => a.1 < b.1)
                      (select (eq_mask (directions rows) d) (labelled rows))).
  { apply select_sorted, labelled_sorted_from. }
  split; [done|]. split; [done|]. split; [done|]. split; [done|]. split.
  - intros i r i' r' H0 Hr' Hd'.
    assert (Hin : (i', r') ∈ select (eq_mask (directions rows) d) (labelled rows))
      by (by apply Hmem).
    apply list_elem_of_lookup_1 in Hin as [[|k] Hk].
    + rewrite H0 in Hk. by simplify_eq.
    + pose proof (sorted_lookup _ _ 0 (S k) _ _ Hsorted H0 Hk ltac:(lia)) as Hlt.
      cbn in Hlt. lia.
  - intros i r [_ Hd]%Hmem.
    destruct (f64_isnan (orientation r)) eqn:Hnan; [|done].
    by rewrite f64_eq_nan_l in Hd.
Qed.

(** ** [unique()] on a column *)

Lemma same_value_sym (x y : float64) : same_value x y = same_value y x.
Proof.
  apply eq_true_iff_eq. rewrite !same_value_key. split; congruence.
Qed.

Lemma same_value_trans (x y z : float64) :
  same_value x y = true -> same_value y z = true -> same_value x z = true.
Proof. rewrite !same_value_key. congruence. Qed.

Lemma unique_after_elem (seen xs : list float64) (x : float64) :
  x ∈ unique_after seen xs ->
  x ∈ xs /\ forall s, s ∈ seen -> same_value s x = false.
Proof.
  revert seen. induction xs as [|y xs IH]; intros seen; cbn.
  - by intros ?%elem_of_nil.
  - destruct (existsb (fun s => same_value s y) seen) eqn:Hseen.
    + intros [Hx Hs]%IH. split; [by right|done].
    + intros [->|[Hx Hs]%IH]%elem_of_cons.
      * split; [by left|]. intros s Hin.
        destruct (same_value s y) eqn:Hsy; [|done].
        assert (existsb (fun s => same_value s y) seen = true); [|congruence].
        apply existsb_exists. exists s. split; [by apply list_elem_of_In|done].
      * split; [by right|]. intros s Hin. apply Hs. by right.
Qed.

Lemma unique_after_covers (seen xs : list float64) (x : float64) :
  x ∈ xs ->
  (exists s, s ∈ seen /\ same_value s x = true) \/
  (exists u, u ∈ unique_after seen xs /\ same_value u x = true).
Proof.
  revert seen. induction xs as [|y xs IH]; intros seen; cbn.
  - by intros ?%elem_of_nil.
  - intros Hx. destruct (existsb (fun s => same_value s y) seen) eqn:Hseen.
    + apply elem_of_cons in Hx as [->|Hx]; [|by apply IH].
      left. apply existsb_exists in Hseen as (s & Hin & Hs).
      exists s. split; [by apply list_elem_of_In|done].
    + apply elem_of_cons in Hx as [->|Hx].
      * right. exists y. split; [by left|]. by apply same_value_key.
      * destruct (IH (y :: seen) Hx) as [(s & Hin & Hs)|(u & Hu & Hs)].
        -- apply elem_of_cons in Hin as [->|Hin].
           ++ right. exists y. split; [by left|done].
           ++ left. by exists s.
        -- right. exists u. split; [by right|done].
Qed.

Lemma unique_after_distinct (seen xs : list float64) :
  StronglySorted (fun a b => same_value a b = false) (unique_after seen xs).
Proof.
  revert seen. induction xs as [|y xs IH]; intros seen; cbn; [constructor|].
  destruct (existsb (fun s => same_value s y) seen); [apply IH|].
  constructor; [apply IH|]. apply Forall_forall.
  intros z [_ Hz]%unique_after_elem. apply Hz. by left.
Qed.

Lemma unique_after_sublist (seen xs : list float64) :
  sublist (unique_after seen xs) xs.
Proof.
  revert seen. induction xs as [|y xs IH]; intros seen; cbn; [constructor|].
  destruct (existsb (fun s => same_value s y) seen).
  - by apply sublist_cons.
  - by apply sublist_skip.
Qed.

Lemma run_column_unique (trace : list V) (rows : list trial) :
  column_unique "orientation" (load trace rows)
  = (inr (pd_unique (directions rows)),
     State (input_objects trace rows) names_loaded [Scan 3]) /\
  column_unique "temporal_frequency" (load trace rows)
  = (inr (pd_unique (frequencies rows)),
     State (input_objects trace rows) names_loaded [Scan 4]).
Proof.
  unfold column_unique, load. split; do 4 nb_step; reflexivity.
Qed.

(** X9: [stim_table.orientation.unique()] and
    [stim_table.temporal_frequency.unique()] never raise, change no object
    and bind no name.  The result lists the values of the column in the order in
    which they first appear, each once, all NaN counting as one value; and
    its finite entries are, up to their order, the sorted directions that
    [dirvals] holds later. *)
Theorem column_unique_first_appearance (trace : list V) (rows : list trial) :
  heap (exec cell_unique_orientation (load trace rows))
  = heap (load trace rows) /\
  names (exec cell_unique_orientation (load trace rows))
  = names (load trace rows) /\
  outcome cell_unique_temporal_frequency (load trace rows)
  = inr (pd_unique (frequencies rows)) /\
  exists u : list float64,
    outcome cell_unique_orientation (load trace rows) = inr u /\
    sublist u (directions rows) /\
    (forall x, x ∈ directions rows -> exists y, y ∈ u /\ same_value y x = true) /\
    (forall i j x y, i < j -> u !! i = Some x -> u !! j = Some y ->
       same_value x y = false) /\
    (forall d, d ∈ finite_unique (directions rows) ->
       exists y, y ∈ u /\ f64_eq y d = true) /\
    (forall y, y ∈ u -> f64_isfinite y = true ->
       exists d, d ∈ finite_unique (directions rows) /\ f64_eq d y = true).
Proof.
  destruct (run_column_unique trace rows) as [Ho Ht].
  unfold cell_unique_orientation, cell_unique_temporal_frequency, exec, outcome.
  rewrite Ho, Ht. cbn [fst snd heap names].
  split; [done|]. split; [done|]. split; [done|].
  exists (pd_unique (directions rows)). split; [done|].
  assert (Hcov : forall x, x ∈ directions rows ->
            exists y, y ∈ pd_unique (directions rows) /\ same_value y x = true).
  { intros x Hx.
    destruct (unique_after_covers [] _ _ Hx) as [(s & Hs & _)|Hu]; [|done].
    by apply elem_of_nil in Hs. }
  split; [apply unique_after_sublist|]. split; [done|]. split.
  { intros i j x y Hij Hi Hj.
    exact (sorted_lookup _ _ i j x y (unique_after_distinct [] _) Hi Hj Hij). }
  split.
  - intros d Hd. destruct (finite_unique_elem _ _ Hd) as [Hfin Hin].
    destruct (Hcov d Hin) as (y & Hy & Hsame). exists y. split; [done|].
    apply same_value_key in Hsame. apply f64_eq_key.
    split; [done|]. apply f64_isfinite_not_nan.
    by rewrite (f64_isfinite_key y d).
  - intros y [Hy _]%unique_after_elem Hfin.
    by apply finite_unique_covers.
Qed.

(** ** The padded window and the frames of the trial *)

(** X10: when the first trial begins at frame 30 or later and the trace goes
    on for 30 frames after its end, the padded window
    [dff_trace[start-30:end+30]] has the length of the trial plus 60, its
    entry [k] is the sample of frame [start - 30 + k], and the samples of
    the trial itself are its entries from 30 on.  The span that
    [plt.axvspan(30,90)] shades is the time of the trial exactly when the
    trial lasts 60 frames. *)
Theorem padded_window_alignment (trace : list V) (rows : list trial)
    (r : trial) :
  rows !! 0 = Some r ->
  30 <= start r -> start r <= end_ r -> end_ r + 30 <= length trace ->
  exists w : list V,
    outcome padded_window (load trace rows) = inr w /\
    length w = end_ r - start r + 60 /\
    (forall k, k < end_ r - start r + 60 ->
       w !! k = trace !! (start r - 30 + k)) /\
    (forall k, k < end_ r - start r ->
       w !! (30 + k) = trace !! (start r + k)) /\
    w !! 30 = trace !! start r /\
    (end_ r - start r = 60 <->
     forall k, 30 <= k < 90 <-> start r <= start r - 30 + k < end_ r).
Proof.
  intros Hr Hlo Hle Hhi.
  exists (py_slice trace (Z.of_nat (start r) - 30) (Z.of_nat (end_ r) + 30)).
  pose proof (run_padded_window trace rows r Hr) as Hrun.
  split; [unfold outcome; by rewrite Hrun|].
  replace (Z.of_nat (start r) - 30)%Z with (Z.of_nat (start r - 30)) by lia.
  replace (Z.of_nat (end_ r) + 30)%Z with (Z.of_nat (end_ r + 30)) by lia.
  rewrite py_slice_index_range.
  assert (Hlk : forall k, k < end_ r - start r + 60 ->
            index_range trace (start r - 30) (end_ r + 30) !! k
            = trace !! (start r - 30 + k)).
  { intros k Hk. rewrite index_range_lookup by lia.
    rewrite decide_True by lia. done. }
  split; [rewrite index_range_length; lia|]. split; [done|]. split.
  - intros k Hk. rewrite Hlk by lia. f_equal. lia.
  - split.
    + replace 30 with (30 + 0) at 1 by lia. rewrite Hlk by lia. f_equal. lia.
    + split; [intros Hlen k; lia|]. intros Hspan.
      destruct (decide (end_ r - start r < 60)) as [Hshort|Hlong].
      * pose proof (Hspan (30 + (end_ r - start r))). lia.
      * pose proof (Hspan 90). lia.
Qed.

(** ** The plots of the responses and of the tuning curve *)

Lemma run_plt_plot (x y : string) (st : state V) (lx ly : nat) (ox oy : obj V) :
  names st !! x = Some lx -> names st !! y = Some ly ->
  heap st !! lx = Some ox -> heap st !! ly = Some oy ->
  plt_plot x y st
  = (if decide (first_dimension ox = first_dimension oy) then inr tt
     else inl ValueError, st).
Proof.
  intros Hx Hy Hox Hoy. unfold plt_plot.
  erewrite bind_inr by (by apply run_lookup_name).
  erewrite bind_inr by (by apply run_lookup_name).
  erewrite bind_inr by (by apply run_deref).
  erewrite bind_inr by (by apply run_deref).
  by case_decide.
Qed.

(** X15: the plot of the trial responses against the directions never
    fails, since both arrays have one entry per trial.  The plot of
    [tuning] against [dirvals] ends normally exactly when there are 8
    finite direction values, and raises [ValueError] otherwise: with
    fewer than 8 directions the direction cell ends normally and it is the
    plot that fails. *)
Theorem plots_need_matching_lengths (trace : list V) (rows : list trial) :
  outcome cell_plot_trials (after_trial_response trace rows) = inr tt /\
  outcome cell_plot_tuning (after_tuning trace rows)
  = (if decide (length (finite_unique (directions rows)) = 8) then inr tt
     else inl ValueError) /\
  (length (finite_unique (directions rows)) < 8 ->
   outcome cell_tuning (after_dirvals trace rows) = inr tt /\
   outcome cell_plot_tuning (after_tuning trace rows) = inl ValueError).
Proof.
  assert (Htrials : outcome cell_plot_trials (after_trial_response trace rows)
                    = inr tt).
  { unfold outcome, cell_plot_trials. rewrite after_trial_response_eq.
    erewrite (run_plt_plot _ _ _ 3 7 (OKey (directions rows))
                (OFloat (responses trace rows))); [|reflexivity..].
    cbn [first_dimension fst]. unfold directions, responses.
    by rewrite decide_True by (by rewrite !length_map). }
  destruct (cell_tuning_spec trace rows)
    as (tun & Hout & Hnt & Hht & Hlen & _ & _ & Hnames & Hheap & _).
  assert (Hplot : outcome cell_plot_tuning (after_tuning trace rows)
                  = (if decide (length (finite_unique (directions rows)) = 8)
                     then inr tt else inl ValueError)).
  { unfold outcome, cell_plot_tuning.
    erewrite (run_plt_plot _ _ _ 10 11 (OKey (finite_unique (directions rows)))
                (OFloat tun)).
    - cbn [first_dimension fst]. by rewrite Hlen.
    - rewrite Hnames by solve_names. reflexivity.
    - done.
    - rewrite Hheap by lia. reflexivity.
    - done. }
  split; [done|]. split; [done|]. intros Hfew. split.
  - rewrite Hout. by rewrite decide_True by lia.
  - rewrite Hplot. by rewrite decide_False by lia.
Qed.

(** ** The two-dimensional aggregation on more values than the array holds *)

Lemma for_each_app {A : Type} (var : string) (body : nat -> A -> M V unit)
    (xs ys : list A) :
  forall (i : nat) (st : state V),
    for_each var body i (xs ++ ys) st
    = bind (for_each var body i xs)
        (fun _ => for_each var body (i + length xs) ys) st.
Proof.
  induction xs as [|x xs IH]; intros i st; cbn [for_each app length].
  - unfold bind, ret. by rewrite Nat.add_0_r.
  - unfold bind.
    destruct (emit (Iter var i) st) as [[e|[]] st1]; [done|].
    destruct (body i x st1) as [[e|[]] st2]; [done|].
    rewrite IH. unfold bind.
    by replace (i + S (length xs)) with (S i + length xs) by lia.
Qed.

Section Overflow.
Context (frq dir : list float64) (tr : list V) (lf ld lr la nr nc : nat).
Context (Hfrq : length frq = length tr) (Hdir : length dir = length tr).

Lemma run_tuning_array_body_row_out (i j : nat) (tf d : float64) (st : state V)
    (arr : list (list V)) :
  aggregation_env frq dir tr lf ld lr la st ->
  heap st !! la = Some (OFloat2 arr) -> arr !! j = None ->
  exists st' : state V,
    tuning_array_body i tf j d st = (inl (IndexError j (length arr)), st').
Proof.
  intros [] Ha Hnone. unfold tuning_array_body.
  erewrite run_pair_mean by eassumption.
  erewrite bind_inr
    by (apply run_lookup_name; cbn [names]; by rewrite lookup_insert_ne).
  eexists. erewrite run_setitem2_row_out; [done| |done].
  cbn [heap]. by apply lookup_snoc_old.
Qed.

Lemma run_tuning_array_body_col_out (i j : nat) (tf d : float64) (st : state V)
    (arr : list (list V)) (row : list V) :
  aggregation_env frq dir tr lf ld lr la st ->
  heap st !! la = Some (OFloat2 arr) -> arr !! j = Some row -> length row <= i ->
  exists st' : state V,
    tuning_array_body i tf j d st = (inl (IndexError i (length row)), st').
Proof.
  intros [] Ha Hrow Hi. unfold tuning_array_body.
  erewrite run_pair_mean by eassumption.
  erewrite bind_inr
    by (apply run_lookup_name; cbn [names]; by rewrite lookup_insert_ne).
  eexists. erewrite run_setitem2_col_out; [done| |done..].
  cbn [heap]. by apply lookup_snoc_old.
Qed.

(** With more directions than rows, the pass for a valid column stops at
    the first row index past the array. *)
Lemma inner_row_overflow (i : nat) (tf : float64) (ds : list float64)
    (st : state V) (arr : list (list V)) :
  aggregation_env frq dir tr lf ld lr la st ->
  heap st !! la = Some (OFloat2 arr) -> shape nr nc arr ->
  i < nc -> nr < length ds ->
  exists st' : state V,
    for_each "j" (tuning_array_body i tf) 0 ds st = (inl (IndexError nr nr), st').
Proof.
  intros Henv Ha Hsh Hi Hds.
  rewrite <- (take_drop nr ds), for_each_app.
  destruct (tuning_array_inner frq dir tr lf ld lr la nr nc Hfrq Hdir
              i tf (take nr ds) 0 st arr Henv Ha Hsh)
    as (r & st1 & arr1 & Hrun & Hext & Ha1 & Hsh1 & Hfit).
  assert (Htake : length (take nr ds) = nr) by (rewrite length_take; lia).
  destruct Hfit as (-> & _); [lia|done|].
  rewrite (bind_inr _ _ _ _ _ Hrun), Htake. cbn [Nat.add].
  destruct (drop nr ds) as [|d rest] eqn:Hdrop.
  { apply (f_equal length) in Hdrop. rewrite length_drop in Hdrop.
    cbn in Hdrop. lia. }
  cbn [for_each]. erewrite bind_inr by reflexivity.
  destruct (run_tuning_array_body_row_out i nr tf d
              (State (heap st1) (names st1) (log st1 ++ [Iter "j" nr])) arr1)
    as [st' Hst'].
  - apply aggregation_env_log. by eapply aggregation_env_extends.
  - done.
  - apply lookup_ge_None. destruct Hsh1 as [Hl _]. lia.
  - rewrite (bind_inl _ _ _ _ _ Hst'). destruct Hsh1 as [-> _]. by eexists.
Qed.

(** A pass for a column index past the array stops at its first
    direction. *)
Lemma inner_col_overflow (i : nat) (tf d : float64) (ds : list float64)
    (st : state V) (arr : list (list V)) :
  aggregation_env frq dir tr lf ld lr la st ->
  heap st !! la = Some (OFloat2 arr) -> shape nr nc arr ->
  0 < nr -> nc <= i ->
  exists st' : state V,
    for_each "j" (tuning_array_body i tf) 0 (d :: ds) st
    = (inl (IndexError i nc), st').
Proof.
  intros Henv Ha Hsh Hnr Hi.
  destruct (shape_lookup nr nc arr 0 Hsh Hnr) as (row & Hrow & Hlen).
  cbn [for_each]. erewrite bind_inr by reflexivity.
  destruct (run_tuning_array_body_col_out i 0 tf d
              (State (heap st) (names st) (log st ++ [Iter "j" 0])) arr row)
    as [st' Hst']; [by apply aggregation_env_log|done|done|lia|].
  rewrite (bind_inl _ _ _ _ _ Hst'), Hlen. by eexists.
Qed.

(** An error in the pass for the first of the remaining temporal
    frequencies ends the whole loop. *)
Lemma outer_stops_at_error (i lv : nat) (tf : float64) (tfs ds : list float64)
    (st : state V) (e : exn) :
  names st !! "dirvals" = Some lv -> heap st !! lv = Some (OKey ds) ->
  (exists st' : state V,
     for_each "j" (tuning_array_body i tf) 0 ds
       (State (heap st) (names st) (log st ++ [Iter "i" i])) = (inl e, st')) ->
  exists st' : state V,
    for_each "i"
      (fun i tf =>
         bind (lookup_name "dirvals") (fun dv =>
         bind (keys_at dv) (fun ds =>
           for_each "j" (tuning_array_body i tf) 0 ds)))
      i (tf :: tfs) st = (inl e, st').
Proof.
  intros Hnv Hhv [st' Hst']. exists st'.
  cbn [for_each]. erewrite bind_inr by reflexivity.
  rewrite bind_assoc. erewrite bind_inr by (by apply run_lookup_name).
  rewrite bind_assoc. erewrite bind_inr by (by eapply run_keys_at).
  by rewrite (bind_inl _ _ _ _ _ Hst').
Qed.

(** Without directions the loop over the temporal frequencies only
    counts. *)
Lemma outer_without_directions (lv : nat) (tfs : list float64) :
  forall (i : nat) (st : state V),
    names st !! "dirvals" = Some lv -> heap st !! lv = Some (OKey []) ->
    exists st' : state V,
      for_each "i"
        (fun i tf =>
         bind (lookup_name "dirvals") (fun dv =>
         bind (keys_at dv) (fun ds =>
           for_each "j" (tuning_array_body i tf) 0 ds)))
        i tfs st = (inr tt, st').
Proof.
  induction tfs as [|tf tfs IH]; intros i st Hnv Hhv; [by eexists|].
  cbn [for_each]. erewrite bind_inr by reflexivity.
  rewrite bind_assoc. erewrite bind_inr by (by apply run_lookup_name).
  rewrite bind_assoc. erewrite bind_inr by (by eapply run_keys_at).
  cbn [for_each]. erewrite bind_inr by reflexivity.
  by apply IH.
Qed.

(** The loop over the temporal frequencies, started at column 0 of an
    [nr] by [nc] array. *)
Lemma outer_outcome (ds : list float64) (lv : nat) (tfs : list float64)
    (st : state V) (arr : list (list V)) :
  aggregation_env frq dir tr lf ld lr la st ->
  names st !! "dirvals" = Some lv -> heap st !! lv = Some (OKey ds) -> la <> lv ->
  heap st !! la = Some (OFloat2 arr) -> shape nr nc arr -> 0 < nc ->
  exists st' : state V,
    for_each "i"
      (fun i tf =>
         bind (lookup_name "dirvals") (fun dv =>
         bind (keys_at dv) (fun ds =>
           for_each "j" (tuning_array_body i tf) 0 ds)))
      0 tfs st
    = (if decide (ds = [] \/ tfs = []) then inr tt
       else if decide (nr < length ds) then inl (IndexError nr nr)
       else if decide (nc < length tfs) then inl (IndexError nc nc)
       else inr tt, st').
Proof.
  intros Henv Hnv Hhv Hlv Ha Hsh Hnc.
  destruct (decide (ds = [] \/ tfs = [])) as [[->| ->]|Hne].
  { by eapply outer_without_directions. }
  { by eexists. }
  destruct (decide (nr < length ds)) as [Hrows|Hrows].
  { destruct tfs as [|tf tfs']; [tauto|].
    eapply outer_stops_at_error; [done..|].
    eapply inner_row_overflow; [|done..]. by apply aggregation_env_log. }
  destruct (tuning_array_outer frq dir tr lf ld lr la nr nc Hfrq Hdir
              ds lv (take nc tfs) 0 st arr Henv Hnv Hhv Hlv Ha Hsh)
    as (r & st1 & arr1 & Hrun & Hext & Ha1 & Hsh1 & Hfit).
  destruct Hfit as (-> & _); [lia|rewrite length_take; lia|].
  destruct (decide (nc < length tfs)) as [Hcols|Hcols].
  - rewrite <- (take_drop nc tfs), for_each_app.
    rewrite (bind_inr _ _ _ _ _ Hrun), length_take, Nat.min_l by lia.
    cbn [Nat.add].
    destruct (drop nc tfs) as [|tf rest] eqn:Hdrop.
    { apply (f_equal length) in Hdrop. rewrite length_drop in Hdrop.
      cbn in Hdrop. lia. }
    destruct ds as [|d ds']; [tauto|].
    assert (Henv1 : aggregation_env frq dir tr lf ld lr la st1)
      by (by eapply aggregation_env_extends).
    eapply outer_stops_at_error.
    + rewrite (ext_names _ _ _ _ Hext); [done|]. solve_names.
    + eapply extends_lookup; [done..|]. done.
    + eapply inner_col_overflow; [by apply aggregation_env_log|done|done| |done].
      cbn in Hrows. lia.
  - rewrite take_ge in Hrun by lia. by eexists.
Qed.

End Overflow.

(** X11: with [tfvals] bound to [tfs], the two-dimensional aggregation ends in
    one of three ways.  It ends normally when there is no finite direction
    or no temporal frequency, or when there are at most 8 directions and
    at most 5 temporal frequencies.  With more than 8 directions it raises
    [IndexError] for index 8 of an axis of size 8, in the pass for the
    first temporal frequency.  Otherwise, with more than 5 temporal
    frequencies, it raises [IndexError] for index 5 of an axis of size
    5. *)
Theorem aggregation_outcome (trace : list V) (rows : list trial)
    (tfs : list float64) :
  outcome cell_tuning_array (with_tfvals trace rows tfs)
  = if decide (finite_unique (directions rows) = [] \/ tfs = []) then inr tt
    else if decide (8 < length (finite_unique (directions rows)))
    then inl (IndexError 8 8)
    else if decide (5 < length tfs) then inl (IndexError 5 5)
    else inr tt.
Proof.
  destruct (cell_tuning_spec trace rows)
    as (tun & _ & Hnt & Hht & _ & _ & _ & Hnames & Hheap & Hlen).
  unfold with_tfvals, outcome. rewrite exec_define_tfvals.
  remember (after_tuning trace rows) as st eqn:Est. clear Est.
  set (h := length (heap st)) in *.
  set (st2 := State ((heap st ++ [OKey tfs]) ++ [OFloat2 (np_empty2 8 5)])
                (<["tuning_array" := S h]> (<["tfvals" := h]> (names st)))
                (log st)).
  assert (Hcell : cell_tuning_array
                    (State (heap st ++ [OKey tfs]) (<["tfvals" := h]> (names st))
                       (log st))
                  = for_each "i"
                      (fun i tf =>
                         bind (lookup_name "dirvals") (fun dv =>
                         bind (keys_at dv) (fun ds =>
                           for_each "j" (tuning_array_body i tf) 0 ds)))
                      0 tfs st2).
  { unfold cell_tuning_array.
    do 2 nb_step.
    erewrite bind_inr
      by (apply run_lookup_name; cbn [names];
          rewrite lookup_insert_ne by done; apply lookup_insert_eq).
    erewrite bind_inr
      by (eapply run_keys_at; cbn [heap]; apply lookup_snoc_old, lookup_snoc_new).
    subst st2 h. rewrite length_app, Nat.add_1_r. reflexivity. }
  rewrite Hcell. clear Hcell.
  assert (Hold : forall l o, l < 11 -> heap_dirvals trace rows !! l = Some o ->
                 heap st2 !! l = Some o).
  { intros l o Hl Ho. subst st2. cbn [heap].
    apply lookup_snoc_old, lookup_snoc_old. by rewrite Hheap. }
  assert (Hname : forall (x : string) l, x ∉ ["trials"; "tuning"] ->
                  x <> "tuning_array" -> x <> "tfvals" ->
                  names_dirvals !! x = Some l -> names st2 !! x = Some l).
  { intros x l Hx Hx1 Hx2 Hl. subst st2. cbn [names].
    rewrite !lookup_insert_ne by done. by rewrite Hnames. }
  destruct (outer_outcome (frequencies rows) (directions rows)
              (responses trace rows) 4 3 7 (S h) 8 5
              ltac:(unfold frequencies, responses; by rewrite !length_map)
              ltac:(unfold directions, responses; by rewrite !length_map)
              (finite_unique (directions rows)) 10 tfs st2 (np_empty2 8 5))
    as [st' Hrun].
  { split; try lia.
    - apply Hname; [solve_names|done..].
    - apply Hold; [lia|reflexivity].
    - apply Hname; [solve_names|done..].
    - apply Hold; [lia|reflexivity].
    - apply Hname; [solve_names|done..].
    - apply Hold; [lia|reflexivity].
    - subst st2. cbn [names]. apply lookup_insert_eq. }
  { apply Hname; [solve_names|done..]. }
  { apply Hold; [lia|reflexivity]. }
  { lia. }
  { subst st2. cbn [heap]. apply lookup_snoc_new_2. }
  { apply shape_np_empty2. }
  { lia. }
  by rewrite Hrun.
Qed.

End More.

(** ** The set-up cell *)

Lemma prefix_append (n h : string) :
  String.prefix n h = true <-> exists b, h = n +:+ b.
Proof.
  revert h. induction n as [|c n IH]; intros [|c' h]; cbn.
  - split; [by exists EmptyString|done].
  - split; [by exists (String c' h)|done].
  - split; [done|]. by intros (b & ?).
  - destruct (Ascii.ascii_dec c c') as [->|Hne].
    + rewrite IH. split.
      * intros (b & ->). by exists b.
      * intros (b & Hb). exists b.
        change (String c' h = String c' (n +:+ b)) in Hb. congruence.
    + split; [done|]. intros (b & Hb).
      change (String c' h = String c (n +:+ b)) in Hb. congruence.
Qed.

(** [contains needle hay] holds exactly when [needle] is a substring. *)
Lemma contains_substring (n h : string) :
  contains n h = true <-> exists a b, h = a +:+ n +:+ b.
Proof.
  induction h as [|c h IH].
  - cbn [contains]. rewrite orb_false_r, prefix_append. split.
    + intros (b & Hb). by exists EmptyString, b.
    + intros (a & b & Hb). destruct a; [by exists b|done].
  - cbn [contains]. rewrite orb_true_iff, prefix_append, IH. split.
    + intros [(b & Hb)|(a & b & Hb)].
      * by exists EmptyString, b.
      * exists (String c a), b.
        change (String c h = String c (a +:+ n +:+ b)). by rewrite Hb.
    + intros ([|c' a] & b & Hb).
      * left. by exists b.
      * right. exists a, b.
        change (String c h = String c' (a +:+ n +:+ b)) in Hb. congruence.
Qed.

Lemma contains_false (n h : string) :
  contains n h = false <-> forall a b, h <> a +:+ n +:+ b.
Proof.
  rewrite <- not_true_iff_false, contains_substring. split.
  - intros Hno a b Hab. apply Hno. by exists a, b.
  - intros Hno (a & b & Hab). by eapply Hno.
Qed.

(** X12: the set-up cell can stop in three places.  When the import of
    the Allen SDK raises, the cell stops there.  Otherwise it stops with
    a NameError for [data_root] at [os.path.join], before any cache is
    made, exactly when the platform string contains none of "Darwin",
    "macOS", "Windows", "amzn" and "Linux" and the module [google.colab]
    is not loaded.  In every other case [BrainObservatoryCache] is called
    with one of the four roots followed by the path of the manifest, and
    the cell ends as that call does. *)
Theorem setup_cell_needs_a_known_platform {E Cache : Type}
    (import_allensdk : option E) (new_cache : string -> E + Cache)
    (platstring : string) (modules : gset string) :
  (forall e, import_allensdk = Some e ->
     cell_setup import_allensdk new_cache platstring modules = ImportRaised e) /\
  (import_allensdk = None ->
   (cell_setup import_allensdk new_cache platstring modules = DataRootUnbound
    <-> (forall w, w ∈ ["Darwin"; "macOS"; "Windows"; "amzn"; "Linux"] ->
           forall a b, platstring <> a +:+ w +:+ b) /\
        "google.colab" ∉ modules) /\
   (cell_setup import_allensdk new_cache platstring modules <> DataRootUnbound ->
    exists root,
      root ∈ ["/Volumes/TReND2025/"; "E:/"; "/data/";
              "/media/$USERNAME/TReND2025/"] /\
      cell_setup import_allensdk new_cache platstring modules
      = match new_cache (root +:+ manifest_relative) with
        | inl e => CacheRaised (root +:+ manifest_relative) e
        | inr boc => SetUp (root +:+ manifest_relative) boc
        end)).
Proof.
  assert (Hfail : manifest_file platstring modules = inl (NameError "data_root")
                  <-> (contains "Darwin" platstring = false /\
                       contains "macOS" platstring = false /\
                       contains "Windows" platstring = false /\
                       contains "amzn" platstring = false /\
                       contains "Linux" platstring = false) /\
                      "google.colab" ∉ modules).
  { unfold manifest_file, data_root.
    destruct (contains "Darwin" platstring), (contains "macOS" platstring),
      (contains "Windows" platstring), (contains "amzn" platstring),
      (contains "Linux" platstring); cbn;
      case_bool_decide; cbn;
      (split;
       [ intros Heq; try discriminate Heq; by repeat split
       | intros [(? & ? & ? & ? & ?) ?]; first [done | congruence | tauto] ]). }
  assert (Hknown : (forall w, w ∈ ["Darwin"; "macOS"; "Windows"; "amzn"; "Linux"] ->
                      forall a b, platstring <> a +:+ w +:+ b) /\
                   "google.colab" ∉ modules
                   <-> manifest_file platstring modules
                       = inl (NameError "data_root")).
  { rewrite Hfail, !contains_false. split.
    - intros [Hw Hm]. split; [|done].
      repeat split; apply Hw; rewrite !elem_of_cons; tauto.
    - intros [(H1 & H2 & H3 & H4 & H5) Hm]. split; [|done].
      intros w Hw.
      repeat (apply elem_of_cons in Hw as [->|Hw]; [done|]).
      by apply elem_of_nil in Hw. }
  assert (Hpath : forall path, manifest_file platstring modules = inr path ->
            exists root,
              root ∈ ["/Volumes/TReND2025/"; "E:/"; "/data/";
                      "/media/$USERNAME/TReND2025/"] /\
              path = root +:+ manifest_relative).
  { intros path. unfold manifest_file, data_root.
    destruct (contains "Darwin" platstring || contains "macOS" platstring).
    { intros [= <-]. exists "/Volumes/TReND2025/".
      split; [rewrite !elem_of_cons; tauto|done]. }
    destruct (contains "Windows" platstring).
    { intros [= <-]. exists "E:/". split; [rewrite !elem_of_cons; tauto|done]. }
    destruct (contains "amzn" platstring
              || bool_decide ("google.colab" ∈ modules)).
    { intros [= <-]. exists "/data/". split; [rewrite !elem_of_cons; tauto|done]. }
    destruct (contains "Linux" platstring); [|done].
    intros [= <-]. exists "/media/$USERNAME/TReND2025/".
    split; [rewrite !elem_of_cons; tauto|done]. }
  split; [by intros e ->|]. intros ->. unfold cell_setup. rewrite Hknown.
  destruct (manifest_file platstring modules) as [e|path] eqn:Hm.
  - assert (e = NameError "data_root") as ->.
    { revert Hm. unfold manifest_file.
      destruct (data_root platstring modules); congruence. }
    split; [done|]. by intros [].
  - destruct (Hpath path eq_refl) as (root & Hroot & ->).
    split.
    + split; [|done]. by destruct (new_cache _).
    + intros _. by exists root.
Qed.

(** ** The further properties on the small recordings *)

Lemma first_trial_mean_witness :
  exists (v : float64) (resp : list float64),
    outcome cell_first_trial_mean (load short_trace two_by_two_rows) = inr v /\
    value_of "trial_response" (after_trial_response short_trace two_by_two_rows)
    = Some (OFloat resp) /\
    resp !! 0 = Some v.
Proof.
  apply (first_trial_mean_is_first_response short_trace two_by_two_rows
           (grating 0 2 0 1)).
  reflexivity.
Defined.

Lemma trial_loop_warns_witness :
  EmptyMean ∈ log (after_trial_response short_trace [grating 3 3 0 1]).
Proof.
  destruct (trial_loop_warns_on_empty_slices short_trace [grating 3 3 0 1])
    as [_ [_ Hwarn]].
  apply Hwarn. exists (grating 3 3 0 1). split; [by left|]. left. cbn. lia.
Defined.

Lemma hand_average_witness :
  outcome (mean_for_direction f64_nan)
    (after_trial_response short_trace two_by_two_rows)
  = inr (arr_mean []).
Proof.
  destruct (hand_average_never_raises short_trace two_by_two_rows f64_nan)
    as (sel & Hout & _ & _ & Hnan).
  rewrite <- (Hnan eq_refl). exact Hout.
Defined.

Lemma tuning_cell_outcome_witness :
  outcome cell_tuning (after_dirvals short_trace nine_direction_rows)
  = inl (IndexError 8 8) /\
  exists tun : list float64,
    value_of "tuning" (after_tuning short_trace nine_direction_rows)
    = Some (OFloat tun) /\
    length tun = 8.
Proof.
  destruct (tuning_cell_outcome short_trace nine_direction_rows) as [Hout Hfull].
  split; [rewrite Hout; reflexivity|].
  destruct Hfull as (tun & Hv & Hl & _); [vm_compute; lia|].
  exists tun. split; [exact Hv|exact Hl].
Defined.

Lemma zscore_keeps_shape_witness :
  value_of "tuning_array" (exec cell_tuning_array_z tenths_state)
  = Some (OFloat2 tenths) /\
  exists z : list (list float64),
    value_of "tuning_array_z" (exec cell_tuning_array_z tenths_state)
    = Some (OFloat2 z) /\
    shape 1 3 z.
Proof.
  destruct (zscore_keeps_shape_and_source tenths_state 0 1 3 tenths)
    as (_ & Hsrc & Hz).
  - reflexivity.
  - reflexivity.
  - split; [reflexivity|]. repeat constructor.
  - split; [exact Hsrc|exact Hz].
Defined.

Lemma rows_with_orientation_witness :
  exists sel : list (nat * trial),
    outcome cell_rows_at_90 (load short_trace ninety_rows) = inr sel /\
    (1, grating 1 2 90 2) ∈ sel /\ (3, grating 3 4 90 1) ∈ sel.
Proof.
  destruct (rows_with_orientation_keep_labels short_trace ninety_rows
              (f64_of_int 90)) as (sel & Hout & _ & Hmem & _).
  exists sel. split; [exact Hout|].
  split; apply Hmem; split; reflexivity.
Defined.

Lemma column_unique_witness :
  exists u : list float64,
    outcome cell_unique_orientation (load short_trace two_by_two_rows) = inr u /\
    exists y, y ∈ u /\ f64_eq y (f64_of_int 270) = true.
Proof.
  destruct (column_unique_first_appearance short_trace two_by_two_rows)
    as (_ & _ & _ & u & Hout & _ & _ & _ & Hdir & _).
  exists u. split; [exact Hout|]. apply Hdir.
  apply (list_elem_of_lookup_2 _ 1). reflexivity.
Defined.

Lemma padded_window_alignment_witness :
  exists w : list float64,
    outcome padded_window (load long_trace late_rows) = inr w /\
    length w = 80 /\
    w !! 30 = long_trace !! 40.
Proof.
  destruct (padded_window_alignment long_trace late_rows (grating 40 60 90 4))
    as (w & Hw & Hlen & _ & _ & H30 & _).
  - reflexivity.
  - cbn. lia.
  - cbn. lia.
  - vm_compute. lia.
  - exists w. split; [exact Hw|]. split; [exact Hlen|exact H30].
Defined.

Lemma setup_cell_witness :
  cell_setup (E:=string) None (fun path => inr path)
    "FreeBSD-14.0-RELEASE-amd64" ∅
  = DataRootUnbound.
Proof.
  destruct (setup_cell_needs_a_known_platform (E:=string) None
              (fun path => inr path) "FreeBSD-14.0-RELEASE-amd64" ∅)
    as [_ Hrun].
  destruct (Hrun eq_refl) as [[_ Hfail] _].
  apply Hfail. split.
  - intros w Hw. apply contains_false.
    repeat (apply elem_of_cons in Hw as [->|Hw]; [reflexivity|]).
    by apply elem_of_nil in Hw.
  - apply not_elem_of_empty.
Defined.


Lemma plots_need_matching_lengths_witness :
  outcome cell_tuning (after_dirvals short_trace two_by_two_rows) = inr tt /\
  outcome cell_plot_tuning (after_tuning short_trace two_by_two_rows)
  = inl ValueError.
Proof.
  destruct (plots_need_matching_lengths short_trace two_by_two_rows)
    as (_ & _ & Hfew).
  apply Hfew. vm_compute. lia.
Defined.
